(** * lavaudio: node connections, the manager's registry and the player

    A shallow embedding of [Node], [Manager] and [Player].  The three classes
    share mutable objects (a player keeps a reference to its node, the manager
    keeps maps of both), so objects live in stores indexed by references and
    every method is a function on the whole [World], in a state-and-exception
    monad: a JavaScript [throw] keeps the mutations made before it. *)

From Stdlib Require Import ZArith Floats Lia Bool Sorted.
From stdpp Require Import gmap strings list.

Local Open Scope Z_scope.
Local Set Warnings "-inexact-float".

(** ** JavaScript values *)

(** A JavaScript [number] is an IEEE 754 double, which is what [float] is. *)
Abbreviation number := float.

Module Js.

(** Truthiness of a number: [0], [-0] and [NaN] are falsy. *)
Definition truthy (x : number) : bool :=
  negb (PrimFloat.is_zero x || PrimFloat.is_nan x).

(** [x || d] where [x] is a possibly [undefined] number. *)
Definition orNum (x : option number) (d : number) : number :=
  match x with
  | Some v => if truthy v then v else d
  | None => d
  end.

(** [x ?? d]. *)
Definition nullish {A : Type} (x : option A) (d : A) : A :=
  match x with Some v => v | None => d end.

(** Truthiness of a string or [null]. *)
Definition truthyStr (x : option string) : bool :=
  match x with
  | Some s => negb (String.eqb s "")
  | None => false
  end.

(** The value the comparator of [Array.prototype.sort] is read as: a [NaN]
    result counts as [+0]. *)
Definition sortCompare {A : Type} (cmp : A -> A -> number) (x y : A) : number :=
  let v := cmp x y in
  if PrimFloat.is_nan v then 0%float else v.

(** The comparator puts [x] strictly before [y]. *)
Definition before {A : Type} (cmp : A -> A -> number) (x y : A) : bool :=
  PrimFloat.ltb (sortCompare cmp x y) 0%float.

Fixpoint sortInsert {A : Type} (cmp : A -> A -> number) (x : A) (l : list A) : list A :=
  match l with
  | [] => [x]
  | y :: l' => if before cmp y x then y :: sortInsert cmp x l' else x :: l
  end.

(** [Array.prototype.sort] with a comparator, as a stable insertion sort:
    an element moves in front of a later one only when the comparator puts
    the later one strictly first.  This is the order the language fixes for a
    comparator that is consistent on the elements; for any other comparator
    the language leaves the order to the engine, and nothing is concluded
    from the order of this list. *)
Fixpoint sort {A : Type} (cmp : A -> A -> number) (l : list A) : list A :=
  match l with
  | [] => []
  | x :: l' => sortInsert cmp x (sort cmp l')
  end.

(** [arr[i] = v] on an array with holes: an index past the end extends the
    array, leaving holes in between. *)
Definition arraySet {A : Type} (arr : list (option A)) (i : nat) (v : A) : list (option A) :=
  if (i <? length arr)%nat then <[i := Some v]> arr
  else arr ++ replicate (i - length arr) None ++ [Some v].

End Js.

(** What the code throws.  [UnhandledError] is the error of an event emitter
    that is asked to emit an error event while nothing listens for it. *)
Inductive JsError :=
| Error (msg : string)
| RangeError (msg : string)
| TypeError (msg : string)
| UnhandledError.

(** ** Data model *)

Abbreviation NodeRef := nat.
Abbreviation PlayerRef := nat.
Abbreviation WsRef := nat.
Abbreviation TimerId := nat.

Record Track := {
  uri : string;
  title : string;
  author : string;
  identifier : string;
  isStream : bool;
  isSeekable : bool;
  track : string
}.

Record VoiceServerData := {
  vsrv_guild_id : string;
  vsrv_token : string;
  vsrv_endpoint : string
}.

Record VoiceStateUpdateData := {
  user_id : string;
  channel_id : option string;
  guild_id : string;
  session_id : string
}.

Record BandGain := { band : nat; gain : number }.

Inductive Filter :=
| noFilter
| karaoke (level monoLevel filterBand filterWidth : number)
| timescale (speed pitch rate : number)
| tremolo (frequency depth : number)
| vibrato (frequency depth : number)
| rotation (rotationHz : number)
| distortion (sinOffset sinScale cosOffset cosScale tanOffset tanScale offset scale : number)
| channelMix (leftToLeft leftToRight rightToLeft rightToRight : number)
| lowPass (smoothing : number).

(** The objects handed to [Node.send]; [JSON.stringify] is kept symbolic. *)
Inductive Payload :=
| opPlay (guildId track : string) (startTime volume : number) (noReplace pause : bool)
| opStop (guildId : string)
| opPause (guildId : string) (pause : bool)
| opSeek (guildId : string) (position : number)
| opVolume (guildId : string) (volume : number)
| opEqualizer (guildId : string) (bands : option (list (option BandGain)))
| opFilters (guildId : string) (body : Filter)
| opVoiceUpdate (guildId sessionId : string) (event : VoiceServerData)
| opDestroy (guildId : string)
| opConfigureResuming (key : string) (timeout : number).

Record CpuStats := { cores : number; systemLoad : number; lavalinkLoad : number }.
Record FrameStats := { sent : number; nulled : number; deficit : number }.
Record MemoryStats := { free : number; used : number; allocated : number; reservable : number }.

(** [cpu] and [frameStats] are always there in a fresh node, but a stats
    message replaces the whole snapshot by the packet, which may lack them. *)
Record Stats := {
  st_players : number;
  playingPlayers : number;
  uptime : number;
  memory : MemoryStats;
  cpu : option CpuStats;
  frameStats : option FrameStats
}.

Record NodeOptions := {
  id : option string;
  host : string;
  port : string;
  auth : option string;
  secure : option bool;
  reconnAfter : option Z;
  resumeKey : option string;
  resumeTout : option number;
  redirects : option bool
}.

Record NodeObj := {
  n_id : option string;
  n_host : string;
  n_port : string;
  n_auth : string;
  n_secure : bool;
  n_reconnAfter : Z;
  n_resumeKey : option string;
  n_resumeTout : number;
  n_redirects : bool;
  stats : Stats;
  connected : bool;
  reconn : option TimerId;
  ws : option WsRef;
  packetQueue : list Payload;
  penalties : option number
}.

(** A [ws] socket, seen from this side: what was handed to it, whether it was
    closed (and how), whether the node's four handlers are still attached. *)
Record Socket := {
  ws_url : string;
  ws_headers : list (string * option string);
  ws_followRedirects : bool;
  ws_sent : list Payload;
  ws_closed : option (option (Z * string));
  ws_listening : bool
}.

Record PlayerState := { ps_volume : number; ps_equalizer : list number }.

Record PlayerObj := {
  node : NodeRef;
  guild : string;
  voiceChannel : option string;
  textChannel : option string;
  state : PlayerState;
  trackRepeat : bool;
  queueRepeat : bool;
  playing : bool;
  paused : bool;
  timestamp : Z;
  p_track : option Track;
  voiceUpdateState : option (string * VoiceServerData);
  position : number;
  volume : number;
  queue : list Track;
  bands : option (list (option number))
}.

Record VoiceChannelStruct := {
  vc_guild : string;
  vc_textChannel : option string;
  vc_voiceChannel : option string;
  selfMute : option bool;
  selfDeaf : option bool
}.

Record PlayOptions := {
  po_startTime : option number;
  po_volume : option number;
  po_noReplace : option bool;
  po_pause : option bool
}.

Record LavalinkOptions := {
  lo_type : string;
  lo_reason : string;
  lo_code : Z;
  lo_guildId : string
}.

(** The op 4 envelope given to the host's [transfer] callback. *)
Record GatewayPayload := {
  gw_guild_id : string;
  gw_channel_id : option string;
  gw_self_mute : bool;
  gw_self_deaf : bool
}.

(** A parsed inbound message of the node's socket.  [otherPacket] is a
    message with any [op] besides ["stats"], ["event"] and ["playerUpdate"]. *)
Inductive Packet :=
| statsPacket (s : Stats)
| eventPacket (data : LavalinkOptions)
| playerUpdatePacket (guildId : string) (vol : option number) (eq : option (list number))
| otherPacket (op : string) (guildId : option string).

(** What [manager.emit] was called with. *)
Inductive Notification :=
| raw (n : NodeRef) (packet : Packet)
| nodeConnect (n : NodeRef)
| nodeClose (code : Z) (n : NodeRef)
| nodeError (code : Z) (n : NodeRef)
| nodeReconnect (n : NodeRef)
| trackStart (p : PlayerRef) (t : option Track)
| trackEnd (p : PlayerRef) (t : option Track)
| queueEnd (p : PlayerRef) (t : option Track)
| trackStuck (p : PlayerRef) (t : option Track) (data : LavalinkOptions)
| trackException (p : PlayerRef) (t : option Track) (data : LavalinkOptions)
| socketClosed (p : PlayerRef) (data : LavalinkOptions)
| playerDestroy (p : PlayerRef).

(** The manager's own fields.  [nodes] is a JavaScript [Map], which iterates in
    insertion order, so it is an association list. *)
Record ManagerObj := {
  listOfNodes : list NodeOptions;
  nodes : list (string * NodeRef);
  players : gmap string PlayerRef;
  voiceStates : gmap string VoiceStateUpdateData;
  voiceServers : gmap string VoiceServerData;
  user : option string
}.

(** The statistics of a node that has not heard from its server. *)
Definition zeroStats : Stats :=
  {| st_players := 0%float; playingPlayers := 0%float; uptime := 0%float;
     memory := {| free := 0%float; used := 0%float; allocated := 0%float;
                  reservable := 0%float |};
     cpu := Some {| cores := 0%float; systemLoad := 0%float; lavalinkLoad := 0%float |};
     frameStats := Some {| sent := 0%float; nulled := 0%float; deficit := 0%float |} |}.

Definition blankNode : NodeObj :=
  {| n_id := None; n_host := ""; n_port := ""; n_auth := ""; n_secure := false;
     n_reconnAfter := 5000; n_resumeKey := None; n_resumeTout := 60%float;
     n_redirects := false; stats := zeroStats; connected := false; reconn := None;
     ws := None; packetQueue := []; penalties := None |}.

Definition blankPlayer : PlayerObj :=
  {| node := 0%nat; guild := ""; voiceChannel := None; textChannel := None;
     state := {| ps_volume := 100%float; ps_equalizer := [] |};
     trackRepeat := false; queueRepeat := false; playing := false; paused := false;
     timestamp := 0; p_track := None; voiceUpdateState := None; position := 0%float;
     volume := 100%float; queue := []; bands := None |}.

Definition blankSocket : Socket :=
  {| ws_url := ""; ws_headers := []; ws_followRedirects := false; ws_sent := [];
     ws_closed := None; ws_listening := false |}.

(** A reference that was never allocated reads as a blank object. *)
#[global] Instance NodeObj_inhabited : Inhabited NodeObj := populate blankNode.
#[global] Instance PlayerObj_inhabited : Inhabited PlayerObj := populate blankPlayer.
#[global] Instance Socket_inhabited : Inhabited Socket := populate blankSocket.

(** Everything the three classes can reach: the object stores, the manager,
    the timers of the event loop that have not fired, the clock, and the two
    ways out to the host ([emit] and [transfer]). *)
Record World := {
  nodeStore : gmap NodeRef NodeObj;
  nextNode : NodeRef;
  playerStore : gmap PlayerRef PlayerObj;
  nextPlayer : PlayerRef;
  wsStore : gmap WsRef Socket;
  nextWs : WsRef;
  timers : list (TimerId * (NodeRef * Z));
  nextTimer : TimerId;
  now : Z;
  manager : ManagerObj;
  emitted : list Notification;
  transferred : list GatewayPayload
}.

(** ** The monad *)

Inductive outcome (A : Type) :=
| Ret (a : A)
| Throw (e : JsError).
Arguments Ret {A} a.
Arguments Throw {A} e.

Definition M (A : Type) : Type := World -> outcome A * World.

Definition ret {A : Type} (a : A) : M A := fun w => (Ret a, w).
Definition throw {A : Type} (e : JsError) : M A := fun w => (Throw e, w).
Definition bind {A B : Type} (m : M A) (k : A -> M B) : M B :=
  fun w =>
    match m w with
    | (Ret a, w') => k a w'
    | (Throw e, w') => (Throw e, w')
    end.
Definition gets {A : Type} (f : World -> A) : M A := fun w => (Ret (f w), w).
Definition modify (f : World -> World) : M unit := fun w => (Ret tt, f w).

Declare Scope js_scope.
Delimit Scope js_scope with js.
Notation "x <- m ;; k" := (bind m (fun x => k))
  (at level 100, m at next level, right associativity) : js_scope.
Notation "m ;; k" := (bind m (fun _ => k))
  (at level 100, right associativity) : js_scope.
Local Open Scope js_scope.

(** *** Field updates *)

Definition w_nodeStore (f : gmap NodeRef NodeObj -> gmap NodeRef NodeObj) (w : World) : World :=
  {| nodeStore := f (nodeStore w); nextNode := nextNode w; playerStore := playerStore w;
     nextPlayer := nextPlayer w; wsStore := wsStore w; nextWs := nextWs w;
     timers := timers w; nextTimer := nextTimer w; now := now w; manager := manager w;
     emitted := emitted w; transferred := transferred w |}.
Definition w_nextNode (v : NodeRef) (w : World) : World :=
  {| nodeStore := nodeStore w; nextNode := v; playerStore := playerStore w;
     nextPlayer := nextPlayer w; wsStore := wsStore w; nextWs := nextWs w;
     timers := timers w; nextTimer := nextTimer w; now := now w; manager := manager w;
     emitted := emitted w; transferred := transferred w |}.
Definition w_playerStore (f : gmap PlayerRef PlayerObj -> gmap PlayerRef PlayerObj)
    (w : World) : World :=
  {| nodeStore := nodeStore w; nextNode := nextNode w; playerStore := f (playerStore w);
     nextPlayer := nextPlayer w; wsStore := wsStore w; nextWs := nextWs w;
     timers := timers w; nextTimer := nextTimer w; now := now w; manager := manager w;
     emitted := emitted w; transferred := transferred w |}.
Definition w_nextPlayer (v : PlayerRef) (w : World) : World :=
  {| nodeStore := nodeStore w; nextNode := nextNode w; playerStore := playerStore w;
     nextPlayer := v; wsStore := wsStore w; nextWs := nextWs w;
     timers := timers w; nextTimer := nextTimer w; now := now w; manager := manager w;
     emitted := emitted w; transferred := transferred w |}.
Definition w_wsStore (f : gmap WsRef Socket -> gmap WsRef Socket) (w : World) : World :=
  {| nodeStore := nodeStore w; nextNode := nextNode w; playerStore := playerStore w;
     nextPlayer := nextPlayer w; wsStore := f (wsStore w); nextWs := nextWs w;
     timers := timers w; nextTimer := nextTimer w; now := now w; manager := manager w;
     emitted := emitted w; transferred := transferred w |}.
Definition w_nextWs (v : WsRef) (w : World) : World :=
  {| nodeStore := nodeStore w; nextNode := nextNode w; playerStore := playerStore w;
     nextPlayer := nextPlayer w; wsStore := wsStore w; nextWs := v;
     timers := timers w; nextTimer := nextTimer w; now := now w; manager := manager w;
     emitted := emitted w; transferred := transferred w |}.
Definition w_timers (f : list (TimerId * (NodeRef * Z)) -> list (TimerId * (NodeRef * Z)))
    (w : World) : World :=
  {| nodeStore := nodeStore w; nextNode := nextNode w; playerStore := playerStore w;
     nextPlayer := nextPlayer w; wsStore := wsStore w; nextWs := nextWs w;
     timers := f (timers w); nextTimer := nextTimer w; now := now w; manager := manager w;
     emitted := emitted w; transferred := transferred w |}.
Definition w_nextTimer (v : TimerId) (w : World) : World :=
  {| nodeStore := nodeStore w; nextNode := nextNode w; playerStore := playerStore w;
     nextPlayer := nextPlayer w; wsStore := wsStore w; nextWs := nextWs w;
     timers := timers w; nextTimer := v; now := now w; manager := manager w;
     emitted := emitted w; transferred := transferred w |}.
Definition w_manager (f : ManagerObj -> ManagerObj) (w : World) : World :=
  {| nodeStore := nodeStore w; nextNode := nextNode w; playerStore := playerStore w;
     nextPlayer := nextPlayer w; wsStore := wsStore w; nextWs := nextWs w;
     timers := timers w; nextTimer := nextTimer w; now := now w; manager := f (manager w);
     emitted := emitted w; transferred := transferred w |}.
Definition w_emitted (f : list Notification -> list Notification) (w : World) : World :=
  {| nodeStore := nodeStore w; nextNode := nextNode w; playerStore := playerStore w;
     nextPlayer := nextPlayer w; wsStore := wsStore w; nextWs := nextWs w;
     timers := timers w; nextTimer := nextTimer w; now := now w; manager := manager w;
     emitted := f (emitted w); transferred := transferred w |}.
Definition w_transferred (f : list GatewayPayload -> list GatewayPayload) (w : World) : World :=
  {| nodeStore := nodeStore w; nextNode := nextNode w; playerStore := playerStore w;
     nextPlayer := nextPlayer w; wsStore := wsStore w; nextWs := nextWs w;
     timers := timers w; nextTimer := nextTimer w; now := now w; manager := manager w;
     emitted := emitted w; transferred := f (transferred w) |}.

Definition m_nodes (f : list (string * NodeRef) -> list (string * NodeRef)) (m : ManagerObj) : ManagerObj :=
  {| listOfNodes := listOfNodes m; nodes := f (nodes m); players := players m;
     voiceStates := voiceStates m; voiceServers := voiceServers m; user := user m |}.
Definition m_players (f : gmap string PlayerRef -> gmap string PlayerRef) (m : ManagerObj) : ManagerObj :=
  {| listOfNodes := listOfNodes m; nodes := nodes m; players := f (players m);
     voiceStates := voiceStates m; voiceServers := voiceServers m; user := user m |}.
Definition m_voiceStates
    (f : gmap string VoiceStateUpdateData -> gmap string VoiceStateUpdateData) (m : ManagerObj) : ManagerObj :=
  {| listOfNodes := listOfNodes m; nodes := nodes m; players := players m;
     voiceStates := f (voiceStates m); voiceServers := voiceServers m; user := user m |}.
Definition m_voiceServers
    (f : gmap string VoiceServerData -> gmap string VoiceServerData) (m : ManagerObj) : ManagerObj :=
  {| listOfNodes := listOfNodes m; nodes := nodes m; players := players m;
     voiceStates := voiceStates m; voiceServers := f (voiceServers m); user := user m |}.
Definition m_user (v : option string) (m : ManagerObj) : ManagerObj :=
  {| listOfNodes := listOfNodes m; nodes := nodes m; players := players m;
     voiceStates := voiceStates m; voiceServers := voiceServers m; user := v |}.

Definition n_stats (v : Stats) (n : NodeObj) : NodeObj :=
  {| n_id := n_id n; n_host := n_host n; n_port := n_port n; n_auth := n_auth n;
     n_secure := n_secure n; n_reconnAfter := n_reconnAfter n; n_resumeKey := n_resumeKey n;
     n_resumeTout := n_resumeTout n; n_redirects := n_redirects n; stats := v;
     connected := connected n; reconn := reconn n; ws := ws n;
     packetQueue := packetQueue n; penalties := penalties n |}.
Definition n_connected (v : bool) (n : NodeObj) : NodeObj :=
  {| n_id := n_id n; n_host := n_host n; n_port := n_port n; n_auth := n_auth n;
     n_secure := n_secure n; n_reconnAfter := n_reconnAfter n; n_resumeKey := n_resumeKey n;
     n_resumeTout := n_resumeTout n; n_redirects := n_redirects n; stats := stats n;
     connected := v; reconn := reconn n; ws := ws n;
     packetQueue := packetQueue n; penalties := penalties n |}.
Definition n_reconn (v : option TimerId) (n : NodeObj) : NodeObj :=
  {| n_id := n_id n; n_host := n_host n; n_port := n_port n; n_auth := n_auth n;
     n_secure := n_secure n; n_reconnAfter := n_reconnAfter n; n_resumeKey := n_resumeKey n;
     n_resumeTout := n_resumeTout n; n_redirects := n_redirects n; stats := stats n;
     connected := connected n; reconn := v; ws := ws n;
     packetQueue := packetQueue n; penalties := penalties n |}.
Definition n_ws (v : option WsRef) (n : NodeObj) : NodeObj :=
  {| n_id := n_id n; n_host := n_host n; n_port := n_port n; n_auth := n_auth n;
     n_secure := n_secure n; n_reconnAfter := n_reconnAfter n; n_resumeKey := n_resumeKey n;
     n_resumeTout := n_resumeTout n; n_redirects := n_redirects n; stats := stats n;
     connected := connected n; reconn := reconn n; ws := v;
     packetQueue := packetQueue n; penalties := penalties n |}.
Definition n_packetQueue (v : list Payload) (n : NodeObj) : NodeObj :=
  {| n_id := n_id n; n_host := n_host n; n_port := n_port n; n_auth := n_auth n;
     n_secure := n_secure n; n_reconnAfter := n_reconnAfter n; n_resumeKey := n_resumeKey n;
     n_resumeTout := n_resumeTout n; n_redirects := n_redirects n; stats := stats n;
     connected := connected n; reconn := reconn n; ws := ws n;
     packetQueue := v; penalties := penalties n |}.
Definition n_penalties (v : option number) (n : NodeObj) : NodeObj :=
  {| n_id := n_id n; n_host := n_host n; n_port := n_port n; n_auth := n_auth n;
     n_secure := n_secure n; n_reconnAfter := n_reconnAfter n; n_resumeKey := n_resumeKey n;
     n_resumeTout := n_resumeTout n; n_redirects := n_redirects n; stats := stats n;
     connected := connected n; reconn := reconn n; ws := ws n;
     packetQueue := packetQueue n; penalties := v |}.

Definition s_sent (f : list Payload -> list Payload) (s : Socket) : Socket :=
  {| ws_url := ws_url s; ws_headers := ws_headers s;
     ws_followRedirects := ws_followRedirects s; ws_sent := f (ws_sent s); ws_closed := ws_closed s;
     ws_listening := ws_listening s |}.
Definition s_closed (v : option (Z * string)) (s : Socket) : Socket :=
  {| ws_url := ws_url s; ws_headers := ws_headers s;
     ws_followRedirects := ws_followRedirects s; ws_sent := ws_sent s; ws_closed := Some v;
     ws_listening := ws_listening s |}.
Definition s_listening (v : bool) (s : Socket) : Socket :=
  {| ws_url := ws_url s; ws_headers := ws_headers s;
     ws_followRedirects := ws_followRedirects s; ws_sent := ws_sent s; ws_closed := ws_closed s;
     ws_listening := v |}.

Definition p_voiceChannel (v : option string) (p : PlayerObj) : PlayerObj :=
  {| node := node p; guild := guild p; voiceChannel := v; textChannel := textChannel p;
     state := state p; trackRepeat := trackRepeat p; queueRepeat := queueRepeat p;
     playing := playing p; paused := paused p; timestamp := timestamp p; p_track := p_track p;
     voiceUpdateState := voiceUpdateState p; position := position p; volume := volume p;
     queue := queue p; bands := bands p |}.
Definition p_state (v : PlayerState) (p : PlayerObj) : PlayerObj :=
  {| node := node p; guild := guild p; voiceChannel := voiceChannel p; textChannel := textChannel p;
     state := v; trackRepeat := trackRepeat p; queueRepeat := queueRepeat p;
     playing := playing p; paused := paused p; timestamp := timestamp p; p_track := p_track p;
     voiceUpdateState := voiceUpdateState p; position := position p; volume := volume p;
     queue := queue p; bands := bands p |}.
Definition p_trackRepeat (v : bool) (p : PlayerObj) : PlayerObj :=
  {| node := node p; guild := guild p; voiceChannel := voiceChannel p; textChannel := textChannel p;
     state := state p; trackRepeat := v; queueRepeat := queueRepeat p;
     playing := playing p; paused := paused p; timestamp := timestamp p; p_track := p_track p;
     voiceUpdateState := voiceUpdateState p; position := position p; volume := volume p;
     queue := queue p; bands := bands p |}.
Definition p_queueRepeat (v : bool) (p : PlayerObj) : PlayerObj :=
  {| node := node p; guild := guild p; voiceChannel := voiceChannel p; textChannel := textChannel p;
     state := state p; trackRepeat := trackRepeat p; queueRepeat := v;
     playing := playing p; paused := paused p; timestamp := timestamp p; p_track := p_track p;
     voiceUpdateState := voiceUpdateState p; position := position p; volume := volume p;
     queue := queue p; bands := bands p |}.
Definition p_position (v : number) (p : PlayerObj) : PlayerObj :=
  {| node := node p; guild := guild p; voiceChannel := voiceChannel p; textChannel := textChannel p;
     state := state p; trackRepeat := trackRepeat p; queueRepeat := queueRepeat p;
     playing := playing p; paused := paused p; timestamp := timestamp p; p_track := p_track p;
     voiceUpdateState := voiceUpdateState p; position := v; volume := volume p;
     queue := queue p; bands := bands p |}.
Definition p_volume (v : number) (p : PlayerObj) : PlayerObj :=
  {| node := node p; guild := guild p; voiceChannel := voiceChannel p; textChannel := textChannel p;
     state := state p; trackRepeat := trackRepeat p; queueRepeat := queueRepeat p;
     playing := playing p; paused := paused p; timestamp := timestamp p; p_track := p_track p;
     voiceUpdateState := voiceUpdateState p; position := position p; volume := v;
     queue := queue p; bands := bands p |}.
Definition p_playing (v : bool) (p : PlayerObj) : PlayerObj :=
  {| node := node p; guild := guild p; voiceChannel := voiceChannel p; textChannel := textChannel p;
     state := state p; trackRepeat := trackRepeat p; queueRepeat := queueRepeat p;
     playing := v; paused := paused p; timestamp := timestamp p; p_track := p_track p;
     voiceUpdateState := voiceUpdateState p; position := position p; volume := volume p;
     queue := queue p; bands := bands p |}.
Definition p_paused (v : bool) (p : PlayerObj) : PlayerObj :=
  {| node := node p; guild := guild p; voiceChannel := voiceChannel p; textChannel := textChannel p;
     state := state p; trackRepeat := trackRepeat p; queueRepeat := queueRepeat p;
     playing := playing p; paused := v; timestamp := timestamp p; p_track := p_track p;
     voiceUpdateState := voiceUpdateState p; position := position p; volume := volume p;
     queue := queue p; bands := bands p |}.
Definition p_timestamp (v : Z) (p : PlayerObj) : PlayerObj :=
  {| node := node p; guild := guild p; voiceChannel := voiceChannel p; textChannel := textChannel p;
     state := state p; trackRepeat := trackRepeat p; queueRepeat := queueRepeat p;
     playing := playing p; paused := paused p; timestamp := v; p_track := p_track p;
     voiceUpdateState := voiceUpdateState p; position := position p; volume := volume p;
     queue := queue p; bands := bands p |}.
Definition p_setTrack (v : option Track) (p : PlayerObj) : PlayerObj :=
  {| node := node p; guild := guild p; voiceChannel := voiceChannel p; textChannel := textChannel p;
     state := state p; trackRepeat := trackRepeat p; queueRepeat := queueRepeat p;
     playing := playing p; paused := paused p; timestamp := timestamp p; p_track := v;
     voiceUpdateState := voiceUpdateState p; position := position p; volume := volume p;
     queue := queue p; bands := bands p |}.
Definition p_voiceUpdateState (v : option (string * VoiceServerData)) (p : PlayerObj) : PlayerObj :=
  {| node := node p; guild := guild p; voiceChannel := voiceChannel p; textChannel := textChannel p;
     state := state p; trackRepeat := trackRepeat p; queueRepeat := queueRepeat p;
     playing := playing p; paused := paused p; timestamp := timestamp p; p_track := p_track p;
     voiceUpdateState := v; position := position p; volume := volume p;
     queue := queue p; bands := bands p |}.
Definition p_queue (v : list Track) (p : PlayerObj) : PlayerObj :=
  {| node := node p; guild := guild p; voiceChannel := voiceChannel p; textChannel := textChannel p;
     state := state p; trackRepeat := trackRepeat p; queueRepeat := queueRepeat p;
     playing := playing p; paused := paused p; timestamp := timestamp p; p_track := p_track p;
     voiceUpdateState := voiceUpdateState p; position := position p; volume := volume p;
     queue := v; bands := bands p |}.
Definition p_bands (v : option (list (option number))) (p : PlayerObj) : PlayerObj :=
  {| node := node p; guild := guild p; voiceChannel := voiceChannel p; textChannel := textChannel p;
     state := state p; trackRepeat := trackRepeat p; queueRepeat := queueRepeat p;
     playing := playing p; paused := paused p; timestamp := timestamp p; p_track := p_track p;
     voiceUpdateState := voiceUpdateState p; position := position p; volume := volume p;
     queue := queue p; bands := v |}.

(** *** Reading and writing objects *)

Definition getNode (r : NodeRef) : M NodeObj := gets (fun w => nodeStore w !!! r).
Definition setNode (r : NodeRef) (f : NodeObj -> NodeObj) : M unit :=
  modify (fun w => w_nodeStore <[r := f (nodeStore w !!! r)]> w).
Definition getPlayer (r : PlayerRef) : M PlayerObj := gets (fun w => playerStore w !!! r).
Definition setPlayer (r : PlayerRef) (f : PlayerObj -> PlayerObj) : M unit :=
  modify (fun w => w_playerStore <[r := f (playerStore w !!! r)]> w).
Definition setSocket (r : WsRef) (f : Socket -> Socket) : M unit :=
  modify (fun w => w_wsStore <[r := f (wsStore w !!! r)]> w).

(** [this.manager.emit(...)] and [this.manager.transfer(...)]. *)
Definition emit (e : Notification) : M unit := modify (w_emitted (fun l => l ++ [e])).
Definition transfer (g : GatewayPayload) : M unit := modify (w_transferred (fun l => l ++ [g])).

(** [setTimeout] for the reconnect callback of a node, and [clearTimeout]. *)
Definition setTimeout (n : NodeRef) (delay : Z) : M TimerId :=
  fun w =>
    let t := nextTimer w in
    (Ret t, w_nextTimer (S t) (w_timers (fun l => l ++ [(t, (n, delay))]) w)).
Definition clearTimeout (t : TimerId) : M unit :=
  modify (w_timers (filter (fun e => fst e ≠ t))).

(** [Map.prototype.set] and [delete] on the insertion-ordered node map: a key
    that is already there keeps its place. *)
Fixpoint mapSet {A : Type} (k : string) (v : A) (l : list (string * A)) : list (string * A) :=
  match l with
  | [] => [(k, v)]
  | (k', v') :: l' => if String.eqb k' k then (k, v) :: l' else (k', v') :: mapSet k v l'
  end.
Fixpoint mapGet {A : Type} (k : string) (l : list (string * A)) : option A :=
  match l with
  | [] => None
  | (k', v') :: l' => if String.eqb k' k then Some v' else mapGet k l'
  end.
Fixpoint mapDelete {A : Type} (k : string) (l : list (string * A)) : list (string * A) :=
  match l with
  | [] => []
  | (k', v') :: l' => if String.eqb k' k then l' else (k', v') :: mapDelete k l'
  end.

(** ** Node *)

Module Node.

(** The constructor. *)
Definition new (options : NodeOptions) : M NodeRef :=
  fun w =>
    let r := nextNode w in
    let n :=
      {| n_id := id options;
         n_host := host options;
         n_port := port options;
         n_auth := Js.nullish (auth options) "";
         n_secure := Js.nullish (secure options) false;
         n_reconnAfter := Js.nullish (reconnAfter options) 5000;
         n_resumeKey := resumeKey options;
         n_resumeTout := Js.nullish (resumeTout options) 60%float;
         n_redirects := Js.nullish (redirects options) false;
         stats := zeroStats;
         connected := false;
         reconn := None;
         ws := None;
         packetQueue := [];
         penalties := None |} in
    (Ret r, w_nextNode (S r) (w_nodeStore <[r := n]> w)).

Section Penalties.

(** The two operations on doubles that [PrimFloat] does not have. *)
Variable pow : number -> number -> number.
Variable floor : number -> number.

Definition calcPenalties (this : NodeRef) : M unit :=
  n <- getNode this;;
  match cpu (stats n) with
  | None => throw (TypeError "Cannot read properties of undefined (reading 'systemLoad')")
  | Some c =>
      let cpuPenalty := (pow 1.05 (100 * systemLoad c) * 10 - 10)%float in
      let frame :=
        match frameStats (stats n) with
        | Some f =>
            let deficitFramePenalty := (pow 1.03 (500 * (deficit f / 3000)) * 600 - 600)%float in
            let nullFramePenalty := (pow 1.03 (500 * (nulled f / 3000)) * 300 - 300)%float in
            (deficitFramePenalty, (nullFramePenalty * 2)%float)
        | None => (0%float, 0%float)
        end in
      setNode this
        (n_penalties
           (Some (floor (cpuPenalty + fst frame + snd frame + playingPlayers (stats n))%float)))
  end.

End Penalties.

(** [new WebSocket(url, {headers, followRedirects})] with the four handlers
    attached. *)
Definition newSocket (url : string) (headers : list (string * option string))
    (follow : bool) : M WsRef :=
  fun w =>
    let r := nextWs w in
    let s := {| ws_url := url; ws_headers := headers; ws_followRedirects := follow;
                ws_sent := []; ws_closed := None; ws_listening := true |} in
    (Ret r, w_nextWs (S r) (w_wsStore <[r := s]> w)).

Definition connect (this : NodeRef) : M unit :=
  n <- getNode this;;
  match ws n with
  | Some s => setSocket s (s_closed None)
  | None => ret tt
  end;;
  u <- gets (fun w => user (manager w));;
  let headers :=
    [("Authorization", Some (n_auth n)); ("User-Id", u); ("Client-Name", Some "lavaudio")]
    ++ (if Js.truthyStr (n_resumeKey n) then [("Resume-Key", n_resumeKey n)] else []) in
  s <- newSocket ("ws" +:+ (if n_secure n then "s" else "") +:+ ":" +:+ n_host n
                  +:+ ":" +:+ n_port n +:+ "/") headers (n_redirects n);;
  setNode this (n_ws (Some s)).

Definition sendPacket (this : NodeRef) (payload : Payload) : M unit :=
  n <- getNode this;;
  match ws n with
  | Some s => setSocket s (s_sent (fun l => l ++ [payload]))
  | None => ret tt
  end.

(** The result is the new length of the backlog, or nothing when the packet
    went to the socket. *)
Definition send (this : NodeRef) (payload : Payload) : M (option nat) :=
  n <- getNode this;;
  if negb (connected n) then
    setNode this (n_packetQueue (packetQueue n ++ [payload]));;
    ret (Some (length (packetQueue n ++ [payload])))
  else
    sendPacket this payload;;
    ret None.

Definition open (this : NodeRef) : M unit :=
  n <- getNode this;;
  match reconn n with
  | Some t => clearTimeout t
  | None => ret tt
  end;;
  match n_resumeKey n with
  | Some key =>
      if Js.truthyStr (Some key)
      then send this (opConfigureResuming key (n_resumeTout n));; ret tt
      else ret tt
  | None => ret tt
  end;;
  emit (nodeConnect this);;
  setNode this (n_connected true).

Definition reconnect (this : NodeRef) : M unit :=
  n <- getNode this;;
  t <- setTimeout this (n_reconnAfter n);;
  setNode this (n_reconn (Some t)).

(** The callback [reconnect] gives to [setTimeout]. *)
Definition reconnectCallback (this : NodeRef) : M unit :=
  setNode this (n_connected false);;
  n <- getNode this;;
  match ws n with
  | Some s => setSocket s (s_listening false)
  | None => ret tt
  end;;
  setNode this (n_ws None);;
  emit (nodeReconnect this);;
  connect this.

Definition close (this : NodeRef) (code : Z) : M unit :=
  emit (nodeClose code this);;
  if negb (code =? 1000) then reconnect this else ret tt.

Definition error (this : NodeRef) (code : Z) : M unit :=
  emit (nodeError code this);;
  reconnect this.

Definition destroy (this : NodeRef) (reason : option string) : M unit :=
  n <- getNode this;;
  match ws n with
  | Some s => setSocket s (s_closed (Some (1000, Js.nullish reason "destroy")))
  | None => ret tt
  end;;
  setNode this (n_ws None);;
  modify (w_manager (m_nodes (mapDelete (n_host n)))).

End Node.

(** The event loop runs the callback of a pending timer and forgets the timer;
    a timer that was cleared does nothing. *)
Definition fireTimer (t : TimerId) : M unit :=
  ts <- gets timers;;
  match list_find (fun e => fst e = t) ts with
  | Some (_, (_, (n, _))) =>
      modify (w_timers (filter (fun e => fst e ≠ t)));;
      Node.reconnectCallback n
  | None => ret tt
  end.

(** ** Player *)

(** One argument of [setEQ]: an object that may have a [band], may have a
    [gain], and may have keys besides these two. *)
Record BandArg := {
  arg_band : option nat;
  arg_gain : option number;
  arg_others : list string
}.

(** The object [{ band, gain }]. *)
Definition bandObject (i : nat) (g : number) : BandArg :=
  {| arg_band := Some i; arg_gain := Some g; arg_others := [] |}.

(** [setEQ(...bands)]: the descriptors spread out, or an array of them as the
    first argument. *)
Inductive EQArgs :=
| spreadBands (bs : list BandArg)
| arrayOfBands (arr : list BandArg) (rest : list BandArg).

Module Player.

(** The constructor. *)
Definition new (n : NodeRef) (options : VoiceChannelStruct) : M PlayerRef :=
  fun w =>
    let r := nextPlayer w in
    let p :=
      {| node := n;
         guild := vc_guild options;
         voiceChannel := vc_voiceChannel options;
         textChannel := vc_textChannel options;
         state := {| ps_volume := 100%float; ps_equalizer := [] |};
         trackRepeat := false;
         queueRepeat := false;
         playing := false;
         paused := false;
         timestamp := 0;
         p_track := None;
         voiceUpdateState := None;
         position := 0%float;
         volume := 100%float;
         queue := [];
         bands := None |} in
    (Ret r, w_nextPlayer (S r) (w_playerStore <[r := p]> w)).

Definition noOptions : PlayOptions :=
  {| po_startTime := None; po_volume := None; po_noReplace := None; po_pause := None |}.

(** [None] is the [null] returned on an empty queue. *)
Definition play (this : PlayerRef) (options : PlayOptions) : M (option PlayerRef) :=
  p <- getPlayer this;;
  match queue p with
  | [] => ret None
  | sound :: _ =>
      setPlayer this (p_playing true);;
      setPlayer this (p_setTrack (Some sound));;
      t <- gets now;;
      setPlayer this (p_timestamp t);;
      Node.send (node p)
        (opPlay (guild p) (track sound)
           (Js.nullish (po_startTime options) 0%float)
           (Js.nullish (po_volume options) 100%float)
           (Js.nullish (po_noReplace options) false)
           (Js.nullish (po_pause options) false));;
      ret (Some this)
  end.

(** [amount] is an integral skip count, or absent. *)
Definition stop (this : PlayerRef) (amount : option Z) : M PlayerRef :=
  p <- getPlayer this;;
  match amount with
  | Some a =>
      if 1 <? a then
        if Z.of_nat (length (queue p)) <? a
        then throw (RangeError "Cannot skip more than the queue size")
        else if a <? 1
        then throw (RangeError "Cannot skip less than queue size")
        else setPlayer this (p_queue (drop (Z.to_nat (a - 1)) (queue p)))
      else ret tt
  | None => ret tt
  end;;
  Node.send (node p) (opStop (guild p));;
  ret this.

Definition pause (this : PlayerRef) (st : bool) : M PlayerRef :=
  p <- getPlayer this;;
  match queue p with
  | [] => ret this
  | _ :: _ =>
      setPlayer this (p_playing (negb st));;
      setPlayer this (p_paused st);;
      Node.send (node p) (opPause (guild p) st);;
      ret this
  end.

Definition seek (this : PlayerRef) (pos : number) : M PlayerRef :=
  if PrimFloat.is_nan pos then throw (RangeError "Position must be a number")
  else
    p <- getPlayer this;;
    setPlayer this (p_position pos);;
    Node.send (node p) (opSeek (guild p) pos);;
    ret this.

Definition setVolume (this : PlayerRef) (level : number) : M PlayerRef :=
  if PrimFloat.is_nan level then throw (RangeError "Volume level must be a number")
  else
    p <- getPlayer this;;
    setPlayer this (p_volume level);;
    Node.send (node p) (opVolume (guild p) level);;
    ret this.

Definition setTrackRepeat (this : PlayerRef) (mode : bool) : M PlayerRef :=
  setPlayer this (p_trackRepeat mode);; ret this.

Definition setQueueRepeat (this : PlayerRef) (mode : bool) : M PlayerRef :=
  setPlayer this (p_queueRepeat mode);; ret this.

Definition removeRepeat (this : PlayerRef) : M PlayerRef :=
  setPlayer this (p_trackRepeat false);;
  setPlayer this (p_queueRepeat false);;
  ret this.

(** [JSON.stringify(Object.keys(band).sort()) === "[\"band\",\"gain\"]"]: the
    keys are [band] and [gain] and no other. *)
Definition validBand (b : BandArg) : bool :=
  match arg_band b, arg_gain b, arg_others b with
  | Some _, Some _, [] => true
  | _, _, _ => false
  end.

(** The loop [for (const { band, gain } of bands) this.bands![band] = gain]:
    it reads [this.bands] afresh at every step and fails on [undefined]. *)
Fixpoint assignBands (this : PlayerRef) (bs : list BandArg) : M unit :=
  match bs with
  | [] => ret tt
  | b :: bs' =>
      p <- getPlayer this;;
      match bands p with
      | None => throw (TypeError "Cannot set properties of undefined")
      | Some arr =>
          match arg_band b, arg_gain b with
          | Some i, Some g => setPlayer this (p_bands (Some (Js.arraySet arr i g)))
          | _, _ => ret tt
          end;;
          assignBands this bs'
      end
  end.

(** [bands.map((gain, band) => ({ band, gain }))]; [map] skips the holes. *)
Definition bandEntries (arr : list (option number)) : list (option BandGain) :=
  imap (fun i o => match o with
                   | Some g => Some {| band := i; gain := g |}
                   | None => None
                   end) arr.

Definition setEQ (this : PlayerRef) (args : EQArgs) : M PlayerRef :=
  p <- getPlayer this;;
  if negb (playing p) then throw (Error "Nothing is playing")
  else
    let bs := match args with
              | spreadBands l => l
              | arrayOfBands arr _ => arr
              end in
    if (length bs =? 0)%nat || negb (forallb validBand bs)
    then throw (TypeError "Bands must be in an object, with band and gain property.")
    else
      assignBands this bs;;
      p' <- getPlayer this;;
      Node.send (node p') (opEqualizer (guild p') (bandEntries <$> bands p'));;
      ret this.

Definition clearEQ (this : PlayerRef) : M PlayerRef :=
  p <- getPlayer this;;
  if negb (playing p) then throw (Error "Nothing is playing")
  else
    setPlayer this (p_bands (Some (replicate 16 (Some 0%float))));;
    p' <- getPlayer this;;
    Node.send (node p') (opEqualizer (guild p') (bandEntries <$> bands p'));;
    ret this.

(** What the nine [filters] setters share: the guard and the command. *)
Definition sendFilter (this : PlayerRef) (body : Filter) : M PlayerRef :=
  p <- getPlayer this;;
  if negb (playing p) then throw (Error "Nothing is playing")
  else
    Node.send (node p) (opFilters (guild p) body);;
    ret this.

Definition setKaraoke (this : PlayerRef) (level monoLevel filterBand filterWidth : option number)
    : M PlayerRef :=
  sendFilter this
    (karaoke (Js.orNum level 1%float) (Js.orNum monoLevel 1%float)
       (Js.orNum filterBand 220%float) (Js.orNum filterWidth 100%float)).

Definition setTimeScale (this : PlayerRef) (speed pitch rate : option number) : M PlayerRef :=
  sendFilter this
    (timescale (Js.orNum speed 1%float) (Js.orNum pitch 1%float) (Js.orNum rate 1%float)).

Definition setTremolo (this : PlayerRef) (freq depth : option number) : M PlayerRef :=
  sendFilter this (tremolo (Js.orNum freq 2%float) (Js.orNum depth 0.5%float)).

Definition setVibrato (this : PlayerRef) (freq depth : option number) : M PlayerRef :=
  sendFilter this (vibrato (Js.orNum freq 2%float) (Js.orNum depth 0.5%float)).

Definition setRotation (this : PlayerRef) (rot : option number) : M PlayerRef :=
  sendFilter this (rotation (Js.orNum rot 0%float)).

Definition setDistortion (this : PlayerRef)
    (sinOffset sinScale cosOffset cosScale tanOffset tanScale offset scale : option number)
    : M PlayerRef :=
  sendFilter this
    (distortion (Js.orNum sinOffset 0%float) (Js.orNum sinScale 1%float)
       (Js.orNum cosOffset 0%float) (Js.orNum cosScale 1%float)
       (Js.orNum tanOffset 0%float) (Js.orNum tanScale 1%float)
       (Js.orNum offset 0%float) (Js.orNum scale 1%float)).

Definition setChannelMix (this : PlayerRef)
    (leftToLeft leftToRight rightToRight rightToLeft : option number) : M PlayerRef :=
  sendFilter this
    (channelMix (Js.orNum leftToLeft 1%float) (Js.orNum leftToRight 0%float)
       (Js.orNum rightToLeft 0%float) (Js.orNum rightToRight 1%float)).

Definition setLowPass (this : PlayerRef) (smooth : option number) : M PlayerRef :=
  sendFilter this (lowPass (Js.orNum smooth 20%float)).

Definition cleanFilters (this : PlayerRef) : M PlayerRef :=
  sendFilter this noFilter.

Definition connect (this : PlayerRef) (data : string * VoiceServerData) : M PlayerRef :=
  setPlayer this (p_voiceUpdateState (Some data));;
  p <- getPlayer this;;
  Node.send (node p) (opVoiceUpdate (guild p) (fst data) (snd data));;
  ret this.

Definition disconnect (this : PlayerRef) : M (option PlayerRef) :=
  p <- getPlayer this;;
  if negb (Js.truthyStr (voiceChannel p)) then ret None
  else
    (if paused p then pause this false;; ret tt else ret tt);;
    transfer {| gw_guild_id := guild p; gw_channel_id := None;
                gw_self_mute := false; gw_self_deaf := false |};;
    setPlayer this (p_voiceChannel None);;
    ret (Some this).

Definition destroy (this : PlayerRef) : M unit :=
  disconnect this;;
  p <- getPlayer this;;
  Node.send (node p) (opDestroy (guild p));;
  emit (playerDestroy this);;
  modify (w_manager (m_players (delete (guild p)))).

(** [this.queue.shift()]. *)
Definition shift (this : PlayerRef) : M unit :=
  setPlayer this (fun p => p_queue (tail (queue p)) p).

(** The five [return]s of the [TrackEndEvent] case leave the method, so only
    the last path reaches the [trackEnd] notification. *)
Definition lavalinkEvent (this : PlayerRef) (data : LavalinkOptions) : M unit :=
  p <- getPlayer this;;
  if String.eqb (lo_type data) "TrackStartEvent" then
    emit (trackStart this (p_track p))
  else if String.eqb (lo_type data) "TrackEndEvent" then
    if trackRepeat p then
      play this noOptions;; ret tt
    else if queueRepeat p && (length (queue p) <=? 1)%nat
            && String.eqb (lo_reason data) "FINISHED" then
      play this noOptions;; ret tt
    else if (length (queue p) <=? 1)%nat && String.eqb (lo_reason data) "FINISHED" then
      emit (queueEnd this (p_track p));;
      setPlayer this (p_queue []);;
      stop this None;;
      setPlayer this (p_playing false);;
      setPlayer this (p_paused false)
    else if (2 <=? length (queue p))%nat && String.eqb (lo_reason data) "STOPPED" then
      shift this;;
      play this noOptions;; ret tt
    else if (length (queue p) <=? 1)%nat && String.eqb (lo_reason data) "STOPPED" then
      setPlayer this (p_queue []);;
      stop this None;;
      setPlayer this (p_playing false);;
      setPlayer this (p_paused false)
    else
      (if (2 <=? length (queue p))%nat
       then shift this;; play this noOptions;; ret tt
       else ret tt);;
      p' <- getPlayer this;;
      emit (trackEnd this (p_track p'))
  else if String.eqb (lo_type data) "TrackStuckEvent" then
    shift this;;
    emit (trackStuck this (p_track p) data)
  else if String.eqb (lo_type data) "TrackExceptionEvent" then
    shift this;;
    emit (trackException this (p_track p) data)
  else if String.eqb (lo_type data) "WebSocketClosedEvent" then
    (if (lo_code data =? 4015) || (lo_code data =? 4009)
     then transfer {| gw_guild_id := lo_guildId data; gw_channel_id := voiceChannel p;
                      gw_self_mute := false; gw_self_deaf := false |}
     else ret tt);;
    emit (socketClosed this data)
  else
    throw (Error ("An unknown event was passed, event: " +:+ lo_type data)).

End Player.

(** [Node.message], after [JSON.parse]: it needs the player's handlers.
    [player.emit(packet.op, packet)] runs the listeners of the player for
    that [op]: the constructor has set one for ["event"] and one for
    ["playerUpdate"], and the host is taken to add none.  For ["error"] there
    is none, and [emit] throws; for any other [op] nothing happens. *)
Section Message.

Variable pow : number -> number -> number.
Variable floor : number -> number.

Definition message (this : NodeRef) (packet : Packet) : M unit :=
  match packet with
  | statsPacket s =>
      setNode this (n_stats s);;
      Node.calcPenalties pow floor this
  | _ => ret tt
  end;;
  ps <- gets (fun w => players (manager w));;
  match packet with
  | eventPacket data =>
      match ps !! lo_guildId data with
      | Some player =>
          if Js.truthyStr (Some (lo_guildId data))
          then Player.lavalinkEvent player data
          else ret tt
      | None => ret tt
      end
  | playerUpdatePacket g vol eq =>
      match ps !! g with
      | Some player =>
          if Js.truthyStr (Some g)
          then setPlayer player
                 (fun p => p_state {| ps_volume := Js.nullish vol (ps_volume (state p));
                                      ps_equalizer := Js.nullish eq (ps_equalizer (state p)) |} p)
          else ret tt
      | None => ret tt
      end
  | otherPacket op g =>
      match g with
      | Some g' =>
          match ps !! g' with
          | Some player =>
              if Js.truthyStr (Some g')
              then if String.eqb op "error" then throw UnhandledError else ret tt
              else ret tt
          | None => ret tt
          end
      | None => ret tt
      end
  | statsPacket _ => ret tt
  end;;
  emit (raw this packet).

End Message.

(** ** Manager *)

Module Manager.

Definition buildNode (options : NodeOptions) : M NodeRef :=
  n <- Node.new options;;
  if Js.truthyStr (id options) then
    modify (w_manager (m_nodes (mapSet (Js.nullish (id options) "") n)));;
    Node.connect n;;
    ret n
  else
    modify (w_manager (m_nodes (mapSet (host options) n)));;
    Node.connect n;;
    ret n.

Fixpoint buildNodes (l : list NodeOptions) : M unit :=
  match l with
  | [] => ret tt
  | o :: l' => buildNode o;; buildNodes l'
  end.

Definition start (botID : option string) : M unit :=
  if negb (Js.truthyStr botID)
  then throw (Error "BotID is missing, provide it to start function")
  else
    modify (w_manager (m_user botID));;
    l <- gets (fun w => listOfNodes (manager w));;
    buildNodes l.

(** The key of the comparator: [systemLoad / cores * 100] when the snapshot
    has a [cpu] entry, [0] otherwise. *)
Definition load (n : NodeObj) : number :=
  match cpu (stats n) with
  | Some c => (systemLoad c / cores c * 100)%float
  | None => 0%float
  end.

(** The getter; the list is built from the node map at every call. *)
Definition leastUsedNodes (w : World) : list NodeRef :=
  Js.sort
    (fun a b => (load (nodeStore w !!! a) - load (nodeStore w !!! b))%float)
    (List.filter (fun r => connected (nodeStore w !!! r)) (map snd (nodes (manager w)))).

(** The two results of [spawnPlayer] and [create]: a player, or the node that
    happens to be registered under the guild's id. *)
Inductive Spawned :=
| spawnedPlayer (p : PlayerRef)
| spawnedNode (n : NodeRef).

Definition spawnPlayer (data : VoiceChannelStruct) : M Spawned :=
  w <- gets (fun w => w);;
  match mapGet (vc_guild data) (nodes (manager w)) with
  | Some n => ret (spawnedNode n)
  | None =>
      match leastUsedNodes w with
      | [] => throw (Error "No nodes are connected")
      | least :: _ =>
          let key := if Js.truthyStr (n_id (nodeStore w !!! least))
                     then Js.nullish (n_id (nodeStore w !!! least)) ""
                     else n_host (nodeStore w !!! least) in
          match mapGet key (nodes (manager w)) with
          | None => throw (Error "No nodes are connected")
          | Some n =>
              p <- Player.new n data;;
              modify (w_manager (m_players <[vc_guild data := p]>));;
              ret (spawnedPlayer p)
          end
      end
  end.

Definition create (data : VoiceChannelStruct) : M Spawned :=
  ps <- gets (fun w => players (manager w));;
  match ps !! vc_guild data with
  | Some p => ret (spawnedPlayer p)
  | None =>
      transfer {| gw_guild_id := vc_guild data; gw_channel_id := vc_voiceChannel data;
                  gw_self_mute := Js.nullish (selfMute data) false;
                  gw_self_deaf := Js.nullish (selfDeaf data) false |};;
      spawnPlayer data
  end.

(** The session id comes from the stored voice state when there is one, and
    from the player's last [voiceUpdateState] otherwise; reading that one
    when it is [undefined] is a [TypeError]. *)
Definition connectionProcess (guildId : string) : M bool :=
  m <- gets manager;;
  match voiceServers m !! guildId with
  | None => ret false
  | Some server =>
      match players m !! guildId with
      | None => ret false
      | Some player =>
          p <- getPlayer player;;
          match voiceStates m !! guildId with
          | Some st =>
              Player.connect player (session_id st, server);;
              ret true
          | None =>
              match voiceUpdateState p with
              | Some v =>
                  Player.connect player (fst v, server);;
                  ret true
              | None =>
                  throw (TypeError "Cannot read properties of undefined (reading 'sessionId')")
              end
          end
      end
  end.

Definition voiceServersUpdate (data : VoiceServerData) : M bool :=
  modify (w_manager (m_voiceServers <[vsrv_guild_id data := data]>));;
  connectionProcess (vsrv_guild_id data).

(** [None] is the [undefined] of the two paths that return nothing. *)
Definition voiceStateUpdate (data : VoiceStateUpdateData) : M (option bool) :=
  u <- gets (fun w => user (manager w));;
  if negb (bool_decide (Some (user_id data) = u)) then ret None
  else if Js.truthyStr (channel_id data) then
    modify (w_manager (m_voiceStates <[guild_id data := data]>));;
    b <- connectionProcess (guild_id data);;
    ret (Some b)
  else
    modify (w_manager (m_voiceServers (delete (guild_id data))));;
    modify (w_manager (m_voiceStates (delete (guild_id data))));;
    ret None.

Definition get (guildId : string) : M (option PlayerRef) :=
  gets (fun w => players (manager w) !! guildId).

End Manager.

(** ** Initial state *)

(** The world right after [new Manager(client, nodes, { transfer })]. *)
Definition initial (configured : list NodeOptions) : World :=
  {| nodeStore := ∅; nextNode := 0%nat;
     playerStore := ∅; nextPlayer := 0%nat;
     wsStore := ∅; nextWs := 0%nat;
     timers := []; nextTimer := 0%nat; now := 0;
     manager := {| listOfNodes := configured; nodes := []; players := ∅;
                   voiceStates := ∅; voiceServers := ∅; user := None |};
     emitted := []; transferred := [] |}.

(** Running a method for its effect or for its result. *)
Definition exec {A : Type} (m : M A) (w : World) : World := snd (m w).
Definition result {A : Type} (m : M A) (w : World) : outcome A := fst (m w).

(** ** What the properties are stated with *)

(** [send] called once for each payload of a list, in order. *)
Fixpoint sendAll (this : NodeRef) (ps : list Payload) : M (list (option nat)) :=
  match ps with
  | [] => ret []
  | p :: ps' =>
      r <- Node.send this p;;
      rs <- sendAll this ps';;
      ret (r :: rs)
  end.

(** The end of a track: the decision table and the effect of its actions. *)
Module EndOfTrack.

Inductive Reason := FINISHED | STOPPED | otherReason.

Definition reasonOf (s : string) : Reason :=
  if String.eqb s "FINISHED" then FINISHED
  else if String.eqb s "STOPPED" then STOPPED
  else otherReason.

Inductive Action :=
| replay
| dropHeadPlayNext
| clearAndStop (announceQueueEnd : bool)
| noAction.

Record Decision := { action : Action; emitsTrackEnd : bool }.

(** The table of section 4.3 of the specification, row by row: the repeat rows
    belong to [FINISHED], and the [trackEnd] notification follows every row. *)
Definition specTable (r : Reason) (len : nat) (trackRep queueRep : bool) : Decision :=
  {| action :=
       match r with
       | FINISHED =>
           if trackRep then replay
           else if queueRep && (len <=? 1)%nat then replay
           else if (len <=? 1)%nat then clearAndStop true
           else dropHeadPlayNext
       | STOPPED =>
           if (2 <=? len)%nat then dropHeadPlayNext else clearAndStop false
       | otherReason =>
           if (2 <=? len)%nat then dropHeadPlayNext else noAction
       end;
     emitsTrackEnd := true |}.

(** The table the handler follows: track repeat comes before the reason, and
    the [trackEnd] notification belongs to the last rows only. *)
Definition handlerTable (r : Reason) (len : nat) (trackRep queueRep : bool) : Decision :=
  if trackRep then {| action := replay; emitsTrackEnd := false |}
  else
    match r with
    | FINISHED =>
        if (len <=? 1)%nat
        then {| action := if queueRep then replay else clearAndStop true;
                emitsTrackEnd := false |}
        else {| action := dropHeadPlayNext; emitsTrackEnd := true |}
    | STOPPED =>
        {| action := if (2 <=? len)%nat then dropHeadPlayNext else clearAndStop false;
           emitsTrackEnd := false |}
    | otherReason =>
        {| action := if (2 <=? len)%nat then dropHeadPlayNext else noAction;
           emitsTrackEnd := true |}
    end.

(** The player starts on the head of its queue: flags, current track and
    start time are set and a default [play] command goes to its node.  With an
    empty queue nothing happens. *)
Definition startOnHead (this : PlayerRef) (w : World) : World :=
  let p := playerStore w !!! this in
  match queue p with
  | [] => w
  | t :: _ =>
      exec (Node.send (node p) (opPlay (guild p) (track t) 0%float 100%float false false))
        (w_playerStore
           <[this := p_timestamp (now w) (p_setTrack (Some t) (p_playing true p))]> w)
  end.

(** The head of the queue is dropped. *)
Definition dropHead (this : PlayerRef) (w : World) : World :=
  let p := playerStore w !!! this in
  w_playerStore <[this := p_queue (tail (queue p)) p]> w.

(** The queue is emptied, a [stop] command goes to the node, and the playing
    and paused flags are cleared. *)
Definition stopAll (this : PlayerRef) (w : World) : World :=
  let p := playerStore w !!! this in
  w_playerStore <[this := p_paused false (p_playing false (p_queue [] p))]>
    (exec (Node.send (node p) (opStop (guild p))) w).

Definition perform (d : Decision) (this : PlayerRef) (w : World) : World :=
  let p := playerStore w !!! this in
  let w1 :=
    match action d with
    | replay => startOnHead this w
    | dropHeadPlayNext => startOnHead this (dropHead this w)
    | clearAndStop announce =>
        stopAll this
          (if announce then w_emitted (fun l => l ++ [queueEnd this (p_track p)]) w else w)
    | noAction => w
    end in
  if emitsTrackEnd d
  then w_emitted (fun l => l ++ [trackEnd this (p_track (playerStore w1 !!! this))]) w1
  else w1.

End EndOfTrack.

(** A call of one of the filter setters. *)
Inductive FilterCall :=
| callSetEQ (args : EQArgs)
| callClearEQ
| callSetKaraoke (level monoLevel filterBand filterWidth : option number)
| callSetTimeScale (speed pitch rate : option number)
| callSetTremolo (freq depth : option number)
| callSetVibrato (freq depth : option number)
| callSetRotation (rot : option number)
| callSetDistortion
    (sinOffset sinScale cosOffset cosScale tanOffset tanScale offset scale : option number)
| callSetChannelMix (leftToLeft leftToRight rightToRight rightToLeft : option number)
| callSetLowPass (smooth : option number)
| callCleanFilters.

Definition callFilter (this : PlayerRef) (c : FilterCall) : M PlayerRef :=
  match c with
  | callSetEQ args => Player.setEQ this args
  | callClearEQ => Player.clearEQ this
  | callSetKaraoke a b c d => Player.setKaraoke this a b c d
  | callSetTimeScale a b c => Player.setTimeScale this a b c
  | callSetTremolo a b => Player.setTremolo this a b
  | callSetVibrato a b => Player.setVibrato this a b
  | callSetRotation a => Player.setRotation this a
  | callSetDistortion a b c d e f g h => Player.setDistortion this a b c d e f g h
  | callSetChannelMix a b c d => Player.setChannelMix this a b c d
  | callSetLowPass a => Player.setLowPass this a
  | callCleanFilters => Player.cleanFilters this
  end.

(** The command is the one of the setter, for the guild: [equalizer] with
    bands for the equalizer setters, [filters] with the setter's own
    sub-object (and none for [cleanFilters]) for the others. *)
Definition commandOf (g : string) (c : FilterCall) (cmd : Payload) : bool :=
  match c, cmd with
  | callSetEQ _, opEqualizer g' (Some _) => String.eqb g' g
  | callClearEQ, opEqualizer g' (Some _) => String.eqb g' g
  | callSetKaraoke _ _ _ _, opFilters g' (karaoke _ _ _ _) => String.eqb g' g
  | callSetTimeScale _ _ _, opFilters g' (timescale _ _ _) => String.eqb g' g
  | callSetTremolo _ _, opFilters g' (tremolo _ _) => String.eqb g' g
  | callSetVibrato _ _, opFilters g' (vibrato _ _) => String.eqb g' g
  | callSetRotation _, opFilters g' (rotation _) => String.eqb g' g
  | callSetDistortion _ _ _ _ _ _ _ _, opFilters g' (distortion _ _ _ _ _ _ _ _) =>
      String.eqb g' g
  | callSetChannelMix _ _ _ _, opFilters g' (channelMix _ _ _ _) => String.eqb g' g
  | callSetLowPass _, opFilters g' (lowPass _) => String.eqb g' g
  | callCleanFilters, opFilters g' noFilter => String.eqb g' g
  | _, _ => false
  end.

Definition isSetEQ (c : FilterCall) : bool :=
  match c with callSetEQ _ => true | _ => false end.

(** The descriptors [setEQ] works on, and whether it accepts them. *)
Definition bandsOf (args : EQArgs) : list BandArg :=
  match args with
  | spreadBands l => l
  | arrayOfBands arr _ => arr
  end.
Definition validArgs (args : EQArgs) : bool :=
  negb ((length (bandsOf args) =? 0)%nat || negb (forallb Player.validBand (bandsOf args))).

(** The gains after the assignments of [setEQ], one descriptor after the
    other. *)
Definition applyBands (arr : list (option number)) (bs : list BandArg) : list (option number) :=
  foldl (fun a b => match arg_band b, arg_gain b with
                    | Some i, Some g => Js.arraySet a i g
                    | _, _ => a
                    end) arr bs.

(** The session id [connectionProcess] has for a player: the one of the
    stored voice state, or else the one the player was last connected with. *)
Definition sessionIdFor (w : World) (guildId : string) (player : PlayerRef) : option string :=
  match voiceStates (manager w) !! guildId with
  | Some st => Some (session_id st)
  | None => fst <$> voiceUpdateState (playerStore w !!! player)
  end.

(** What [open] sends to configure resuming: nothing without a resume key. *)
Definition resumeConfig (n : NodeObj) : list Payload :=
  match n_resumeKey n with
  | Some key =>
      if Js.truthyStr (Some key) then [opConfigureResuming key (n_resumeTout n)] else []
  | None => []
  end.

(** What the current socket of a node was given. *)
Definition transmitted (w : World) (n : NodeRef) : list Payload :=
  match ws (nodeStore w !!! n) with
  | Some s => ws_sent (wsStore w !!! s)
  | None => []
  end.

(** Concrete runs of the library, as a host would drive it. *)
Module Scenario.

Definition optionsA : NodeOptions :=
  {| id := Some "A"; host := "a.example"; port := "2333"; auth := Some "secret";
     secure := None; reconnAfter := None; resumeKey := None; resumeTout := None;
     redirects := None |}.

Definition optionsB : NodeOptions :=
  {| id := Some "B"; host := "b.example"; port := "2333"; auth := Some "secret";
     secure := None; reconnAfter := None; resumeKey := None; resumeTout := None;
     redirects := None |}.

Definition bot : string := "1001".

Definition room : VoiceChannelStruct :=
  {| vc_guild := "guild-1"; vc_textChannel := Some "text-1";
     vc_voiceChannel := Some "voice-1"; selfMute := None; selfDeaf := None |}.

Definition song (n : string) : Track :=
  {| uri := "https://example.org/" +:+ n; title := n; author := "someone";
     identifier := n; isStream := false; isSeekable := true; track := "QAAA" +:+ n |}.

Definition t1 : Track := song "one".
Definition t2 : Track := song "two".
Definition t3 : Track := song "three".

(** [player.queue.push(track)], as the host does it. *)
Definition push (this : PlayerRef) (t : Track) : M unit :=
  setPlayer this (fun p => p_queue (queue p ++ [t]) p).

(** The manager is started with node A alone; its socket is not open yet. *)
Definition started : World := exec (Manager.start (Some bot)) (initial [optionsA]).

(** The socket of node A has opened. *)
Definition online : World := exec (Node.open 0) started.

(** A player for the room, on node A. *)
Definition withPlayer : World := exec (Manager.create room) online.

(** Two tracks are queued and the first one plays. *)
Definition twoQueued : World :=
  exec (push 0 t1;; push 0 t2;; Player.play 0 Player.noOptions) withPlayer.

(** Three tracks are queued and the first one plays. *)
Definition threeQueued : World :=
  exec (push 0 t1;; push 0 t2;; push 0 t3;; Player.play 0 Player.noOptions) withPlayer.

Definition stoppedEvent : LavalinkOptions :=
  {| lo_type := "TrackEndEvent"; lo_reason := "STOPPED"; lo_code := 0;
     lo_guildId := "guild-1" |}.

Definition join (session : string) : VoiceStateUpdateData :=
  {| user_id := bot; channel_id := Some "voice-1"; guild_id := "guild-1";
     session_id := session |}.

Definition leave : VoiceStateUpdateData :=
  {| user_id := bot; channel_id := None; guild_id := "guild-1"; session_id := "s1" |}.

Definition server (token : string) : VoiceServerData :=
  {| vsrv_guild_id := "guild-1"; vsrv_token := token; vsrv_endpoint := "eu.example" |}.

(** The bot joined the room's channel, the voice link was made, and the bot
    left the channel again. *)
Definition leftChannel : World :=
  exec (Manager.voiceStateUpdate (join "s1");;
        Manager.voiceServersUpdate (server "first");;
        Manager.voiceStateUpdate leave) withPlayer.

(** Two nodes are up; A has reported half a core of load on one core, B has
    not reported anything yet. *)
Definition halfLoaded : Stats :=
  {| st_players := 1%float; playingPlayers := 1%float; uptime := 60000%float;
     memory := {| free := 1%float; used := 1%float; allocated := 1%float;
                  reservable := 1%float |};
     cpu := Some {| cores := 1%float; systemLoad := 0.5%float; lavalinkLoad := 0.1%float |};
     frameStats := None |}.

Definition loaded (load : number) : Stats :=
  {| st_players := 1%float; playingPlayers := 1%float; uptime := 60000%float;
     memory := {| free := 1%float; used := 1%float; allocated := 1%float;
                  reservable := 1%float |};
     cpu := Some {| cores := 2%float; systemLoad := load; lavalinkLoad := 0.1%float |};
     frameStats := None |}.

Definition optionsC : NodeOptions :=
  {| id := None; host := "c.example"; port := "2333"; auth := None;
     secure := None; reconnAfter := None; resumeKey := None; resumeTout := None;
     redirects := None |}.

(** Three nodes are up and have all reported their load: A the highest, B and
    C the same. *)
Definition threeNodes (pow : number -> number -> number) (floor : number -> number) : World :=
  exec (Manager.start (Some bot);;
        Node.open 0;; Node.open 1;; Node.open 2;;
        message pow floor 0 (statsPacket (loaded 0.75%float));;
        message pow floor 1 (statsPacket (loaded 0.25%float));;
        message pow floor 2 (statsPacket (loaded 0.25%float)))
       (initial [optionsA; optionsB; optionsC]).

Definition twoNodes (pow : number -> number -> number) (floor : number -> number) : World :=
  exec (Manager.start (Some bot);;
        Node.open 0;;
        Node.open 1;;
        message pow floor 0 (statsPacket halfLoaded))
       (initial [optionsA; optionsB]).

End Scenario.

(** The key [buildNode] registers a node under: its id, or its host when it
    has no id. *)
Definition nodeKey (o : NodeOptions) : string :=
  if Js.truthyStr (id o) then Js.nullish (id o) "" else host o.

(** The key [spawnPlayer] looks a node up under: [id || host]. *)
Definition registeredKey (n : NodeObj) : string :=
  if Js.truthyStr (n_id n) then Js.nullish (n_id n) "" else n_host n.

(** The request to join a voice channel that [create] hands to the host. *)
Definition joinRequest (data : VoiceChannelStruct) : GatewayPayload :=
  {| gw_guild_id := vc_guild data; gw_channel_id := vc_voiceChannel data;
     gw_self_mute := Js.nullish (selfMute data) false;
     gw_self_deaf := Js.nullish (selfDeaf data) false |}.

(** The request to leave the voice channel of a guild. *)
Definition leaveRequest (g : string) : GatewayPayload :=
  {| gw_guild_id := g; gw_channel_id := None; gw_self_mute := false; gw_self_deaf := false |}.

(** The socket [connect] opens for a node, for the user id of the manager. *)
Definition socketOf (u : option string) (n : NodeObj) : Socket :=
  {| ws_url := "ws" +:+ (if n_secure n then "s" else "") +:+ ":" +:+ n_host n
               +:+ ":" +:+ n_port n +:+ "/";
     ws_headers :=
       [("Authorization", Some (n_auth n)); ("User-Id", u); ("Client-Name", Some "lavaudio")]
       ++ (if Js.truthyStr (n_resumeKey n) then [("Resume-Key", n_resumeKey n)] else []);
     ws_followRedirects := n_redirects n;
     ws_sent := []; ws_closed := None; ws_listening := true |}.

(** The five event types the player knows. *)
Definition knownEvent (t : string) : bool :=
  String.eqb t "TrackStartEvent" || String.eqb t "TrackEndEvent"
  || String.eqb t "TrackStuckEvent" || String.eqb t "TrackExceptionEvent"
  || String.eqb t "WebSocketClosedEvent".

(** [x || d] in the words of the language: the default is taken when the
    argument is missing, zero or [NaN]. *)
Definition defaulted (x : option number) (d : number) : number :=
  match x with
  | None => d
  | Some v => if PrimFloat.is_zero v || PrimFloat.is_nan v then d else v
  end.

(** The sixteen bands with gain zero. *)
Definition flatBands : list (option BandGain) :=
  map (fun i => Some {| band := i; gain := 0%float |}) (seq 0 16).

(** The command each setter but [setEQ] is to send for the guild: its own
    sub-object with the given values, or the setter's defaults in their
    place. *)
Definition filterCommand (g : string) (c : FilterCall) : option Payload :=
  match c with
  | callSetEQ _ => None
  | callClearEQ => Some (opEqualizer g (Some flatBands))
  | callSetKaraoke level monoLevel filterBand filterWidth =>
      Some (opFilters g (karaoke (defaulted level 1) (defaulted monoLevel 1)
                           (defaulted filterBand 220) (defaulted filterWidth 100)))
  | callSetTimeScale speed pitch rate =>
      Some (opFilters g (timescale (defaulted speed 1) (defaulted pitch 1) (defaulted rate 1)))
  | callSetTremolo freq depth =>
      Some (opFilters g (tremolo (defaulted freq 2) (defaulted depth 0.5)))
  | callSetVibrato freq depth =>
      Some (opFilters g (vibrato (defaulted freq 2) (defaulted depth 0.5)))
  | callSetRotation rot => Some (opFilters g (rotation (defaulted rot 0)))
  | callSetDistortion sinOffset sinScale cosOffset cosScale tanOffset tanScale offset scale =>
      Some (opFilters g (distortion (defaulted sinOffset 0) (defaulted sinScale 1)
                           (defaulted cosOffset 0) (defaulted cosScale 1)
                           (defaulted tanOffset 0) (defaulted tanScale 1)
                           (defaulted offset 0) (defaulted scale 1)))
  | callSetChannelMix leftToLeft leftToRight rightToRight rightToLeft =>
      Some (opFilters g (channelMix (defaulted leftToLeft 1) (defaulted leftToRight 0)
                           (defaulted rightToLeft 0) (defaulted rightToRight 1)))
  | callSetLowPass smooth => Some (opFilters g (lowPass (defaulted smooth 20)))
  | callCleanFilters => Some (opFilters g noFilter)
  end%float.

(** The gain the descriptors give band [i]: the one of the last descriptor
    for that band, if there is any. *)
Fixpoint lastGain (bs : list BandArg) (i : nat) : option number :=
  match bs with
  | [] => None
  | b :: bs' =>
      match lastGain bs' i with
      | Some g => Some g
      | None =>
          match arg_band b, arg_gain b with
          | Some j, Some g => if (j =? i)%nat then Some g else None
          | _, _ => None
          end
      end
  end.

(** One past the highest band the descriptors name. *)
Fixpoint bandExtent (bs : list BandArg) : nat :=
  match bs with
  | [] => 0
  | b :: bs' =>
      match arg_band b, arg_gain b with
      | Some j, Some _ => Nat.max (S j) (bandExtent bs')
      | _, _ => bandExtent bs'
      end
  end.



(** * Properties *)

Import EndOfTrack.

(** ** Sending *)

Ltac unfold_monad :=
  unfold bind, getPlayer, getNode, gets, setPlayer, setNode, setSocket, emit, transfer,
    modify, ret, throw, exec, result in *.

Ltac store_norm :=
  repeat first
    [ rewrite lookup_total_insert_eq
    | rewrite insert_insert_eq
    | progress cbn [nodeStore playerStore wsStore manager emitted transferred timers nextTimer
                    now nextNode nextPlayer nextWs
                    w_nodeStore w_playerStore w_wsStore w_manager w_emitted w_transferred
                    w_timers w_nextTimer w_nextNode w_nextPlayer w_nextWs fst snd] ].

Ltac world_norm :=
  unfold w_nodeStore, w_playerStore, w_wsStore, w_manager, w_emitted,
    w_transferred, w_timers, w_nextTimer, w_nextNode, w_nextPlayer, w_nextWs;
  cbn [nodeStore playerStore wsStore manager emitted transferred timers nextTimer
       now nextNode nextPlayer nextWs fst snd];
  rewrite ?lookup_total_insert_eq, ?insert_insert_eq.

Lemma send_unfold this pl w :
  Node.send this pl w =
  let n := nodeStore w !!! this in
  if connected n then
    match ws n with
    | Some s => (Ret None, w_wsStore <[s := s_sent (fun l => l ++ [pl]) (wsStore w !!! s)]> w)
    | None => (Ret None, w)
    end
  else (Ret (Some (length (packetQueue n ++ [pl]))),
        w_nodeStore <[this := n_packetQueue (packetQueue n ++ [pl]) n]> w).
Proof.
  unfold Node.send, Node.sendPacket. unfold_monad. cbn.
  destruct (connected (nodeStore w !!! this)); cbn;
    [destruct (ws (nodeStore w !!! this)) |]; reflexivity.
Qed.

Ltac send_cases :=
  unfold exec; rewrite ?send_unfold; cbv zeta; world_norm;
  repeat match goal with
  | |- context [connected ?n] => destruct (connected n) eqn:?
  | |- context [match ws ?n with _ => _ end] => destruct (ws n) eqn:?
  end;
  world_norm; world_norm; try reflexivity.

(** [send] never throws. *)
Lemma send_returns this pl w : exists r, Node.send this pl w = (Ret r, exec (Node.send this pl) w).
Proof.
  unfold exec. rewrite send_unfold. cbn.
  destruct (connected _); [destruct (ws _) |]; eauto.
Qed.

(** [send] touches the node store and the socket store only. *)
Lemma send_frame this pl w :
  let w' := exec (Node.send this pl) w in
  playerStore w' = playerStore w /\ manager w' = manager w /\ emitted w' = emitted w /\
  transferred w' = transferred w /\ timers w' = timers w /\ now w' = now w.
Proof.
  unfold exec. rewrite send_unfold. cbn.
  destruct (connected _); [destruct (ws _) |]; cbn; repeat split; reflexivity.
Qed.

Lemma send_disconnected this pl w :
  connected (nodeStore w !!! this) = false ->
  Node.send this pl w =
    (Ret (Some (S (length (packetQueue (nodeStore w !!! this))))),
     w_nodeStore
       <[this := n_packetQueue (packetQueue (nodeStore w !!! this) ++ [pl])
                   (nodeStore w !!! this)]> w).
Proof.
  intros H. rewrite send_unfold. cbn. rewrite H.
  rewrite length_app. cbn. rewrite Nat.add_1_r. reflexivity.
Qed.

Lemma n_packetQueue_same (n : NodeObj) : n_packetQueue (packetQueue n) n = n.
Proof. destruct n; reflexivity. Qed.

Lemma n_packetQueue_twice a b (n : NodeObj) :
  n_packetQueue a (n_packetQueue b n) = n_packetQueue a n.
Proof. reflexivity. Qed.

Lemma sendAll_disconnected this ps : forall w,
  connected (nodeStore w !!! this) = false ->
  let n := nodeStore w !!! this in
  let w' := exec (sendAll this ps) w in
  result (sendAll this ps) w
    = Ret (map Some (seq (S (length (packetQueue n))) (length ps))) /\
  nodeStore w' !!! this = n_packetQueue (packetQueue n ++ ps) n /\
  wsStore w' = wsStore w /\ timers w' = timers w /\ emitted w' = emitted w.
Proof.
  induction ps as [|pl ps IH]; intros w Hc n w'.
  - subst w'. cbn. rewrite app_nil_r, n_packetQueue_same. repeat split; reflexivity.
  - set (w1 := w_nodeStore <[this := n_packetQueue (packetQueue n ++ [pl]) n]> w).
    assert (E : sendAll this (pl :: ps) w =
                (match result (sendAll this ps) w1 with
                 | Ret rs => Ret (Some (S (length (packetQueue n))) :: rs)
                 | Throw e => Throw e
                 end, exec (sendAll this ps) w1)).
    { cbn [sendAll]. unfold bind, result, exec.
      rewrite (send_disconnected _ _ _ Hc). fold n w1.
      destruct (sendAll this ps w1) as [[rs|e] w2]; reflexivity. }
    assert (Hn1 : nodeStore w1 !!! this = n_packetQueue (packetQueue n ++ [pl]) n).
    { subst w1. cbn. apply lookup_total_insert_eq. }
    assert (Hc1 : connected (nodeStore w1 !!! this) = false).
    { rewrite Hn1. exact Hc. }
    destruct (IH w1 Hc1) as (Hr & Hq & Hws & Ht & He).
    subst w'. unfold result, exec in *. rewrite E. cbn [fst snd].
    rewrite Hr, Hq, Hws, Ht, He, Hn1, n_packetQueue_twice.
    cbn [packetQueue n_packetQueue]. rewrite length_app, <- app_assoc.
    cbn [length app seq map]. rewrite Nat.add_1_r.
    repeat split; reflexivity.
Qed.

Lemma open_disconnected this w :
  connected (nodeStore w !!! this) = false ->
  let n := nodeStore w !!! this in
  let w' := exec (Node.open this) w in
  result (Node.open this) w = Ret tt /\
  nodeStore w' !!! this = n_connected true (n_packetQueue (packetQueue n ++ resumeConfig n) n) /\
  wsStore w' = wsStore w /\
  emitted w' = emitted w ++ [nodeConnect this].
Proof.
  intros Hc n w'. subst w'. unfold Node.open, clearTimeout, resumeConfig.
  unfold_monad. cbn beta. fold n.
  destruct (reconn n) as [t|]; destruct (n_resumeKey n) as [key|]; cbn [Js.truthyStr];
    try destruct (negb (String.eqb key "")).
  all: rewrite ?send_disconnected by (cbn; exact Hc).
  all: store_norm; cbn beta iota; fold n; rewrite ?app_nil_r, ?n_packetQueue_same.
  all: repeat split; reflexivity.
Qed.

(** C3, as amended: payloads sent while the node is not connected are all
    appended to the backlog in order, each [send] returning the new length of
    the backlog, and no socket is given anything.  When the [open] handler then
    runs, the node becomes connected, but the backlog is not transmitted: it
    stays as it was (with the resume configuration appended when there is a
    resume key) and the sockets have still been given nothing. *)
Theorem backlog_kept_on_open this ps w :
  connected (nodeStore w !!! this) = false ->
  let n := nodeStore w !!! this in
  let w1 := exec (sendAll this ps) w in
  let w2 := exec (Node.open this) w1 in
  result (sendAll this ps) w
    = Ret (map Some (seq (S (length (packetQueue n))) (length ps))) /\
  packetQueue (nodeStore w1 !!! this) = packetQueue n ++ ps /\
  wsStore w1 = wsStore w /\
  result (Node.open this) w1 = Ret tt /\
  connected (nodeStore w2 !!! this) = true /\
  packetQueue (nodeStore w2 !!! this) = packetQueue n ++ ps ++ resumeConfig n /\
  wsStore w2 = wsStore w.
Proof.
  intros Hc n w1 w2.
  destruct (sendAll_disconnected this ps w Hc) as (Hr & Hn & Hws & _ & _).
  fold n w1 in Hr, Hn, Hws.
  assert (Hc1 : connected (nodeStore w1 !!! this) = false) by (rewrite Hn; exact Hc).
  destruct (open_disconnected this w1 Hc1) as (Hr2 & Hn2 & Hws2 & _).
  fold w2 in Hn2, Hws2.
  rewrite Hn2, Hws2, Hws, Hn. cbn [connected n_connected packetQueue n_packetQueue].
  unfold resumeConfig. cbn [n_resumeKey n_resumeTout n_packetQueue].
  rewrite <- app_assoc. repeat split; assumption || reflexivity.
Qed.

Lemma backlog_kept_on_open_witness :
  packetQueue
    (nodeStore (exec (Node.open 0) (exec (sendAll 0 [opStop "g"; opDestroy "g"]) Scenario.started))
     !!! 0%nat)
  = [opStop "g"; opDestroy "g"].
Proof.
  pose proof (backlog_kept_on_open 0 [opStop "g"; opDestroy "g"] Scenario.started) as H.
  cbv zeta in H.
  destruct H as (_ & _ & _ & _ & _ & H & _); [vm_compute; reflexivity |].
  rewrite H. vm_compute. reflexivity.
Defined.

(** C3, as stated, fails: two payloads are sent to node A before its socket
    has opened; after the [open] handler the node is connected, its socket has
    been given nothing, and both payloads are still in the backlog.  A payload
    sent afterwards goes to the socket alone, ahead of the backlog. *)
Lemma backlog_not_flushed :
  let w := exec (sendAll 0 [opStop "g"; opDestroy "g"];; Node.open 0) Scenario.started in
  let w' := exec (Node.send 0 (opPause "g" true)) w in
  connected (nodeStore w !!! 0%nat) = true /\
  transmitted w 0 = [] /\
  packetQueue (nodeStore w !!! 0%nat) = [opStop "g"; opDestroy "g"] /\
  transmitted w' 0 = [opPause "g" true] /\
  packetQueue (nodeStore w' !!! 0%nat) = [opStop "g"; opDestroy "g"].
Proof. vm_compute. repeat split; reflexivity. Qed.

(** ** Reconnecting *)

(** C8, as amended: after the [close] handler with a code other than 1000 and
    the [error] handler have both run, two reconnect timers are pending.  Every
    call of [reconnect] schedules a timer of its own, and the node keeps the
    handle of the last one only, so that [open] cancels that one and leaves the
    earlier one pending. *)
Theorem close_and_error_schedule_two this code code' w :
  code <> 1000 ->
  let n := nodeStore w !!! this in
  let t := nextTimer w in
  let w' := exec (Node.close this code;; Node.error this code') w in
  result (Node.close this code;; Node.error this code') w = Ret tt /\
  timers w' = timers w ++ [(t, (this, n_reconnAfter n)); (S t, (this, n_reconnAfter n))] /\
  reconn (nodeStore w' !!! this) = Some (S t) /\
  timers (exec (Node.open this) w')
    = filter (fun e => fst e <> S t) (timers w) ++ [(t, (this, n_reconnAfter n))].
Proof.
  intros Hcode n t w'. subst w'.
  apply Z.eqb_neq in Hcode.
  unfold Node.close, Node.error, Node.reconnect, setTimeout. unfold_monad.
  rewrite Hcode. cbn [negb]. store_norm. cbn [n_reconnAfter n_reconn reconn].
  fold n t. rewrite <- app_assoc. cbn [app].
  split; [reflexivity |]. split; [reflexivity |]. split; [reflexivity |].
  match goal with |- context [Node.open this ?x] => set (w1 := x) end.
  assert (Hn : nodeStore w1 !!! this = n_reconn (Some (S t)) n).
  { subst w1. cbn. rewrite lookup_total_insert_eq. reflexivity. }
  unfold Node.open, clearTimeout. unfold_monad. rewrite Hn. cbn [reconn n_reconn n_resumeKey].
  assert (Ht : timers w1 = timers w ++ [(t, (this, n_reconnAfter n)); (S t, (this, n_reconnAfter n))]).
  { subst w1. cbn. rewrite <- app_assoc. reflexivity. }
  assert (Hf : filter (fun e : TimerId * (NodeRef * Z) => fst e <> S t) (timers w1)
               = filter (fun e => fst e <> S t) (timers w) ++ [(t, (this, n_reconnAfter n))]).
  { rewrite Ht, filter_app. f_equal.
    rewrite filter_cons. cbn [fst].
    destruct (decide (t <> S t)) as [_|Hne]; [| exfalso; apply Hne; lia].
    rewrite filter_cons. cbn [fst].
    destruct (decide (S t <> S t)); [congruence | reflexivity]. }
  destruct (n_resumeKey n) as [key|]; cbn [Js.truthyStr];
    try destruct (negb (String.eqb key "")).
  all: try match goal with
         | |- context [Node.send ?a ?b ?c] =>
             destruct (send_returns a b c) as [r Hr]; rewrite Hr;
             destruct (send_frame a b c) as (_ & _ & _ & _ & Htm & _)
         end.
  all: store_norm; cbn beta iota; rewrite ?Htm; store_norm; exact Hf.
Qed.

Lemma close_and_error_schedule_two_witness :
  length (timers (exec (Node.close 0 1006;; Node.error 0 1) Scenario.online))
  = length (timers Scenario.online ++ [(0%nat, (0%nat, 5000)); (1%nat, (0%nat, 5000))]).
Proof.
  pose proof (close_and_error_schedule_two 0 1006 1 Scenario.online) as H.
  cbv zeta in H. destruct H as (_ & H & _); [lia |].
  rewrite H. vm_compute. reflexivity.
Defined.

(** C8, as stated, fails: node A is connected, its socket closes with code
    1006 and reports an error; two reconnect timers are then pending, and when
    both have fired the node has opened two sockets. *)
Lemma two_reconnects_pending :
  let w := exec (Node.close 0 1006;; Node.error 0 1) Scenario.online in
  let w' := exec (fireTimer 0;; fireTimer 1) w in
  timers Scenario.online = [] /\
  timers w = [(0%nat, (0%nat, 5000)); (1%nat, (0%nat, 5000))] /\
  nextWs w = 1%nat /\ nextWs w' = 3%nat.
Proof. vm_compute. repeat split; reflexivity. Qed.

(** ** Penalties *)

Lemma SFmul_comm prec emax x y : SpecFloat.SFmul prec emax x y = SpecFloat.SFmul prec emax y x.
Proof.
  destruct x as [sx|sx| |sx mx ex], y as [sy|sy| |sy my ey]; cbn;
    rewrite ?(xorb_comm sx sy), ?(Pos.mul_comm mx my), ?(Z.add_comm ex ey); reflexivity.
Qed.

(** Multiplication of doubles is commutative. *)
Lemma float_mul_comm (x y : number) : (x * y)%float = (y * x)%float.
Proof.
  apply FloatAxioms.Prim2SF_inj. rewrite !FloatAxioms.mul_spec. apply SFmul_comm.
Qed.

(** C6: for a stats snapshot (with its [cpu] entry), [calcPenalties] stores
    [floor (cpuPenalty + deficitFramePenalty + 2 * nullFramePenalty + playingPlayers)],
    with the three penalties as in the formula and the two frame penalties zero
    when the snapshot has no frame statistics; the stored value depends on the
    snapshot only, so equal snapshots give equal penalties. *)
Theorem calcPenalties_formula pow floor this w c :
  cpu (stats (nodeStore w !!! this)) = Some c ->
  let st := stats (nodeStore w !!! this) in
  let cpuPenalty := (pow 1.05 (100 * systemLoad c) * 10 - 10)%float in
  let deficitFramePenalty :=
    match frameStats st with
    | Some f => (pow 1.03 (500 * (deficit f / 3000)) * 600 - 600)%float
    | None => 0%float
    end in
  let nullFramePenalty :=
    match frameStats st with
    | Some f => (pow 1.03 (500 * (nulled f / 3000)) * 300 - 300)%float
    | None => 0%float
    end in
  let w' := exec (Node.calcPenalties pow floor this) w in
  result (Node.calcPenalties pow floor this) w = Ret tt /\
  penalties (nodeStore w' !!! this)
    = Some (floor (cpuPenalty + deficitFramePenalty + 2 * nullFramePenalty
                   + playingPlayers st)%float) /\
  (forall w2 this2,
     stats (nodeStore w2 !!! this2) = st ->
     penalties (nodeStore (exec (Node.calcPenalties pow floor this2) w2) !!! this2)
     = penalties (nodeStore w' !!! this)).
Proof.
  intros Hc st cpuPenalty deficitFramePenalty nullFramePenalty w'.
  assert (Hrun : forall w0 r, stats (nodeStore w0 !!! r) = st ->
            result (Node.calcPenalties pow floor r) w0 = Ret tt /\
            penalties (nodeStore (exec (Node.calcPenalties pow floor r) w0) !!! r)
            = Some (floor (cpuPenalty + deficitFramePenalty + 2 * nullFramePenalty
                           + playingPlayers st)%float)).
  { intros w0 r Hst. unfold Node.calcPenalties. unfold_monad. rewrite Hst.
    fold st in Hc. rewrite Hc. store_norm. cbn [penalties n_penalties].
    split; [reflexivity |].
    subst deficitFramePenalty nullFramePenalty.
    destruct (frameStats st) as [f|]; cbn [fst snd].
    - rewrite (float_mul_comm 2). reflexivity.
    - reflexivity. }
  destruct (Hrun w this eq_refl) as [Hr Hp].
  split; [exact Hr |]. split; [exact Hp |].
  intros w2 this2 Hst. subst w'. rewrite Hp. apply (Hrun w2 this2 Hst).
Qed.

Lemma calcPenalties_formula_witness :
  result (Node.calcPenalties (fun x _ => x) (fun x => x) 0) Scenario.online = Ret tt.
Proof.
  refine (proj1 (calcPenalties_formula (fun x _ => x) (fun x => x) 0 Scenario.online
                   {| cores := 0%float; systemLoad := 0%float; lavalinkLoad := 0%float |} _)).
  vm_compute. reflexivity.
Defined.

(** ** The least used nodes *)

Lemma sortInsert_Permutation {A : Type} (cmp : A -> A -> number) x l :
  Js.sortInsert cmp x l ≡ₚ x :: l.
Proof.
  induction l as [|y l IH]; cbn [Js.sortInsert]; [reflexivity |].
  destruct (Js.before cmp y x); [| reflexivity].
  rewrite IH. apply Permutation_swap.
Qed.

Lemma sort_Permutation {A : Type} (cmp : A -> A -> number) l : Js.sort cmp l ≡ₚ l.
Proof.
  induction l as [|x l IH]; cbn [Js.sort]; [reflexivity |].
  rewrite sortInsert_Permutation, IH. reflexivity.
Qed.

Section SortConsistent.

(** A comparator that orders consistently: strict precedence is asymmetric
    and "not after" is transitive. *)
Context {A : Type} (cmp : A -> A -> number).
Hypothesis before_asym : forall x y, Js.before cmp x y = true -> Js.before cmp y x = false.
Hypothesis notAfter_trans : forall x y z,
  Js.before cmp y x = false -> Js.before cmp z y = false -> Js.before cmp z x = false.

Lemma sortInsert_sorted x l :
  StronglySorted (fun a b => Js.before cmp b a = false) l ->
  StronglySorted (fun a b => Js.before cmp b a = false) (Js.sortInsert cmp x l).
Proof.
  induction 1 as [|y l Hs IH Hy]; cbn [Js.sortInsert].
  - repeat constructor.
  - destruct (Js.before cmp y x) eqn:Hyx.
    + constructor; [exact IH |].
      rewrite sortInsert_Permutation. constructor; [apply before_asym, Hyx | exact Hy].
    + constructor; [constructor; assumption |].
      constructor; [exact Hyx |].
      eapply Forall_impl; [exact Hy |]. cbn. intros z Hz. eapply notAfter_trans; eassumption.
Qed.

(** With such a comparator no element of the result is strictly after a
    later one. *)
Lemma sort_sorted l : StronglySorted (fun a b => Js.before cmp b a = false) (Js.sort cmp l).
Proof.
  induction l as [|x l IH]; cbn [Js.sort]; [constructor | apply sortInsert_sorted, IH].
Qed.

End SortConsistent.

(** The result holds the registered nodes whose [connected] flag is set, each
    as often as it is registered, and no other. *)
Lemma leastUsedNodes_connected w :
  Manager.leastUsedNodes w
  ≡ₚ List.filter (fun r => connected (nodeStore w !!! r)) (map snd (nodes (manager w))).
Proof. apply sort_Permutation. Qed.

(** C4 fails on a node that has not received stats: nodes A and B are both
    connected, A has reported a system load of 0.5 on one core and B has
    reported nothing.  The key of B is [0 / 0 * 100], not a number, instead of
    [0]; the comparator gives [NaN], read as a tie, and A stays in front of B,
    though B should come first with a key of [0]. *)
Theorem fresh_node_key_is_nan pow floor :
  let w := Scenario.twoNodes pow floor in
  map snd (nodes (manager w)) = [0; 1]%nat /\
  connected (nodeStore w !!! 0%nat) = true /\
  connected (nodeStore w !!! 1%nat) = true /\
  stats (nodeStore w !!! 1%nat) = zeroStats /\
  Manager.load (nodeStore w !!! 0%nat) = 50%float /\
  PrimFloat.is_nan (Manager.load (nodeStore w !!! 1%nat)) = true /\
  Manager.leastUsedNodes w = [0; 1]%nat.
Proof. vm_compute. repeat split; reflexivity. Qed.

(** When every node has reported, the order is by load, and nodes of equal
    load stay in the order of their registration. *)
Example loaded_nodes_in_order pow floor :
  let w := Scenario.threeNodes pow floor in
  map (fun r => Manager.load (nodeStore w !!! r)) [0; 1; 2]%nat
    = [37.5%float; 12.5%float; 12.5%float] /\
  Manager.leastUsedNodes w = [1; 2; 0]%nat /\
  Manager.leastUsedNodes (exec (Node.reconnectCallback 1) w) = [2; 0]%nat.
Proof. vm_compute. repeat split; reflexivity. Qed.

(** ** Stopping *)

(** C5, as amended: for a skip count above 1, [stop] throws when the count
    exceeds the length of the queue, changing and sending nothing; otherwise it
    removes exactly [skipCount - 1] leading entries and then sends [stop].
    Without a skip count, or with one of at most 1, the queue is left as it is
    and [stop] is sent. *)
Theorem stop_skips_one_less this amount w :
  let p := playerStore w !!! this in
  let sendStop := exec (Node.send (node p) (opStop (guild p))) in
  (forall a, amount = Some a -> 1 < a -> Z.of_nat (length (queue p)) < a ->
     Player.stop this amount w
     = (Throw (RangeError "Cannot skip more than the queue size"), w)) /\
  (forall a, amount = Some a -> 1 < a -> a <= Z.of_nat (length (queue p)) ->
     exists removed rest,
       queue p = removed ++ rest /\
       Z.of_nat (length removed) = a - 1 /\
       Player.stop this amount w
       = (Ret this, sendStop (w_playerStore <[this := p_queue rest p]> w))) /\
  ((amount = None \/ exists a, amount = Some a /\ a <= 1) ->
     Player.stop this amount w = (Ret this, sendStop w)).
Proof.
  intros p sendStop. subst sendStop. unfold Player.stop.
  split; [| split].
  - intros a -> H1 H2. unfold_monad. fold p.
    apply Z.ltb_lt in H1, H2. rewrite H1, H2. reflexivity.
  - intros a -> H1 H2.
    exists (take (Z.to_nat (a - 1)) (queue p)), (drop (Z.to_nat (a - 1)) (queue p)).
    split; [symmetry; apply take_drop |].
    split; [rewrite length_take; lia |].
    unfold_monad. fold p.
    apply Z.ltb_lt in H1. rewrite H1.
    assert (H3 : (Z.of_nat (length (queue p)) <? a) = false) by (apply Z.ltb_ge; lia).
    assert (H4 : (a <? 1) = false) by (apply Z.ltb_ge; apply Z.ltb_lt in H1; lia).
    rewrite H3, H4.
    match goal with
    | |- context [Node.send ?n ?pl ?w0] => destruct (send_returns n pl w0) as [r Hr]; rewrite Hr
    end.
    reflexivity.
  - intros H. unfold_monad. fold p.
    assert (Hs : forall w0, (let (o, w') := Node.send (node p) (opStop (guild p)) w0 in
                             match o with
                             | Ret _ => (Ret this, w')
                             | Throw e => (Throw e, w')
                             end) = (Ret this, (Node.send (node p) (opStop (guild p)) w0).2)).
    { intros w0. destruct (send_returns (node p) (opStop (guild p)) w0) as [r Hr].
      rewrite Hr. reflexivity. }
    destruct H as [-> | (a & -> & Ha)].
    + apply Hs.
    + assert (H1 : (1 <? a) = false) by (apply Z.ltb_ge; lia).
      rewrite H1. apply Hs.
Qed.

Lemma stop_skips_one_less_witness :
  exists removed rest,
    queue (playerStore Scenario.threeQueued !!! 0%nat) = removed ++ rest /\
    Z.of_nat (length removed) = 2 - 1 /\
    Player.stop 0 (Some 2) Scenario.threeQueued
    = (Ret 0%nat,
       exec (Node.send (node (playerStore Scenario.threeQueued !!! 0%nat))
               (opStop (guild (playerStore Scenario.threeQueued !!! 0%nat))))
         (w_playerStore
            <[0%nat := p_queue rest (playerStore Scenario.threeQueued !!! 0%nat)]>
            Scenario.threeQueued)).
Proof.
  refine (proj1 (proj2 (stop_skips_one_less 0 (Some 2) Scenario.threeQueued)) 2 eq_refl _ _).
  - lia.
  - vm_compute. discriminate.
Defined.

(** C5, as stated, fails: with three tracks queued, [stop(2)] removes one
    entry, not two, before it sends [stop]. *)
Lemma stop_two_removes_one :
  let w := exec (Player.stop 0 (Some 2)) Scenario.threeQueued in
  queue (playerStore Scenario.threeQueued !!! 0%nat) = [Scenario.t1; Scenario.t2; Scenario.t3] /\
  result (Player.stop 0 (Some 2)) Scenario.threeQueued = Ret 0%nat /\
  queue (playerStore w !!! 0%nat) = [Scenario.t2; Scenario.t3] /\
  transmitted w 0 = transmitted Scenario.threeQueued 0 ++ [opStop "guild-1"].
Proof. vm_compute. repeat split; reflexivity. Qed.

(** ** The end of a track *)

Lemma play_unfold this w :
  Player.play this Player.noOptions w =
  (Ret (match queue (playerStore w !!! this) with [] => None | _ :: _ => Some this end),
   startOnHead this w).
Proof.
  unfold Player.play, startOnHead. unfold_monad.
  cbn [Js.nullish Player.noOptions po_startTime po_volume po_noReplace po_pause].
  destruct (queue (playerStore w !!! this)) as [|t q]; [reflexivity |].
  world_norm. send_cases.
Qed.

Lemma stop_unfold this w :
  Player.stop this None w =
  (Ret this,
   exec (Node.send (node (playerStore w !!! this)) (opStop (guild (playerStore w !!! this)))) w).
Proof.
  unfold Player.stop. unfold_monad.
  match goal with
  | |- context [Node.send ?n ?pl ?w0] => destruct (send_returns n pl w0) as [r Hr]; rewrite Hr
  end.
  reflexivity.
Qed.

Lemma replay_unfold this w :
  (Player.play this Player.noOptions;; ret tt)%js w = (Ret tt, startOnHead this w).
Proof. unfold bind, ret. rewrite play_unfold. reflexivity. Qed.

Lemma advance_unfold this w :
  (Player.shift this;; Player.play this Player.noOptions;; ret tt)%js w
  = (Ret tt, startOnHead this (dropHead this w)).
Proof.
  unfold bind at 1. unfold Player.shift, setPlayer, modify. rewrite replay_unfold. reflexivity.
Qed.

Lemma clearAndStop_unfold this w :
  (setPlayer this (p_queue []);; Player.stop this None;;
   setPlayer this (p_playing false);; setPlayer this (p_paused false))%js w
  = (Ret tt, stopAll this w).
Proof.
  unfold stopAll. unfold_monad. rewrite stop_unfold.
  world_norm. cbn [node guild p_queue]. send_cases.
Qed.

Lemma reason_not_both (r : string) :
  String.eqb r "FINISHED" = true -> String.eqb r "STOPPED" = false.
Proof. intros H. apply String.eqb_eq in H. subst r. reflexivity. Qed.

(** C1, as amended: on a [TrackEndEvent] the handler never throws and does
    what [handlerTable] says for the reason, the length of the queue and the
    two repeat flags: with track repeat on it replays the head whatever the
    reason; otherwise [FINISHED] with at most one entry replays under queue
    repeat and else announces [queueEnd], clears the queue, sends [stop] and
    clears both flags; [STOPPED] drops the head and plays the next one when
    there are two entries or more, and else clears and stops without
    [queueEnd]; in the remaining cases the head is dropped and the next one
    played when there are two entries or more, and only these remaining cases
    emit [trackEnd]. *)
Theorem trackEnd_follows_handlerTable this data w :
  lo_type data = "TrackEndEvent" ->
  let p := playerStore w !!! this in
  Player.lavalinkEvent this data w =
    (Ret tt,
     perform (handlerTable (reasonOf (lo_reason data)) (length (queue p))
                (trackRepeat p) (queueRepeat p)) this w).
Proof.
  intros Ht p. unfold Player.lavalinkEvent. rewrite Ht.
  unfold bind at 1. unfold getPlayer at 1, gets at 1. fold p.
  cbn [String.eqb Ascii.eqb Bool.eqb].
  unfold handlerTable, reasonOf, perform.
  destruct (trackRepeat p) eqn:Htr; [apply replay_unfold |].
  destruct (String.eqb (lo_reason data) "FINISHED") eqn:Hfin.
  - rewrite (reason_not_both _ Hfin), !andb_true_r, !andb_false_r.
    destruct (Nat.leb_spec (length (queue p)) 1) as [Hlen|Hlen].
    + destruct (queueRepeat p); cbn [andb action emitsTrackEnd]; [apply replay_unfold |].
      unfold bind at 1. unfold emit at 1, modify at 1.
      rewrite clearAndStop_unfold. reflexivity.
    + rewrite andb_false_r. cbn [action emitsTrackEnd].
      destruct (Nat.leb_spec 2 (length (queue p))) as [_|Hlen2]; [| lia].
      unfold bind at 1. rewrite advance_unfold. reflexivity.
  - rewrite !andb_false_r.
    destruct (String.eqb (lo_reason data) "STOPPED") eqn:Hst.
    + rewrite !andb_true_r. cbn [action emitsTrackEnd].
      destruct (Nat.leb_spec 2 (length (queue p))) as [Hlen|Hlen].
      * apply advance_unfold.
      * destruct (Nat.leb_spec (length (queue p)) 1) as [_|Hlen2]; [| lia].
        apply clearAndStop_unfold.
    + rewrite !andb_false_r. cbn [action emitsTrackEnd].
      destruct (2 <=? length (queue p))%nat.
      * unfold bind at 1. rewrite advance_unfold. reflexivity.
      * reflexivity.
Qed.

Lemma trackEnd_follows_handlerTable_witness :
  Player.lavalinkEvent 0 Scenario.stoppedEvent Scenario.twoQueued
  = (Ret tt,
     perform {| action := dropHeadPlayNext; emitsTrackEnd := false |} 0 Scenario.twoQueued).
Proof.
  exact (trackEnd_follows_handlerTable 0 Scenario.stoppedEvent Scenario.twoQueued eq_refl).
Defined.

(** C1, as stated, fails: two tracks are queued, the first one plays, and a
    [TrackEndEvent] with reason [STOPPED] arrives.  The head is dropped and
    [play] is sent for the new head, but no [trackEnd] notification is emitted,
    so the outcome is not the one of the specification's table; and with track
    repeat on, the head is not even dropped: the first track is played again. *)
Lemma stopped_emits_no_trackEnd :
  let w := exec (Player.lavalinkEvent 0 Scenario.stoppedEvent) Scenario.twoQueued in
  let looping := exec (Player.setTrackRepeat 0 true) Scenario.twoQueued in
  let w' := exec (Player.lavalinkEvent 0 Scenario.stoppedEvent) looping in
  specTable STOPPED 2 false false = {| action := dropHeadPlayNext; emitsTrackEnd := true |} /\
  queue (playerStore w !!! 0%nat) = [Scenario.t2] /\
  transmitted w 0 = transmitted Scenario.twoQueued 0 ++ [opPlay "guild-1" "QAAAtwo" 0 100 false false] /\
  emitted w = emitted Scenario.twoQueued /\
  emitted (perform (specTable STOPPED 2 false false) 0 Scenario.twoQueued)
    = emitted Scenario.twoQueued ++ [trackEnd 0 (Some Scenario.t2)] /\
  specTable STOPPED 2 true false = {| action := dropHeadPlayNext; emitsTrackEnd := true |} /\
  queue (playerStore w' !!! 0%nat) = [Scenario.t1; Scenario.t2] /\
  transmitted w' 0 = transmitted looping 0 ++ [opPlay "guild-1" "QAAAone" 0 100 false false].
Proof. vm_compute. repeat split; reflexivity. Qed.

(** ** Filters *)

Lemma sendFilter_not_playing this body w :
  playing (playerStore w !!! this) = false ->
  Player.sendFilter this body w = (Throw (Error "Nothing is playing"), w).
Proof. intros H. unfold Player.sendFilter. unfold_monad. rewrite H. reflexivity. Qed.

Lemma sendFilter_playing this body w :
  playing (playerStore w !!! this) = true ->
  Player.sendFilter this body w =
    (Ret this,
     exec (Node.send (node (playerStore w !!! this))
             (opFilters (guild (playerStore w !!! this)) body)) w).
Proof.
  intros H. unfold Player.sendFilter. unfold_monad. rewrite H. cbn [negb].
  match goal with
  | |- context [Node.send ?n ?pl ?w0] => destruct (send_returns n pl w0) as [r Hr]; rewrite Hr
  end.
  reflexivity.
Qed.

Lemma p_bands_twice a b (p : PlayerObj) : p_bands a (p_bands b p) = p_bands a p.
Proof. reflexivity. Qed.

(** With the gains array in place, valid descriptors are all assigned. *)
Lemma assignBands_initialised this bs : forall w arr,
  bands (playerStore w !!! this) = Some arr ->
  forallb Player.validBand bs = true ->
  bs <> [] ->
  Player.assignBands this bs w =
    (Ret tt,
     w_playerStore
       <[this := p_bands (Some (applyBands arr bs)) (playerStore w !!! this)]> w).
Proof.
  induction bs as [|b bs IH]; intros w arr Hb Hv Hne; [congruence |].
  cbn [forallb] in Hv. apply andb_true_iff in Hv as [Hv1 Hv2].
  destruct b as [[i|] [g|] [|k ks]]; try discriminate Hv1.
  cbn [Player.assignBands]. unfold_monad. rewrite Hb. cbn [arg_band arg_gain].
  set (w1 := w_playerStore _ w).
  assert (Hb1 : bands (playerStore w1 !!! this) = Some (Js.arraySet arr i g)).
  { subst w1. world_norm. reflexivity. }
  destruct bs as [|b' bs'].
  - reflexivity.
  - rewrite (IH w1 _ Hb1 Hv2) by discriminate.
    subst w1. world_norm. rewrite p_bands_twice. reflexivity.
Qed.

(** Without the gains array, the first assignment throws. *)
Lemma assignBands_uninitialised this b bs w :
  bands (playerStore w !!! this) = None ->
  Player.assignBands this (b :: bs) w
  = (Throw (TypeError "Cannot set properties of undefined"), w).
Proof. intros Hb. cbn [Player.assignBands]. unfold_monad. rewrite Hb. reflexivity. Qed.

Lemma validArgs_inv args :
  validArgs args = true ->
  bandsOf args <> [] /\ forallb Player.validBand (bandsOf args) = true.
Proof.
  unfold validArgs. intros H. apply negb_true_iff, orb_false_iff in H as [H1 H2].
  apply negb_false_iff in H2. split; [| exact H2].
  intros E. rewrite E in H1. discriminate.
Qed.

Lemma setEQ_unfold this args w :
  Player.setEQ this args w =
    if playing (playerStore w !!! this) then
      if validArgs args then
        (Player.assignBands this (bandsOf args);;
         p' <- getPlayer this;;
         Node.send (node p') (opEqualizer (guild p') (Player.bandEntries <$> bands p'));;
         ret this)%js w
      else (Throw (TypeError "Bands must be in an object, with band and gain property."), w)
    else (Throw (Error "Nothing is playing"), w).
Proof.
  unfold Player.setEQ, validArgs, bandsOf. unfold bind at 1. unfold getPlayer at 1, gets at 1.
  destruct (playing (playerStore w !!! this)); cbn [negb]; [| reflexivity].
  destruct args as [l|arr rest]; 
    match goal with |- context [(?a || ?b)%bool] => destruct (a || b)%bool end; reflexivity.
Qed.

Lemma setEQ_initialised this args arr w :
  playing (playerStore w !!! this) = true ->
  validArgs args = true ->
  bands (playerStore w !!! this) = Some arr ->
  let p := playerStore w !!! this in
  Player.setEQ this args w =
    (Ret this,
     exec (Node.send (node p)
             (opEqualizer (guild p) (Some (Player.bandEntries (applyBands arr (bandsOf args))))))
       (w_playerStore <[this := p_bands (Some (applyBands arr (bandsOf args))) p]> w)).
Proof.
  intros Hp Hv Hb p. rewrite setEQ_unfold, Hp, Hv.
  destruct (validArgs_inv _ Hv) as [Hne Hall].
  unfold bind at 1. rewrite (assignBands_initialised this _ w arr Hb Hall Hne). fold p.
  unfold_monad. world_norm. cbn [node guild bands p_bands fmap option_fmap option_map].
  match goal with
  | |- context [Node.send ?n ?pl ?w0] => destruct (send_returns n pl w0) as [r Hr]; rewrite Hr
  end.
  reflexivity.
Qed.

Lemma clearEQ_playing this w :
  playing (playerStore w !!! this) = true ->
  let p := playerStore w !!! this in
  Player.clearEQ this w =
    (Ret this,
     exec (Node.send (node p)
             (opEqualizer (guild p) (Some (Player.bandEntries (replicate 16 (Some 0%float))))))
       (w_playerStore <[this := p_bands (Some (replicate 16 (Some 0%float))) p]> w)).
Proof.
  intros Hp p. unfold Player.clearEQ. unfold_monad. rewrite Hp. cbn [negb].
  world_norm. cbn [node guild bands p_bands fmap option_fmap option_map].
  match goal with
  | |- context [Node.send ?n ?pl ?w0] => destruct (send_returns n pl w0) as [r Hr]; rewrite Hr
  end.
  reflexivity.
Qed.

Lemma orNum_defaulted x d : Js.orNum x d = defaulted x d.
Proof.
  unfold Js.orNum, defaulted, Js.truthy. destruct x as [v|]; [| reflexivity].
  destruct (PrimFloat.is_zero v || PrimFloat.is_nan v); reflexivity.
Qed.

Lemma arraySet_length {A : Type} (arr : list (option A)) i v :
  length (Js.arraySet arr i v) = Nat.max (length arr) (S i).
Proof.
  unfold Js.arraySet. destruct (Nat.ltb_spec i (length arr)) as [Hlt|Hge].
  - rewrite length_insert. lia.
  - rewrite !length_app, length_replicate. cbn [length]. lia.
Qed.

Lemma arraySet_lookup {A : Type} (arr : list (option A)) i v j :
  Js.arraySet arr i v !! j =
    if (j =? i)%nat then Some (Some v)
    else if (j <? length arr)%nat then arr !! j
    else if (j <? i)%nat then Some None else None.
Proof.
  unfold Js.arraySet.
  destruct (Nat.eqb_spec j i) as [->|Hne];
    destruct (Nat.ltb_spec i (length arr)) as [Hlt|Hge].
  - apply list_lookup_insert_eq. exact Hlt.
  - rewrite lookup_app_r by lia. rewrite lookup_app_r by (rewrite length_replicate; lia).
    rewrite length_replicate. replace (i - length arr - (i - length arr))%nat with 0%nat by lia.
    reflexivity.
  - rewrite list_lookup_insert_ne by (intros E; apply Hne; symmetry; exact E).
    destruct (Nat.ltb_spec j (length arr)) as [Hj|Hj]; [reflexivity |].
    rewrite lookup_ge_None_2 by lia.
    destruct (Nat.ltb_spec j i); [lia | reflexivity].
  - destruct (Nat.ltb_spec j (length arr)) as [Hj|Hj].
    + apply lookup_app_l. exact Hj.
    + rewrite lookup_app_r by lia.
      destruct (Nat.ltb_spec j i) as [Hji|Hji].
      * rewrite lookup_app_l by (rewrite length_replicate; lia).
        apply lookup_replicate_2. lia.
      * rewrite lookup_app_r by (rewrite length_replicate; lia).
        rewrite length_replicate. apply lookup_ge_None_2. cbn [length]. lia.
Qed.

Lemma applyBands_cons arr b bs :
  applyBands arr (b :: bs) =
    applyBands (match arg_band b, arg_gain b with
                | Some i, Some g => Js.arraySet arr i g
                | _, _ => arr
                end) bs.
Proof. reflexivity. Qed.

Lemma applyBands_length bs : forall arr,
  length (applyBands arr bs) = Nat.max (length arr) (bandExtent bs).
Proof.
  induction bs as [|b bs IH]; intros arr.
  - unfold applyBands. cbn [foldl bandExtent]. lia.
  - rewrite applyBands_cons, IH. cbn [bandExtent].
    destruct (arg_band b) as [i|]; [| reflexivity].
    destruct (arg_gain b) as [g|]; [| reflexivity].
    rewrite arraySet_length. lia.
Qed.

(** The gains after [setEQ]: a band the descriptors name has the gain of the
    last descriptor for it, a band they do not name keeps what it had, and the
    bands in between that the array did not reach are holes. *)
Lemma applyBands_lookup bs : forall arr j,
  applyBands arr bs !! j =
    match lastGain bs j with
    | Some g => Some (Some g)
    | None =>
        if (j <? length arr)%nat then arr !! j
        else if (j <? bandExtent bs)%nat then Some None else None
    end.
Proof.
  induction bs as [|b bs IH]; intros arr j.
  - unfold applyBands. cbn [foldl lastGain bandExtent].
    destruct (Nat.ltb_spec j (length arr)); [reflexivity |].
    destruct (Nat.ltb_spec j 0); [lia |]. apply lookup_ge_None_2. lia.
  - rewrite applyBands_cons, IH. cbn [lastGain bandExtent].
    destruct (lastGain bs j) as [g'|]; [reflexivity |].
    destruct (arg_band b) as [i|]; [| reflexivity].
    destruct (arg_gain b) as [g|]; [| reflexivity].
    rewrite arraySet_length, arraySet_lookup.
    destruct (Nat.eqb_spec i j) as [->|Hne].
    + rewrite Nat.eqb_refl.
      destruct (Nat.ltb_spec j (Nat.max (length arr) (S j))); [reflexivity | lia].
    + destruct (Nat.eqb_spec j i) as [E|_]; [exfalso; apply Hne; symmetry; exact E |].
      destruct (Nat.ltb_spec j (length arr)) as [Hj|Hj].
      * destruct (Nat.ltb_spec j (Nat.max (length arr) (S i))); [reflexivity | lia].
      * destruct (Nat.ltb_spec j i) as [Hji|Hji].
        -- destruct (Nat.ltb_spec j (Nat.max (length arr) (S i))); [| lia].
           destruct (Nat.ltb_spec j (Nat.max (S i) (bandExtent bs))); [reflexivity | lia].
        -- destruct (Nat.ltb_spec j (Nat.max (length arr) (S i))); [lia |].
           destruct (Nat.ltb_spec j (bandExtent bs));
             destruct (Nat.ltb_spec j (Nat.max (S i) (bandExtent bs))); try reflexivity; lia.
Qed.

(** The entries of the [equalizer] command: one for each gain, under the
    index of the gain, and a hole for a hole. *)
Lemma bandEntries_lookup arr i :
  Player.bandEntries arr !! i
  = (fun o => (fun g => {| band := i; gain := g |}) <$> o) <$> arr !! i.
Proof.
  unfold Player.bandEntries. rewrite list_lookup_imap.
  destruct (arr !! i) as [[g|]|]; reflexivity.
Qed.

Lemma bandEntries_length arr : length (Player.bandEntries arr) = length arr.
Proof. unfold Player.bandEntries. apply length_imap. Qed.

(** C7, as amended: every filter setter throws the not-playing error exactly
    when the playing flag is off, and then changes and sends nothing.  When
    the session is playing, every setter but [setEQ] sends its command for the
    guild: [filters] with the setter's own sub-object, holding the given
    values or the setter's defaults, or [equalizer] with the sixteen cleared
    bands.  [setEQ] first checks its band descriptors, throwing a [TypeError]
    and sending nothing when they are not valid; when they are valid and the
    gains array is there, it stores the updated gains (a named band has the
    gain of its last descriptor, the others keep theirs) and sends the
    [equalizer] command with one entry for each of them. *)
Theorem filter_setters_require_playing this c w :
  let p := playerStore w !!! this in
  (playing p = false -> callFilter this c w = (Throw (Error "Nothing is playing"), w)) /\
  (playing p = true -> result (callFilter this c) w <> Throw (Error "Nothing is playing")) /\
  (playing p = true -> isSetEQ c = false ->
     exists cmd,
       filterCommand (guild p) c = Some cmd /\
       commandOf (guild p) c cmd = true /\
       callFilter this c w =
         (Ret this,
          exec (Node.send (node p) cmd)
            (match c with
             | callClearEQ =>
                 w_playerStore <[this := p_bands (Some (replicate 16 (Some 0%float))) p]> w
             | _ => w
             end))) /\
  (forall args, playing p = true -> c = callSetEQ args -> validArgs args = false ->
     callFilter this c w =
       (Throw (TypeError "Bands must be in an object, with band and gain property."), w)) /\
  (forall args arr, playing p = true -> c = callSetEQ args -> validArgs args = true ->
     bands p = Some arr ->
     exists gains entries,
       callFilter this c w =
         (Ret this,
          exec (Node.send (node p) (opEqualizer (guild p) (Some entries)))
            (w_playerStore <[this := p_bands (Some gains) p]> w)) /\
       commandOf (guild p) c (opEqualizer (guild p) (Some entries)) = true /\
       gains = applyBands arr (bandsOf args) /\
       length gains = Nat.max (length arr) (bandExtent (bandsOf args)) /\
       (forall i g, lastGain (bandsOf args) i = Some g -> gains !! i = Some (Some g)) /\
       (forall i, lastGain (bandsOf args) i = None -> (i < length arr)%nat ->
                  gains !! i = arr !! i) /\
       (forall i, lastGain (bandsOf args) i = None -> (length arr <= i < length gains)%nat ->
                  gains !! i = Some None) /\
       length entries = length gains /\
       (forall i, entries !! i
                  = (fun o => (fun g => {| band := i; gain := g |}) <$> o) <$> gains !! i)).
Proof.
  intros p. repeat split.
  - intros Hp. destruct c; cbn [callFilter];
      try (apply sendFilter_not_playing; exact Hp).
    + rewrite setEQ_unfold. fold p. rewrite Hp. reflexivity.
    + unfold Player.clearEQ. unfold_monad. fold p. rewrite Hp. reflexivity.
  - intros Hp. unfold result.
    destruct c; cbn [callFilter];
      try (unfold Player.setKaraoke, Player.setTimeScale, Player.setTremolo, Player.setVibrato,
             Player.setRotation, Player.setDistortion, Player.setChannelMix, Player.setLowPass,
             Player.cleanFilters;
           rewrite (sendFilter_playing _ _ _ Hp); discriminate).
    + rewrite setEQ_unfold. fold p. rewrite Hp.
      destruct (validArgs args) eqn:Hv; [| discriminate].
      destruct (validArgs_inv _ Hv) as [Hne _].
      destruct (bandsOf args) as [|b bs] eqn:Hbs; [congruence |].
      destruct (bands p) as [arr|] eqn:Hb.
      * pose proof (setEQ_initialised this args arr w Hp Hv Hb) as E.
        rewrite setEQ_unfold in E. fold p in E. rewrite Hp, Hv, Hbs in E.
        rewrite E. discriminate.
      * unfold bind at 1. rewrite (assignBands_uninitialised this b bs w Hb). discriminate.
    + rewrite (clearEQ_playing _ _ Hp). discriminate.
  - intros Hp Hc. fold p in Hp.
    destruct c; try discriminate Hc; cbn [callFilter];
      try (unfold Player.setKaraoke, Player.setTimeScale, Player.setTremolo, Player.setVibrato,
             Player.setRotation, Player.setDistortion, Player.setChannelMix, Player.setLowPass,
             Player.cleanFilters;
           rewrite (sendFilter_playing _ _ _ Hp); fold p;
           eexists; split; [cbn [filterCommand]; rewrite <- ?orNum_defaulted; reflexivity |];
           split; [cbn [commandOf]; apply String.eqb_refl | reflexivity]).
    rewrite (clearEQ_playing _ _ Hp). fold p.
    eexists; split; [reflexivity |].
    split; [cbn [commandOf]; apply String.eqb_refl | reflexivity].
  - intros args Hp -> Hv. cbn [callFilter]. rewrite setEQ_unfold. fold p.
    rewrite Hp, Hv. reflexivity.
  - intros args arr Hp -> Hv Hb. cbn [callFilter].
    rewrite (setEQ_initialised this args arr w Hp Hv Hb). fold p.
    exists (applyBands arr (bandsOf args)), (Player.bandEntries (applyBands arr (bandsOf args))).
    split; [reflexivity |].
    split; [cbn [commandOf]; apply String.eqb_refl |].
    split; [reflexivity |].
    split; [apply applyBands_length |].
    split; [intros i g Hl; rewrite applyBands_lookup, Hl; reflexivity |].
    split.
    { intros i Hl Hi. rewrite applyBands_lookup, Hl.
      destruct (Nat.ltb_spec i (length arr)); [reflexivity | lia]. }
    split.
    { intros i Hl Hi. rewrite applyBands_length in Hi. rewrite applyBands_lookup, Hl.
      destruct (Nat.ltb_spec i (length arr)); [lia |].
      destruct (Nat.ltb_spec i (bandExtent (bandsOf args))); [reflexivity | lia]. }
    split; [apply bandEntries_length | apply bandEntries_lookup].
Qed.

Lemma filter_setters_require_playing_witness :
  exists cmd,
    filterCommand "guild-1" (callSetTremolo None None) = Some cmd /\
    commandOf "guild-1" (callSetTremolo None None) cmd = true /\
    callFilter 0 (callSetTremolo None None) Scenario.twoQueued
    = (Ret 0%nat, exec (Node.send 0 cmd) Scenario.twoQueued).
Proof.
  destruct (filter_setters_require_playing 0 (callSetTremolo None None) Scenario.twoQueued)
    as (_ & _ & H & _).
  apply H; vm_compute; reflexivity.
Defined.

(** C7, as stated, fails for [setEQ]: the session is playing and its gains
    array is there, and [setEQ] is called with a descriptor that has no
    [gain]; the call throws a [TypeError] and the node is sent nothing. *)
Lemma setEQ_playing_sends_nothing :
  let w := exec (Player.clearEQ 0) Scenario.twoQueued in
  let c := callSetEQ (spreadBands [{| arg_band := Some 3%nat; arg_gain := None;
                                      arg_others := [] |}]) in
  playing (playerStore w !!! 0%nat) = true /\
  result (callFilter 0 c) w
    = Throw (TypeError "Bands must be in an object, with band and gain property.") /\
  transmitted (exec (callFilter 0 c) w) 0 = transmitted w 0 /\
  packetQueue (nodeStore (exec (callFilter 0 c) w) !!! 0%nat) = packetQueue (nodeStore w !!! 0%nat).
Proof. vm_compute. repeat split; reflexivity. Qed.

(** C10: a player comes out of its constructor without a gains array; as long
    as there is none, [setEQ] throws whatever its arguments, and on a playing
    session with valid descriptors it throws on the first assignment, leaving
    everything as it was.  After [clearEQ] on a playing session the sixteen
    gains are there and [setEQ] with valid descriptors returns. *)
Theorem setEQ_throws_before_clearEQ this args w :
  let p := playerStore w !!! this in
  (forall n options w0,
     bands (playerStore (exec (Player.new n options) w0) !!! nextPlayer w0) = None) /\
  (bands p = None -> exists e, Player.setEQ this args w = (Throw e, w)) /\
  (bands p = None -> playing p = true -> validArgs args = true ->
     Player.setEQ this args w = (Throw (TypeError "Cannot set properties of undefined"), w)) /\
  (playing p = true ->
     bands (playerStore (exec (Player.clearEQ this) w) !!! this)
     = Some (replicate 16 (Some 0%float))) /\
  (playing p = true -> validArgs args = true ->
     result (Player.setEQ this args) (exec (Player.clearEQ this) w) = Ret this).
Proof.
  intros p.
  assert (Hthrow : bands p = None -> playing p = true -> validArgs args = true ->
            Player.setEQ this args w
            = (Throw (TypeError "Cannot set properties of undefined"), w)).
  { intros Hb Hp Hv. rewrite setEQ_unfold. fold p. rewrite Hp, Hv.
    destruct (validArgs_inv _ Hv) as [Hne _].
    destruct (bandsOf args) as [|b bs]; [congruence |].
    unfold bind at 1. rewrite (assignBands_uninitialised this b bs w Hb). reflexivity. }
  assert (Hclear : playing p = true ->
            playerStore (exec (Player.clearEQ this) w) !!! this
            = p_bands (Some (replicate 16 (Some 0%float))) p).
  { intros Hp. unfold exec at 1. rewrite (clearEQ_playing _ _ Hp). cbn [snd]. fold p.
    match goal with
    | |- context [exec (Node.send ?n ?pl) ?w0] =>
        destruct (send_frame n pl w0) as (Hps & _); rewrite Hps
    end.
    world_norm. reflexivity. }
  repeat split.
  - intros n options w0. unfold Player.new, exec. world_norm. reflexivity.
  - intros Hb. rewrite setEQ_unfold. fold p.
    destruct (playing p) eqn:Hp; [| eauto].
    destruct (validArgs args) eqn:Hv; [| eauto].
    rewrite setEQ_unfold in Hthrow. fold p in Hthrow. rewrite Hp, Hv in Hthrow.
    rewrite (Hthrow Hb eq_refl eq_refl). eauto.
  - exact Hthrow.
  - intros Hp. rewrite (Hclear Hp). reflexivity.
  - intros Hp Hv. unfold result.
    rewrite (setEQ_initialised this args (replicate 16 (Some 0%float))).
    + reflexivity.
    + rewrite (Hclear Hp). exact Hp.
    + exact Hv.
    + rewrite (Hclear Hp). reflexivity.
Qed.

Lemma setEQ_throws_before_clearEQ_witness :
  Player.setEQ 0 (spreadBands [bandObject 0 0.25%float]) Scenario.twoQueued
  = (Throw (TypeError "Cannot set properties of undefined"), Scenario.twoQueued) /\
  result (Player.setEQ 0 (spreadBands [bandObject 0 0.25%float]))
    (exec (Player.clearEQ 0) Scenario.twoQueued) = Ret 0%nat.
Proof.
  destruct (setEQ_throws_before_clearEQ 0 (spreadBands [bandObject 0 0.25%float])
              Scenario.twoQueued) as (_ & _ & H1 & _ & H2).
  split; [apply H1 | apply H2]; vm_compute; reflexivity.
Defined.

(** ** Destroying a player *)

(** [pause] returns, and leaves the manager, the guild, the node and the voice
    channel of the player alone. *)
Lemma pause_keeps this st w :
  exists w',
    Player.pause this st w = (Ret this, w') /\
    manager w' = manager w /\
    guild (playerStore w' !!! this) = guild (playerStore w !!! this) /\
    node (playerStore w' !!! this) = node (playerStore w !!! this) /\
    voiceChannel (playerStore w' !!! this) = voiceChannel (playerStore w !!! this).
Proof.
  unfold Player.pause. unfold_monad.
  destruct (queue (playerStore w !!! this)); [eexists; repeat split; reflexivity |].
  rewrite send_unfold. cbv zeta. world_norm.
  destruct (connected _); [destruct (ws _) |];
    (eexists; split; [reflexivity |]); world_norm; repeat split; reflexivity.
Qed.

(** [disconnect] returns, and afterwards the player has no voice channel. *)
Lemma disconnect_keeps this w :
  exists r w',
    Player.disconnect this w = (Ret r, w') /\
    manager w' = manager w /\
    guild (playerStore w' !!! this) = guild (playerStore w !!! this) /\
    node (playerStore w' !!! this) = node (playerStore w !!! this) /\
    Js.truthyStr (voiceChannel (playerStore w' !!! this)) = false.
Proof.
  unfold Player.disconnect. unfold bind at 1. unfold getPlayer at 1, gets at 1.
  destruct (Js.truthyStr (voiceChannel (playerStore w !!! this))) eqn:Hv; cbn [negb].
  - assert (Hp : exists w1,
        (if paused (playerStore w !!! this)
         then (Player.pause this false;; ret tt)%js else ret tt) w = (Ret tt, w1) /\
        manager w1 = manager w /\
        guild (playerStore w1 !!! this) = guild (playerStore w !!! this) /\
        node (playerStore w1 !!! this) = node (playerStore w !!! this)).
    { destruct (paused (playerStore w !!! this)).
      - destruct (pause_keeps this false w) as (w1 & E & Hm & Hg & Hn & _).
        exists w1. unfold bind, ret. rewrite E. repeat split; assumption.
      - exists w. repeat split; reflexivity. }
    destruct Hp as (w1 & E & Hm & Hg & Hn).
    unfold bind at 1. rewrite E. unfold_monad. world_norm.
    do 2 eexists. split; [reflexivity |]. world_norm.
    repeat split; try assumption; reflexivity.
  - exists None, w. repeat split; try reflexivity. exact Hv.
Qed.

(** [destroy] returns, removes the guild's entry from the players of the
    manager and keeps the guild of the player. *)
Lemma destroy_removes this w :
  exists w',
    Player.destroy this w = (Ret tt, w') /\
    players (manager w') = delete (guild (playerStore w !!! this)) (players (manager w)) /\
    guild (playerStore w' !!! this) = guild (playerStore w !!! this).
Proof.
  unfold Player.destroy.
  destruct (disconnect_keeps this w) as (r & w1 & E & Hm & Hg & Hn & _).
  unfold bind at 1. rewrite E.
  unfold bind at 1. unfold getPlayer at 1, gets at 1.
  unfold bind at 1.
  destruct (send_returns (node (playerStore w1 !!! this))
              (opDestroy (guild (playerStore w1 !!! this))) w1) as [r' Hr].
  destruct (send_frame (node (playerStore w1 !!! this))
              (opDestroy (guild (playerStore w1 !!! this))) w1) as (Hps & Hmg & _).
  rewrite Hr. unfold_monad. world_norm.
  eexists. split; [reflexivity |]. world_norm.
  rewrite Hps, Hmg, Hm, Hg. split; reflexivity.
Qed.

(** C9: [destroy] does not throw, neither the first time nor the second; the
    first call removes the session of the guild from the manager's map and the
    second call leaves the map as the first one left it. *)
Theorem destroy_twice this w :
  let g := guild (playerStore w !!! this) in
  let w1 := exec (Player.destroy this) w in
  let w2 := exec (Player.destroy this) w1 in
  result (Player.destroy this) w = Ret tt /\
  players (manager w1) !! g = None /\
  result (Player.destroy this) w1 = Ret tt /\
  players (manager w2) = players (manager w1).
Proof.
  intros g w1 w2. subst w1 w2. unfold result, exec.
  destruct (destroy_removes this w) as (w1 & E1 & Hm1 & Hg1). rewrite E1. cbn [fst snd].
  destruct (destroy_removes this w1) as (w2 & E2 & Hm2 & Hg2). rewrite E2. cbn [fst snd].
  fold g in Hm1, Hg1. rewrite Hg1 in Hm2.
  split; [reflexivity |]. split; [rewrite Hm1; apply lookup_delete_eq |].
  split; [reflexivity |].
  rewrite Hm2, Hm1. apply delete_delete_eq.
Qed.

(** The second [destroy] still sends a [destroy] command and emits
    [playerDestroy], but asks the host for nothing. *)
Example destroy_twice_example :
  let w1 := exec (Player.destroy 0) Scenario.twoQueued in
  let w2 := exec (Player.destroy 0) w1 in
  players (manager Scenario.twoQueued) !! "guild-1" = Some 0%nat /\
  players (manager w1) = ∅ /\ players (manager w2) = ∅ /\
  transferred w2 = transferred w1 /\
  transmitted w2 0 = transmitted w1 0 ++ [opDestroy "guild-1"] /\
  emitted w2 = emitted w1 ++ [playerDestroy 0].
Proof. vm_compute. repeat split; reflexivity. Qed.

(** ** Voice correlation *)

Lemma connect_unfold player data w :
  Player.connect player data w =
    (Ret player,
     exec (Node.send (node (playerStore w !!! player))
             (opVoiceUpdate (guild (playerStore w !!! player)) (fst data) (snd data)))
       (w_playerStore
          <[player := p_voiceUpdateState (Some data) (playerStore w !!! player)]> w)).
Proof.
  unfold Player.connect. unfold_monad. world_norm.
  cbn [node guild p_voiceUpdateState].
  match goal with
  | |- context [Node.send ?n ?pl ?w0] => destruct (send_returns n pl w0) as [r Hr]; rewrite Hr
  end.
  reflexivity.
Qed.

(** C2, as amended: [connectionProcess] calls the player's [connect] exactly
    when the voice-server half is stored for the guild, a player exists for the
    guild and a session id is at hand, from the stored voice-state half or else
    from the player's previous [voiceUpdateState]; it then returns [true], and
    [connect] gets that session id and the stored server payload.  In every
    other case nothing is called and nothing changes; without the voice-server
    half, whatever else is stored, the result is [false]. *)
Theorem connectionProcess_establishes guildId w :
  let m := manager w in
  (forall server player sid,
     voiceServers m !! guildId = Some server ->
     players m !! guildId = Some player ->
     sessionIdFor w guildId player = Some sid ->
     Manager.connectionProcess guildId w
     = (Ret true, exec (Player.connect player (sid, server)) w)) /\
  (result (Manager.connectionProcess guildId) w = Ret true ->
     exists server player sid,
       voiceServers m !! guildId = Some server /\
       players m !! guildId = Some player /\
       sessionIdFor w guildId player = Some sid) /\
  (result (Manager.connectionProcess guildId) w <> Ret true ->
     exec (Manager.connectionProcess guildId) w = w) /\
  (voiceServers m !! guildId = None ->
     Manager.connectionProcess guildId w = (Ret false, w)).
Proof.
  intros m.
  assert (Hfire : forall server player sid,
     voiceServers m !! guildId = Some server ->
     players m !! guildId = Some player ->
     sessionIdFor w guildId player = Some sid ->
     Manager.connectionProcess guildId w
     = (Ret true, exec (Player.connect player (sid, server)) w)).
  { intros server player sid Hs Hp Hsid.
    unfold Manager.connectionProcess, sessionIdFor in *.
    unfold bind at 1. unfold gets at 1. fold m. rewrite Hs, Hp.
    unfold bind at 1. unfold getPlayer at 1, gets at 1.
    fold m in Hsid.
    destruct (voiceStates m !! guildId) as [st|].
    - injection Hsid as <-. unfold bind, ret, exec. rewrite connect_unfold. reflexivity.
    - destruct (voiceUpdateState (playerStore w !!! player)) as [v|]; [| discriminate].
      injection Hsid as <-. unfold bind, ret, exec. rewrite connect_unfold. reflexivity. }
  split; [exact Hfire |].
  assert (Hnone : forall o,
     Manager.connectionProcess guildId w = (o, w) -> o <> Ret true ->
     (forall server player sid,
        voiceServers m !! guildId = Some server -> players m !! guildId = Some player ->
        sessionIdFor w guildId player = Some sid -> False) ->
     (result (Manager.connectionProcess guildId) w = Ret true ->
      exists server player sid,
        voiceServers m !! guildId = Some server /\
        players m !! guildId = Some player /\
        sessionIdFor w guildId player = Some sid) /\
     (result (Manager.connectionProcess guildId) w <> Ret true ->
      exec (Manager.connectionProcess guildId) w = w)).
  { intros o E Ho _. unfold result, exec. rewrite E. cbn [fst snd].
    split; [intros H; contradiction | reflexivity]. }
  destruct (voiceServers m !! guildId) as [server|] eqn:Hs.
  - destruct (players m !! guildId) as [player|] eqn:Hp.
    + destruct (sessionIdFor w guildId player) as [sid|] eqn:Hsid.
      * unfold result, exec. rewrite (Hfire server player sid eq_refl eq_refl Hsid).
        cbn [fst snd]. repeat split.
        -- intros _. exists server, player, sid. auto.
        -- intros H. contradiction.
        -- discriminate.
      * assert (E : Manager.connectionProcess guildId w
                    = (Throw (TypeError
                         "Cannot read properties of undefined (reading 'sessionId')"), w)).
        { unfold Manager.connectionProcess, sessionIdFor in *.
          unfold bind at 1. unfold gets at 1. fold m. rewrite Hs, Hp.
          unfold bind at 1. unfold getPlayer at 1, gets at 1.
          fold m in Hsid.
          destruct (voiceStates m !! guildId) as [st|]; [discriminate Hsid |].
          destruct (voiceUpdateState (playerStore w !!! player));
            [discriminate Hsid | reflexivity]. }
        destruct (Hnone _ E) as [H1 H2]; [discriminate | intros; congruence |].
        repeat split; [exact H1 | exact H2 | discriminate].
    + assert (E : Manager.connectionProcess guildId w = (Ret false, w)).
      { unfold Manager.connectionProcess. unfold bind, gets. fold m. rewrite Hs, Hp.
        reflexivity. }
      destruct (Hnone _ E) as [H1 H2]; [discriminate | intros; congruence |].
      repeat split; [exact H1 | exact H2 | discriminate].
  - assert (E : Manager.connectionProcess guildId w = (Ret false, w)).
    { unfold Manager.connectionProcess. unfold bind, gets. fold m. rewrite Hs. reflexivity. }
    destruct (Hnone _ E) as [H1 H2]; [discriminate | intros; congruence |].
    repeat split; [exact H1 | exact H2 | intros _; exact E].
Qed.

Lemma connectionProcess_establishes_witness :
  Manager.connectionProcess "guild-1"
    (exec (Manager.voiceServersUpdate (Scenario.server "second")) Scenario.leftChannel)
  = (Ret true,
     exec (Player.connect 0 ("s1", Scenario.server "second"))
       (exec (Manager.voiceServersUpdate (Scenario.server "second")) Scenario.leftChannel)).
Proof.
  refine (proj1 (connectionProcess_establishes "guild-1"
                   (exec (Manager.voiceServersUpdate (Scenario.server "second"))
                      Scenario.leftChannel))
            (Scenario.server "second") 0%nat "s1" _ _ _);
    vm_compute; reflexivity.
Defined.

(** C2, as stated, fails: the bot had joined the room's channel, the voice
    link was made, and the bot left, which cleared both halves.  A new
    voice-server update then arrives alone: with no voice-state half stored,
    the player is connected again, with the session id of its previous link,
    and the update returns [true]. *)
Lemma connects_with_server_half_only :
  let update := Manager.voiceServersUpdate (Scenario.server "second") in
  let w := exec update Scenario.leftChannel in
  voiceStates (manager Scenario.leftChannel) !! "guild-1" = None /\
  voiceServers (manager Scenario.leftChannel) !! "guild-1" = None /\
  result update Scenario.leftChannel = Ret true /\
  voiceStates (manager w) !! "guild-1" = None /\
  transmitted w 0
    = transmitted Scenario.leftChannel 0
      ++ [opVoiceUpdate "guild-1" "s1" (Scenario.server "second")].
Proof. vm_compute. repeat split; reflexivity. Qed.

(** The two arrival orders on a new player: the voice state first and the
    server second makes the link at the second event; the server first throws
    in [connectionProcess], for want of a session id, and the voice state then
    makes the link.  Either way [connect] runs once, with both halves there. *)
Example both_arrival_orders :
  let state := Manager.voiceStateUpdate (Scenario.join "s1") in
  let server := Manager.voiceServersUpdate (Scenario.server "first") in
  let w := Scenario.withPlayer in
  let link := [opVoiceUpdate "guild-1" "s1" (Scenario.server "first")] in
  result state w = Ret (Some false) /\
  transmitted (exec state w) 0 = [] /\
  result server (exec state w) = Ret true /\
  transmitted (exec server (exec state w)) 0 = link /\
  result server w
    = Throw (TypeError "Cannot read properties of undefined (reading 'sessionId')") /\
  transmitted (exec server w) 0 = [] /\
  result state (exec server w) = Ret (Some true) /\
  transmitted (exec state (exec server w)) 0 = link.
Proof. vm_compute. repeat split; reflexivity. Qed.

(** * Further properties *)

(** ** The socket of a node *)

Lemma sendAll_connected this s ps : forall w,
  connected (nodeStore w !!! this) = true ->
  ws (nodeStore w !!! this) = Some s ->
  let w' := exec (sendAll this ps) w in
  result (sendAll this ps) w = Ret (map (fun _ => None) ps) /\
  nodeStore w' = nodeStore w /\
  ws_sent (wsStore w' !!! s) = ws_sent (wsStore w !!! s) ++ ps /\
  (forall s', s' <> s -> wsStore w' !!! s' = wsStore w !!! s').
Proof.
  induction ps as [|pl ps IH]; intros w Hc Hs w'.
  - subst w'. cbn. rewrite app_nil_r. repeat split; reflexivity.
  - set (w1 := w_wsStore <[s := s_sent (fun l => l ++ [pl]) (wsStore w !!! s)]> w).
    assert (E : sendAll this (pl :: ps) w =
                (match result (sendAll this ps) w1 with
                 | Ret rs => Ret (None :: rs)
                 | Throw e => Throw e
                 end, exec (sendAll this ps) w1)).
    { cbn [sendAll]. unfold bind, result, exec. rewrite send_unfold. cbv zeta.
      rewrite Hc, Hs. fold w1.
      destruct (sendAll this ps w1) as [[rs|e] w2]; reflexivity. }
    destruct (IH w1 Hc Hs) as (Hr & Hn & Hsent & Hother).
    subst w'. unfold result, exec in *. rewrite E. cbn [fst snd].
    rewrite Hr, Hn, Hsent. subst w1. cbn [nodeStore wsStore w_wsStore].
    rewrite lookup_total_insert_eq. cbn [ws_sent s_sent].
    rewrite <- app_assoc.
    repeat split; try reflexivity.
    intros s' Hne. rewrite (Hother s' Hne). cbn [wsStore w_wsStore].
    apply lookup_total_insert_ne. congruence.
Qed.

(** X1: payloads sent while the node is connected go to its socket in the
    order of the calls; [send] returns nothing for them, the backlog and the
    other sockets are left as they were. *)
Theorem connected_sends_in_order this s ps w :
  connected (nodeStore w !!! this) = true ->
  ws (nodeStore w !!! this) = Some s ->
  let w' := exec (sendAll this ps) w in
  result (sendAll this ps) w = Ret (map (fun _ => None) ps) /\
  ws_sent (wsStore w' !!! s) = ws_sent (wsStore w !!! s) ++ ps /\
  packetQueue (nodeStore w' !!! this) = packetQueue (nodeStore w !!! this) /\
  (forall s', s' <> s -> wsStore w' !!! s' = wsStore w !!! s').
Proof.
  intros Hc Hs w'.
  destruct (sendAll_connected this s ps w Hc Hs) as (Hr & Hn & Hsent & Hother).
  fold w' in Hn, Hsent, Hother. rewrite Hn. repeat split; assumption.
Qed.

Lemma connected_sends_in_order_witness :
  ws_sent (wsStore (exec (sendAll 0 [opStop "g"; opDestroy "g"]) Scenario.twoQueued) !!! 0%nat)
  = ws_sent (wsStore Scenario.twoQueued !!! 0%nat) ++ [opStop "g"; opDestroy "g"].
Proof.
  refine (proj1 (proj2 (connected_sends_in_order 0 0%nat [opStop "g"; opDestroy "g"]
                          Scenario.twoQueued _ _))); vm_compute; reflexivity.
Defined.

(** X2: [destroy] on a node leaves its [connected] flag alone, so on a node
    that was connected a payload sent afterwards is lost: it is neither put on
    the backlog nor given to a socket. *)
Theorem send_after_destroy_is_lost this reason pl w :
  connected (nodeStore w !!! this) = true ->
  let w1 := exec (Node.destroy this reason) w in
  connected (nodeStore w1 !!! this) = true /\
  ws (nodeStore w1 !!! this) = None /\
  Node.send this pl w1 = (Ret None, w1).
Proof.
  intros Hc w1.
  assert (Hn : nodeStore w1 !!! this = n_ws None (nodeStore w !!! this)).
  { subst w1. unfold Node.destroy. unfold_monad.
    destruct (ws (nodeStore w !!! this)); world_norm; reflexivity. }
  rewrite send_unfold. cbv zeta. rewrite Hn. cbn [connected ws n_ws]. rewrite Hc.
  repeat split; reflexivity.
Qed.

Lemma send_after_destroy_is_lost_witness :
  Node.send 0 (opStop "g") (exec (Node.destroy 0 None) Scenario.online)
  = (Ret None, exec (Node.destroy 0 None) Scenario.online).
Proof.
  refine (proj2 (proj2 (send_after_destroy_is_lost 0 None (opStop "g") Scenario.online _))).
  vm_compute. reflexivity.
Defined.

(** ** Reconnecting, continued *)

Lemma filter_fresh (t : TimerId) (l : list (TimerId * (NodeRef * Z))) :
  Forall (fun e => fst e <> t) l -> filter (fun e => fst e <> t) l = l.
Proof.
  induction 1 as [|e l He _ IH]; [reflexivity |].
  rewrite filter_cons. destruct (decide (fst e <> t)); [| contradiction].
  rewrite IH. reflexivity.
Qed.

Lemma fireTimer_absent t w :
  Forall (fun e => fst e <> t) (timers w) -> fireTimer t w = (Ret tt, w).
Proof.
  intros H. unfold fireTimer. unfold_monad.
  destruct (list_find (fun e : TimerId * (NodeRef * Z) => fst e = t) (timers w))
    as [[i e]|] eqn:Hf; [| reflexivity].
  apply list_find_Some in Hf as (Hl & He & _).
  rewrite Forall_forall in H. exfalso. apply (H e); [| exact He].
  apply list_elem_of_lookup. eauto.
Qed.

(** X3: [close] with the normal code 1000 schedules nothing; with any other
    code it schedules one reconnect, and when the socket then opens, that
    reconnect is cancelled: the pending timers are the ones from before, and
    the cancelled timer does nothing if it is fired. *)
Theorem open_cancels_the_reconnect this code w :
  Forall (fun e => fst e <> nextTimer w) (timers w) ->
  let t := nextTimer w in
  let delay := n_reconnAfter (nodeStore w !!! this) in
  let w1 := exec (Node.close this code) w in
  let w2 := exec (Node.open this) w1 in
  (code = 1000 -> timers w1 = timers w /\ nodeStore w1 = nodeStore w) /\
  (code <> 1000 ->
     timers w1 = timers w ++ [(t, (this, delay))] /\
     reconn (nodeStore w1 !!! this) = Some t /\
     timers w2 = timers w /\
     fireTimer t w2 = (Ret tt, w2)).
Proof.
  intros Hfresh t delay w1 w2. split.
  - intros ->. subst w1. unfold Node.close. unfold_monad. cbn. split; reflexivity.
  - intros Hcode. apply Z.eqb_neq in Hcode.
    assert (E1 : w1 = w_nodeStore <[this := n_reconn (Some t) (nodeStore w !!! this)]>
                        (w_nextTimer (S t)
                           (w_timers (fun l => l ++ [(t, (this, delay))])
                              (w_emitted (fun l => l ++ [nodeClose code this]) w)))).
    { subst w1. unfold Node.close, Node.reconnect, setTimeout. unfold_monad.
      rewrite Hcode. reflexivity. }
    assert (Ht1 : timers w1 = timers w ++ [(t, (this, delay))]) by (rewrite E1; reflexivity).
    assert (Hn1 : nodeStore w1 !!! this = n_reconn (Some t) (nodeStore w !!! this)).
    { rewrite E1. cbn. apply lookup_total_insert_eq. }
    assert (Ht2 : timers w2 = timers w).
    { subst w2. unfold Node.open, clearTimeout. unfold_monad. rewrite Hn1.
      cbn [reconn n_reconn n_resumeKey n_resumeTout].
      assert (Hf : filter (fun e : TimerId * (NodeRef * Z) => fst e <> t) (timers w1) = timers w).
      { rewrite Ht1, filter_app, (filter_fresh t (timers w) Hfresh), filter_cons. cbn [fst].
        destruct (decide (t <> t)); [congruence |]. apply app_nil_r. }
      destruct (n_resumeKey (nodeStore w !!! this)) as [key|]; cbn [Js.truthyStr];
        try destruct (negb (String.eqb key "")).
      all: try match goal with
           | |- context [Node.send ?a ?b ?c] =>
               destruct (send_returns a b c) as [r Hr]; rewrite Hr;
               destruct (send_frame a b c) as (_ & _ & _ & _ & Htm & _)
           end.
      all: store_norm; cbn beta iota; rewrite ?Htm; store_norm; exact Hf. }
    repeat split; try assumption.
    + rewrite Hn1. reflexivity.
    + apply fireTimer_absent. rewrite Ht2. exact Hfresh.
Qed.

Lemma open_cancels_the_reconnect_witness :
  timers (exec (Node.open 0) (exec (Node.close 0 1006) Scenario.online))
  = timers Scenario.online.
Proof.
  pose proof (open_cancels_the_reconnect 0 1006 Scenario.online) as H.
  cbv zeta in H. destruct H as (_ & H); [vm_compute; constructor |].
  destruct H as (_ & _ & H & _); [lia | exact H].
Defined.

Lemma sortInsert_ext {A : Type} (cmp cmp' : A -> A -> number) x l :
  (forall a b, cmp a b = cmp' a b) -> Js.sortInsert cmp x l = Js.sortInsert cmp' x l.
Proof.
  intros H. induction l as [|y l IH]; cbn [Js.sortInsert]; [reflexivity |].
  unfold Js.before, Js.sortCompare. rewrite H, IH. reflexivity.
Qed.

Lemma sort_ext {A : Type} (cmp cmp' : A -> A -> number) l :
  (forall a b, cmp a b = cmp' a b) -> Js.sort cmp l = Js.sort cmp' l.
Proof.
  intros H. induction l as [|x l IH]; cbn [Js.sort]; [reflexivity |].
  rewrite IH. apply sortInsert_ext, H.
Qed.

(** The selection looks at the node map, the [connected] flags and the stats
    only. *)
Lemma leastUsedNodes_ext w w' :
  nodes (manager w') = nodes (manager w) ->
  (forall r, connected (nodeStore w' !!! r) = connected (nodeStore w !!! r)) ->
  (forall r, stats (nodeStore w' !!! r) = stats (nodeStore w !!! r)) ->
  Manager.leastUsedNodes w' = Manager.leastUsedNodes w.
Proof.
  intros Hn Hc Hs. unfold Manager.leastUsedNodes. rewrite Hn.
  rewrite (List.filter_ext _ (fun r => connected (nodeStore w !!! r)))
    by (intros r; apply Hc).
  apply sort_ext. intros a b. unfold Manager.load. rewrite !Hs. reflexivity.
Qed.

Lemma reconnect_keeps_selection this w :
  Manager.leastUsedNodes (exec (Node.reconnect this) w) = Manager.leastUsedNodes w.
Proof.
  unfold Node.reconnect, setTimeout. unfold_monad. world_norm.
  apply leastUsedNodes_ext; [reflexivity | |]; intros r; cbn [nodeStore];
    (destruct (decide (this = r)) as [<-|Hne];
     [rewrite lookup_total_insert_eq | rewrite lookup_total_insert_ne by exact Hne]);
    reflexivity.
Qed.

(** [connect] on a node: the live socket, if there is one, is closed, and the
    node gets a new socket. *)
Lemma node_connect_unfold this w :
  Node.connect this w =
    (Ret tt,
     w_nodeStore <[this := n_ws (Some (nextWs w)) (nodeStore w !!! this)]>
       (w_nextWs (S (nextWs w))
          (w_wsStore <[nextWs w := socketOf (user (manager w)) (nodeStore w !!! this)]>
             (match ws (nodeStore w !!! this) with
              | Some s => w_wsStore <[s := s_closed None (wsStore w !!! s)]> w
              | None => w
              end)))).
Proof.
  unfold Node.connect, Node.newSocket, socketOf. unfold_monad.
  destruct (ws (nodeStore w !!! this)); reflexivity.
Qed.

Lemma reconnectCallback_node this w :
  nodeStore (exec (Node.reconnectCallback this) w) !!! this
  = n_ws (Some (nextWs w)) (n_connected false (nodeStore w !!! this)).
Proof.
  unfold Node.reconnectCallback, Node.connect, Node.newSocket. unfold_monad. world_norm.
  cbn [ws n_connected n_ws].
  destruct (ws (nodeStore w !!! this)); world_norm; cbn [ws n_ws]; world_norm; reflexivity.
Qed.

(** X4: a node whose socket has closed or reported an error keeps its
    [connected] flag, so it stays among the least used nodes, in the same
    place, until the reconnect callback runs; from then on it is left out. *)
Theorem closed_node_stays_selectable this code w :
  Manager.leastUsedNodes (exec (Node.close this code) w) = Manager.leastUsedNodes w /\
  Manager.leastUsedNodes (exec (Node.error this code) w) = Manager.leastUsedNodes w /\
  this ∉ Manager.leastUsedNodes (exec (Node.reconnectCallback this) w).
Proof.
  repeat split.
  - unfold Node.close. unfold bind at 1. unfold emit at 1, modify at 1. unfold exec.
    destruct (negb (code =? 1000)).
    + change ((Node.reconnect this (w_emitted (fun l => l ++ [nodeClose code this]) w)).2)
        with (exec (Node.reconnect this) (w_emitted (fun l => l ++ [nodeClose code this]) w)).
      rewrite reconnect_keeps_selection. reflexivity.
    + reflexivity.
  - unfold Node.error. unfold bind at 1. unfold emit at 1, modify at 1. unfold exec.
    change ((Node.reconnect this (w_emitted (fun l => l ++ [nodeError code this]) w)).2)
      with (exec (Node.reconnect this) (w_emitted (fun l => l ++ [nodeError code this]) w)).
    rewrite reconnect_keeps_selection. reflexivity.
  - rewrite leastUsedNodes_connected. intros Hin.
    apply list_elem_of_In, List.filter_In in Hin as [_ Hc].
    rewrite reconnectCallback_node in Hc. discriminate Hc.
Qed.

(** X5: the reconnect callback marks the node as not connected, keeps its
    backlog and its stats, and gives it a new socket that has been sent
    nothing.  The old socket loses the node's handlers but is not closed. *)
Theorem reconnect_abandons_the_socket this s w :
  ws (nodeStore w !!! this) = Some s ->
  s <> nextWs w ->
  let w' := exec (Node.reconnectCallback this) w in
  let s' := nextWs w in
  result (Node.reconnectCallback this) w = Ret tt /\
  connected (nodeStore w' !!! this) = false /\
  ws (nodeStore w' !!! this) = Some s' /\
  packetQueue (nodeStore w' !!! this) = packetQueue (nodeStore w !!! this) /\
  stats (nodeStore w' !!! this) = stats (nodeStore w !!! this) /\
  ws_sent (wsStore w' !!! s') = [] /\
  ws_closed (wsStore w' !!! s') = None /\
  ws_listening (wsStore w' !!! s') = true /\
  ws_listening (wsStore w' !!! s) = false /\
  ws_closed (wsStore w' !!! s) = ws_closed (wsStore w !!! s) /\
  ws_sent (wsStore w' !!! s) = ws_sent (wsStore w !!! s) /\
  emitted w' = emitted w ++ [nodeReconnect this].
Proof.
  intros Hs Hne w' s'. subst w' s'.
  split.
  { unfold Node.reconnectCallback, Node.connect, Node.newSocket. unfold_monad. world_norm.
    cbn [ws n_connected n_ws]. rewrite Hs. world_norm. cbn [ws n_ws]. reflexivity. }
  rewrite reconnectCallback_node. cbn [connected ws packetQueue stats n_ws n_connected].
  unfold Node.reconnectCallback, Node.connect, Node.newSocket. unfold_monad. world_norm.
  cbn [ws n_connected n_ws]. rewrite Hs. world_norm. cbn [ws n_ws]. world_norm.
  rewrite (lookup_total_insert_ne _ (nextWs w) s) by congruence.
  rewrite lookup_total_insert_eq.
  repeat split; reflexivity.
Qed.

Lemma reconnect_abandons_the_socket_witness :
  ws_closed (wsStore (exec (Node.reconnectCallback 0) Scenario.online) !!! 0%nat)
  = ws_closed (wsStore Scenario.online !!! 0%nat).
Proof.
  pose proof (reconnect_abandons_the_socket 0 0%nat Scenario.online) as H.
  cbv zeta in H.
  destruct H as (_ & _ & _ & _ & _ & _ & _ & _ & _ & H & _);
    [vm_compute; reflexivity | vm_compute; discriminate | exact H].
Defined.

(** X6: [connect] on a node that has a socket closes that socket and gives
    the node a new one, which has been sent nothing and carries the resume key
    in its headers exactly when the node has one.  The [connected] flag and the
    backlog are not touched. *)
Theorem connect_replaces_the_socket this s w :
  ws (nodeStore w !!! this) = Some s ->
  s <> nextWs w ->
  let n := nodeStore w !!! this in
  let w' := exec (Node.connect this) w in
  let s' := nextWs w in
  ws (nodeStore w' !!! this) = Some s' /\
  ws_closed (wsStore w' !!! s) = Some None /\
  ws_sent (wsStore w' !!! s') = [] /\
  ws_closed (wsStore w' !!! s') = None /\
  (("Resume-Key", n_resumeKey n) ∈ ws_headers (wsStore w' !!! s')
   <-> Js.truthyStr (n_resumeKey n) = true) /\
  connected (nodeStore w' !!! this) = connected n /\
  packetQueue (nodeStore w' !!! this) = packetQueue n.
Proof.
  intros Hs Hne n w' s'. subst w' s'. unfold exec. rewrite node_connect_unfold, Hs.
  fold n.
  cbn [snd nodeStore wsStore w_nodeStore w_nextWs w_wsStore].
  rewrite !lookup_total_insert_eq.
  rewrite (lookup_total_insert_ne _ (nextWs w) s) by exact (not_eq_sym Hne).
  rewrite lookup_total_insert_eq.
  cbn [ws n_ws connected packetQueue ws_closed s_closed ws_sent ws_headers socketOf].
  repeat split.
  - intros Hin. destruct (Js.truthyStr (n_resumeKey n)); [reflexivity |].
    rewrite app_nil_r in Hin.
    repeat (apply elem_of_cons in Hin as [Hin|Hin]; [discriminate Hin |]).
    apply elem_of_nil in Hin. contradiction.
  - intros ->. apply elem_of_app. right. left.
Qed.

Lemma connect_replaces_the_socket_witness :
  ws_closed (wsStore (exec (Node.connect 0) Scenario.online) !!! 0%nat) = Some None.
Proof.
  pose proof (connect_replaces_the_socket 0 0%nat Scenario.online) as H.
  cbv zeta in H.
  destruct H as (_ & H & _); [vm_compute; reflexivity | vm_compute; discriminate | exact H].
Defined.

(** ** The node map *)

Lemma mapGet_mapSet_eq {A : Type} k (v : A) l : mapGet k (mapSet k v l) = Some v.
Proof.
  induction l as [|[k' v'] l IH]; cbn [mapSet mapGet].
  - rewrite String.eqb_refl. reflexivity.
  - destruct (String.eqb_spec k' k) as [->|Hne]; cbn [mapGet].
    + rewrite String.eqb_refl. reflexivity.
    + apply String.eqb_neq in Hne. rewrite Hne. exact IH.
Qed.

Lemma mapGet_mapSet_ne {A : Type} k k' (v : A) l :
  k' <> k -> mapGet k' (mapSet k v l) = mapGet k' l.
Proof.
  intros Hne. induction l as [|[k0 v0] l IH]; cbn [mapSet mapGet].
  - destruct (String.eqb_spec k k'); [congruence | reflexivity].
  - destruct (String.eqb_spec k0 k) as [->|Hk]; cbn [mapGet].
    + destruct (String.eqb_spec k k'); [congruence | reflexivity].
    + destruct (String.eqb_spec k0 k'); [reflexivity | exact IH].
Qed.

Lemma mapGet_mapDelete_ne {A : Type} k k' (l : list (string * A)) :
  k' <> k -> mapGet k' (mapDelete k l) = mapGet k' l.
Proof.
  intros Hne. induction l as [|[k0 v0] l IH]; cbn [mapDelete mapGet]; [reflexivity |].
  destruct (String.eqb_spec k0 k) as [->|Hk]; cbn [mapGet].
  - destruct (String.eqb_spec k k'); [congruence | reflexivity].
  - destruct (String.eqb_spec k0 k'); [reflexivity | exact IH].
Qed.

Lemma mapGet_None {A : Type} k (l : list (string * A)) :
  k ∉ map fst l -> mapGet k l = None.
Proof.
  induction l as [|[k0 v0] l IH]; cbn [mapGet map fst]; [reflexivity |].
  intros Hn. apply not_elem_of_cons in Hn as [Hk Hl].
  destruct (String.eqb_spec k0 k); [congruence | apply IH, Hl].
Qed.

Lemma mapGet_mapDelete_eq {A : Type} k (l : list (string * A)) :
  NoDup (map fst l) -> mapGet k (mapDelete k l) = None.
Proof.
  induction l as [|[k0 v0] l IH]; cbn [mapDelete mapGet map fst]; [reflexivity |].
  intros Hnd. apply NoDup_cons in Hnd as [Hk Hl].
  destruct (String.eqb_spec k0 k) as [->|Hne]; cbn [mapGet].
  - apply mapGet_None, Hk.
  - apply String.eqb_neq in Hne. rewrite Hne. apply IH, Hl.
Qed.

Lemma mapSet_keys {A : Type} k (v : A) l :
  map fst (mapSet k v l) = if bool_decide (k ∈ map fst l) then map fst l else map fst l ++ [k].
Proof.
  induction l as [|[k0 v0] l IH]; cbn [mapSet map fst]; [reflexivity |].
  destruct (String.eqb_spec k0 k) as [->|Hne]; cbn [map fst].
  - rewrite bool_decide_eq_true_2 by (left). reflexivity.
  - rewrite IH. destruct (bool_decide (k ∈ map fst l)) eqn:Hb.
    + apply bool_decide_eq_true in Hb.
      rewrite bool_decide_eq_true_2 by (right; exact Hb). reflexivity.
    + apply bool_decide_eq_false in Hb.
      rewrite bool_decide_eq_false_2; [reflexivity |].
      intros Hin. apply elem_of_cons in Hin as [->|Hin]; [congruence | contradiction].
Qed.

Lemma mapSet_NoDup {A : Type} k (v : A) l :
  NoDup (map fst l) -> NoDup (map fst (mapSet k v l)).
Proof.
  intros Hnd. rewrite mapSet_keys. destruct (bool_decide (k ∈ map fst l)) eqn:Hb; [exact Hnd |].
  apply bool_decide_eq_false in Hb.
  apply NoDup_app. repeat split; [exact Hnd | | apply NoDup_singleton].
  intros x Hx Hx'. apply list_elem_of_singleton in Hx'. subst x. contradiction.
Qed.

(** What [buildNode] leaves behind: the node under its key, not connected,
    with a socket of its own that has been sent nothing. *)
Lemma buildNode_unfold o w :
  let r := nextNode w in
  let w' := exec (Manager.buildNode o) w in
  Manager.buildNode o w = (Ret r, w') /\
  manager w' = m_nodes (mapSet (nodeKey o) r) (manager w) /\
  nextNode w' = S r /\
  connected (nodeStore w' !!! r) = false /\
  ws (nodeStore w' !!! r) = Some (nextWs w) /\
  n_host (nodeStore w' !!! r) = host o /\
  (forall r', r' <> r -> nodeStore w' !!! r' = nodeStore w !!! r') /\
  playerStore w' = playerStore w /\ emitted w' = emitted w /\
  transferred w' = transferred w /\ timers w' = timers w.
Proof.
  intros r w'.
  set (n0 := nodeStore (exec (Node.new o) w) !!! r).
  set (w1 := w_manager (m_nodes (mapSet (nodeKey o) r)) (exec (Node.new o) w)).
  assert (Hn1 : nodeStore w1 !!! r = n0) by reflexivity.
  assert (Hn0 : connected n0 = false /\ ws n0 = None /\ n_host n0 = host o).
  { subst n0. unfold Node.new, exec. cbn [snd nodeStore w_nextNode w_nodeStore].
    rewrite lookup_total_insert_eq. repeat split. }
  destruct Hn0 as (Hc0 & Hws0 & Hh0).
  pose proof (node_connect_unfold r w1) as Ec.
  rewrite Hn1, Hws0 in Ec.
  set (sock := socketOf (user (manager w1)) n0) in Ec.
  assert (E : Manager.buildNode o w =
              (Ret r, w_nodeStore <[r := n_ws (Some (nextWs w)) n0]>
                        (w_nextWs (S (nextWs w)) (w_wsStore <[nextWs w := sock]> w1)))).
  { assert (Hb : Manager.buildNode o w =
                 (n <- Node.new o;;
                  modify (w_manager (m_nodes (mapSet (nodeKey o) n)));;
                  Node.connect n;; ret n) w).
    { unfold Manager.buildNode, nodeKey. destruct (Js.truthyStr (id o)); reflexivity. }
    rewrite Hb. unfold bind, modify, ret.
    change (Node.new o w) with (Ret r, exec (Node.new o) w). cbv beta iota.
    change (w_manager (m_nodes (mapSet (nodeKey o) r)) (exec (Node.new o) w)) with w1.
    rewrite Ec. reflexivity. }
  subst w'. unfold exec at 1 2 3 4 5 6 7 8 9 10 11. rewrite E. cbn [fst snd].
  cbn [manager nextNode nodeStore playerStore emitted transferred timers
       w_nodeStore w_nextWs w_wsStore].
  rewrite lookup_total_insert_eq. cbn [connected ws n_host n_ws].
  split; [reflexivity |]. split; [reflexivity |]. split; [reflexivity |].
  split; [exact Hc0 |]. split; [reflexivity |]. split; [exact Hh0 |].
  split.
  - intros r' Hne. rewrite lookup_total_insert_ne by exact (not_eq_sym Hne).
    subst w1. unfold Node.new, exec. cbn [snd nodeStore w_manager w_nextNode w_nodeStore].
    apply lookup_total_insert_ne. exact (not_eq_sym Hne).
  - repeat split; reflexivity.
Qed.

(** X7: [destroy] on a node removes the entry of the node map that is under
    the node's host.  A node built without an id is unregistered by it; a node
    built with an id is registered under the id and stays registered. *)
Theorem destroy_unregisters_by_host o reason w :
  NoDup (map fst (nodes (manager w))) ->
  let r := nextNode w in
  let w' := exec (Node.destroy r reason) (exec (Manager.buildNode o) w) in
  (Js.truthyStr (id o) = false -> mapGet (host o) (nodes (manager w')) = None) /\
  (Js.truthyStr (id o) = true -> nodeKey o <> host o ->
     mapGet (nodeKey o) (nodes (manager w')) = Some r) /\
  ws (nodeStore w' !!! r) = None /\
  ws_closed (wsStore w' !!! nextWs w) = Some (Some (1000, Js.nullish reason "destroy")).
Proof.
  intros Hnd r w'.
  destruct (buildNode_unfold o w) as (_ & Hm & _ & _ & Hws & Hh & _).
  fold r in Hm, Hws, Hh.
  set (w1 := exec (Manager.buildNode o) w) in *.
  assert (E : w' = w_manager (m_nodes (mapDelete (host o)))
                     (w_nodeStore <[r := n_ws None (nodeStore w1 !!! r)]>
                        (w_wsStore <[nextWs w := s_closed (Some (1000, Js.nullish reason "destroy"))
                                                   (wsStore w1 !!! nextWs w)]> w1))).
  { subst w'. unfold Node.destroy. unfold_monad. rewrite Hws, Hh. world_norm. reflexivity. }
  rewrite E. cbn [manager w_manager w_nodeStore w_wsStore nodes m_nodes nodeStore wsStore].
  rewrite Hm. cbn [nodes m_nodes]. rewrite !lookup_total_insert_eq.
  repeat split.
  - intros Hid. unfold nodeKey. rewrite Hid.
    apply mapGet_mapDelete_eq, mapSet_NoDup, Hnd.
  - intros _ Hne. rewrite mapGet_mapDelete_ne by exact Hne. apply mapGet_mapSet_eq.
Qed.

Lemma destroy_unregisters_by_host_witness :
  mapGet "A" (nodes (manager (exec (Node.destroy 0 None)
                                (exec (Manager.buildNode Scenario.optionsA) (initial [])))))
  = Some 0%nat.
Proof.
  pose proof (destroy_unregisters_by_host Scenario.optionsA None (initial [])) as H.
  cbv zeta in H. destruct H as (_ & H & _); [constructor |].
  apply H; vm_compute; [reflexivity | discriminate].
Defined.

(** ** Commands of a player *)

Ltac send_returns_here :=
  match goal with
  | |- context [Node.send ?n ?pl ?w0] => destruct (send_returns n pl w0) as [? ->]
  end.

Lemma pause_unfold this st w :
  queue (playerStore w !!! this) <> [] ->
  let p := playerStore w !!! this in
  Player.pause this st w =
    (Ret this,
     exec (Node.send (node p) (opPause (guild p) st))
       (w_playerStore <[this := p_paused st (p_playing (negb st) p)]> w)).
Proof.
  intros Hq p. unfold Player.pause. unfold_monad. fold p.
  destruct (queue p) eqn:E; [exfalso; apply Hq; exact E |].
  world_norm. send_returns_here. reflexivity.
Qed.

(** X8: [pause] on an empty queue does nothing at all, not even to the two
    flags.  On a queue with entries it sends the [pause] command and leaves
    the [playing] and [paused] flags opposite to each other. *)
Theorem pause_sets_opposite_flags this st w :
  let p := playerStore w !!! this in
  let p' := playerStore (exec (Player.pause this st) w) !!! this in
  (queue p = [] -> Player.pause this st w = (Ret this, w)) /\
  (queue p <> [] ->
     Player.pause this st w =
       (Ret this,
        exec (Node.send (node p) (opPause (guild p) st))
          (w_playerStore <[this := p_paused st (p_playing (negb st) p)]> w)) /\
     paused p' = st /\ playing p' = negb st /\ queue p' = queue p).
Proof.
  intros p p'. split.
  - intros Hq. unfold Player.pause. unfold_monad. fold p. rewrite Hq. reflexivity.
  - intros Hq. split; [apply pause_unfold, Hq |].
    subst p'. unfold exec at 1 2 3. rewrite (pause_unfold this st w Hq). cbn [snd]. fold p.
    match goal with
    | |- context [exec (Node.send ?n ?pl) ?w0] =>
        destruct (send_frame n pl w0) as (Hps & _); rewrite Hps
    end.
    cbn [playerStore w_playerStore]. rewrite lookup_total_insert_eq.
    repeat split; reflexivity.
Qed.

Lemma pause_sets_opposite_flags_witness :
  playing (playerStore (exec (Player.pause 0 true) Scenario.twoQueued) !!! 0%nat) = false.
Proof.
  pose proof (pause_sets_opposite_flags 0 true Scenario.twoQueued) as H. cbv zeta in H.
  destruct H as (_ & H). destruct H as (_ & _ & H & _); [vm_compute; discriminate | exact H].
Defined.

(** X9: [play] on an empty queue returns [null] and does nothing.  Otherwise
    it sends [play] for the head of the queue, with start time 0, volume 100,
    no replacing and no pause where the options say nothing, and records the
    head as the current track; the head stays in the queue, and the [paused]
    flag and the volume of the player are not changed by the options. *)
Theorem play_keeps_the_queue this options w :
  let p := playerStore w !!! this in
  let p' := playerStore (exec (Player.play this options) w) !!! this in
  (queue p = [] -> Player.play this options w = (Ret None, w)) /\
  (forall t q, queue p = t :: q ->
     Player.play this options w =
       (Ret (Some this),
        exec (Node.send (node p)
                (opPlay (guild p) (track t)
                   (Js.nullish (po_startTime options) 0%float)
                   (Js.nullish (po_volume options) 100%float)
                   (Js.nullish (po_noReplace options) false)
                   (Js.nullish (po_pause options) false)))
          (w_playerStore
             <[this := p_timestamp (now w) (p_setTrack (Some t) (p_playing true p))]> w)) /\
     queue p' = t :: q /\ playing p' = true /\ p_track p' = Some t /\
     paused p' = paused p /\ volume p' = volume p).
Proof.
  intros p p'. split.
  - intros Hq. unfold Player.play. unfold_monad. fold p. rewrite Hq. reflexivity.
  - intros t q Hq.
    assert (E : Player.play this options w =
       (Ret (Some this),
        exec (Node.send (node p)
                (opPlay (guild p) (track t)
                   (Js.nullish (po_startTime options) 0%float)
                   (Js.nullish (po_volume options) 100%float)
                   (Js.nullish (po_noReplace options) false)
                   (Js.nullish (po_pause options) false)))
          (w_playerStore
             <[this := p_timestamp (now w) (p_setTrack (Some t) (p_playing true p))]> w))).
    { unfold Player.play. unfold_monad. fold p. rewrite Hq.
      world_norm. send_returns_here. unfold exec. world_norm. reflexivity. }
    split; [exact E |].
    subst p'. unfold exec at 1 2 3 4 5. rewrite E. cbn [snd].
    match goal with
    | |- context [exec (Node.send ?n ?pl) ?w0] =>
        destruct (send_frame n pl w0) as (Hps & _); rewrite Hps
    end.
    cbn [playerStore w_playerStore]. rewrite lookup_total_insert_eq.
    cbn [queue playing p_track paused volume p_timestamp p_setTrack p_playing].
    repeat split; try reflexivity. exact Hq.
Qed.

Lemma play_keeps_the_queue_witness :
  queue (playerStore (exec (Player.play 0 Player.noOptions) Scenario.twoQueued) !!! 0%nat)
  = [Scenario.t1; Scenario.t2].
Proof.
  pose proof (play_keeps_the_queue 0 Player.noOptions Scenario.twoQueued) as H. cbv zeta in H.
  destruct H as (_ & H).
  destruct (H Scenario.t1 [Scenario.t2]) as (_ & Hq & _); [vm_compute; reflexivity | exact Hq].
Defined.

(** X10: [seek] and [setVolume] reject [NaN], changing and sending nothing,
    and reject nothing else: any other number is stored and sent as it is,
    whether or not the player is playing. *)
Theorem seek_and_volume_reject_nan_only this x w :
  let p := playerStore w !!! this in
  (PrimFloat.is_nan x = true ->
     Player.seek this x w = (Throw (RangeError "Position must be a number"), w) /\
     Player.setVolume this x w = (Throw (RangeError "Volume level must be a number"), w)) /\
  (PrimFloat.is_nan x = false ->
     Player.seek this x w =
       (Ret this,
        exec (Node.send (node p) (opSeek (guild p) x))
          (w_playerStore <[this := p_position x p]> w)) /\
     Player.setVolume this x w =
       (Ret this,
        exec (Node.send (node p) (opVolume (guild p) x))
          (w_playerStore <[this := p_volume x p]> w))).
Proof.
  intros p. unfold Player.seek, Player.setVolume. split; intros ->.
  - split; reflexivity.
  - unfold_monad. fold p. split; send_returns_here; reflexivity.
Qed.

Lemma seek_and_volume_reject_nan_only_witness :
  Player.seek 0 (-5)%float Scenario.withPlayer
  = (Ret 0%nat,
     exec (Node.send (node (playerStore Scenario.withPlayer !!! 0%nat))
             (opSeek (guild (playerStore Scenario.withPlayer !!! 0%nat)) (-5)%float))
       (w_playerStore
          <[0%nat := p_position (-5)%float (playerStore Scenario.withPlayer !!! 0%nat)]>
          Scenario.withPlayer)).
Proof.
  refine (proj1 (proj2 (seek_and_volume_reject_nan_only 0 (-5)%float Scenario.withPlayer) _)).
  reflexivity.
Defined.

(** ** Events of a player *)

Lemma knownEvent_cases t :
  knownEvent t = true ->
  t = "TrackStartEvent" \/ t = "TrackEndEvent" \/ t = "TrackStuckEvent"
  \/ t = "TrackExceptionEvent" \/ t = "WebSocketClosedEvent".
Proof.
  unfold knownEvent. intros H.
  repeat (apply orb_true_iff in H as [H|H]);
    apply String.eqb_eq in H; auto 6.
Qed.

(** The [TrackEndEvent] case returns. *)
Lemma trackEnd_returns this data w :
  lo_type data = "TrackEndEvent" ->
  exists w', Player.lavalinkEvent this data w = (Ret tt, w').
Proof.
  intros Ht. unfold Player.lavalinkEvent. rewrite Ht.
  unfold bind at 1. unfold getPlayer at 1, gets at 1.
  cbn [String.eqb Ascii.eqb Bool.eqb].
  set (p := playerStore w !!! this).
  destruct (trackRepeat p); [rewrite replay_unfold; eauto |].
  destruct (queueRepeat p && (length (queue p) <=? 1)%nat
            && String.eqb (lo_reason data) "FINISHED"); [rewrite replay_unfold; eauto |].
  destruct ((length (queue p) <=? 1)%nat && String.eqb (lo_reason data) "FINISHED").
  { unfold bind at 1. unfold emit at 1, modify at 1. rewrite clearAndStop_unfold. eauto. }
  destruct ((2 <=? length (queue p))%nat && String.eqb (lo_reason data) "STOPPED");
    [rewrite advance_unfold; eauto |].
  destruct ((length (queue p) <=? 1)%nat && String.eqb (lo_reason data) "STOPPED");
    [rewrite clearAndStop_unfold; eauto |].
  destruct (2 <=? length (queue p))%nat.
  - unfold bind at 1. rewrite advance_unfold. unfold_monad. eauto.
  - unfold_monad. eauto.
Qed.

(** X11: the event handler throws exactly when the type of the event is not
    one of the five it knows, and then it changes nothing; the message of the
    error names the type. *)
Theorem unknown_events_throw this data w :
  (knownEvent (lo_type data) = false ->
     Player.lavalinkEvent this data w
     = (Throw (Error ("An unknown event was passed, event: " +:+ lo_type data)), w)) /\
  (knownEvent (lo_type data) = true ->
     result (Player.lavalinkEvent this data) w = Ret tt).
Proof.
  split.
  - unfold knownEvent. intros H.
    repeat (apply orb_false_iff in H as [H ?]).
    unfold Player.lavalinkEvent. unfold_monad.
    repeat match goal with H : String.eqb _ _ = false |- _ => rewrite H; clear H end.
    reflexivity.
  - intros H. unfold result.
    destruct (knownEvent_cases _ H) as [Ht|[Ht|[Ht|[Ht|Ht]]]].
    + unfold Player.lavalinkEvent. rewrite Ht. reflexivity.
    + destruct (trackEnd_returns this data w Ht) as [w' ->]. reflexivity.
    + unfold Player.lavalinkEvent. rewrite Ht. reflexivity.
    + unfold Player.lavalinkEvent. rewrite Ht. reflexivity.
    + unfold Player.lavalinkEvent. rewrite Ht. unfold_monad. cbn [String.eqb Ascii.eqb Bool.eqb].
      destruct ((lo_code data =? 4015) || (lo_code data =? 4009)); reflexivity.
Qed.

Lemma unknown_events_throw_witness :
  Player.lavalinkEvent 0
    {| lo_type := "TrackPausedEvent"; lo_reason := ""; lo_code := 0; lo_guildId := "guild-1" |}
    Scenario.twoQueued
  = (Throw (Error "An unknown event was passed, event: TrackPausedEvent"), Scenario.twoQueued).
Proof.
  refine (proj1 (unknown_events_throw 0
                   {| lo_type := "TrackPausedEvent"; lo_reason := ""; lo_code := 0;
                      lo_guildId := "guild-1" |} Scenario.twoQueued) _).
  reflexivity.
Defined.

(** X12: a stuck track and a track that failed are only dropped from the
    queue: the handler emits its notification with the current track and the
    event, sends nothing to the node, starts no other track and leaves the
    flags and the current track as they were. *)
Theorem stuck_track_is_only_dropped this data w :
  lo_type data = "TrackStuckEvent" \/ lo_type data = "TrackExceptionEvent" ->
  let p := playerStore w !!! this in
  let w' := exec (Player.lavalinkEvent this data) w in
  let p' := playerStore w' !!! this in
  result (Player.lavalinkEvent this data) w = Ret tt /\
  queue p' = tail (queue p) /\
  playing p' = playing p /\ paused p' = paused p /\ p_track p' = p_track p /\
  nodeStore w' = nodeStore w /\ wsStore w' = wsStore w /\
  emitted w' = emitted w ++
    [if String.eqb (lo_type data) "TrackStuckEvent"
     then trackStuck this (p_track p) data
     else trackException this (p_track p) data].
Proof.
  intros Ht p w' p'. subst p' w'. unfold result, exec.
  destruct Ht as [Ht|Ht]; unfold Player.lavalinkEvent, Player.shift; rewrite Ht;
    unfold_monad; cbn [String.eqb Ascii.eqb Bool.eqb]; world_norm; fold p;
    repeat split; reflexivity.
Qed.

Lemma stuck_track_is_only_dropped_witness :
  queue (playerStore
           (exec (Player.lavalinkEvent 0
                    {| lo_type := "TrackStuckEvent"; lo_reason := ""; lo_code := 0;
                       lo_guildId := "guild-1" |}) Scenario.twoQueued) !!! 0%nat)
  = tail (queue (playerStore Scenario.twoQueued !!! 0%nat)).
Proof.
  pose proof (stuck_track_is_only_dropped 0
                {| lo_type := "TrackStuckEvent"; lo_reason := ""; lo_code := 0;
                   lo_guildId := "guild-1" |} Scenario.twoQueued) as H.
  cbv zeta in H. destruct H as (_ & H & _); [left; reflexivity | exact H].
Defined.

(** X13: when the voice socket of a guild has closed, the handler asks the
    host to join the player's voice channel again for the codes 4015 and 4009
    and for no other code; it always emits [socketClosed], and it sends nothing
    to the node and changes nothing in the player. *)
Theorem voice_socket_closed_rejoins this data w :
  lo_type data = "WebSocketClosedEvent" ->
  let p := playerStore w !!! this in
  let w' := exec (Player.lavalinkEvent this data) w in
  result (Player.lavalinkEvent this data) w = Ret tt /\
  transferred w' =
    transferred w ++
    (if bool_decide (lo_code data = 4015 \/ lo_code data = 4009)
     then [{| gw_guild_id := lo_guildId data; gw_channel_id := voiceChannel p;
              gw_self_mute := false; gw_self_deaf := false |}]
     else []) /\
  emitted w' = emitted w ++ [socketClosed this data] /\
  playerStore w' = playerStore w /\ nodeStore w' = nodeStore w /\ wsStore w' = wsStore w.
Proof.
  intros Ht p w'. subst w'. unfold result, exec, Player.lavalinkEvent. rewrite Ht.
  unfold_monad. cbn [String.eqb Ascii.eqb Bool.eqb]. fold p.
  destruct (Z.eqb_spec (lo_code data) 4015) as [H1|H1];
    destruct (Z.eqb_spec (lo_code data) 4009) as [H2|H2]; cbn [orb].
  1-3: rewrite bool_decide_eq_true_2 by tauto; world_norm; repeat split; reflexivity.
  rewrite bool_decide_eq_false_2 by tauto. rewrite app_nil_r. repeat split; reflexivity.
Qed.

Lemma voice_socket_closed_rejoins_witness :
  emitted (exec (Player.lavalinkEvent 0
                   {| lo_type := "WebSocketClosedEvent"; lo_reason := ""; lo_code := 4015;
                      lo_guildId := "guild-1" |}) Scenario.twoQueued)
  = emitted Scenario.twoQueued
    ++ [socketClosed 0 {| lo_type := "WebSocketClosedEvent"; lo_reason := ""; lo_code := 4015;
                          lo_guildId := "guild-1" |}].
Proof.
  pose proof (voice_socket_closed_rejoins 0
                {| lo_type := "WebSocketClosedEvent"; lo_reason := ""; lo_code := 4015;
                   lo_guildId := "guild-1" |} Scenario.twoQueued) as H.
  cbv zeta in H. destruct H as (_ & _ & H & _); [reflexivity | exact H].
Defined.

(** ** Leaving the voice channel *)

Lemma disconnect_none this w :
  Js.truthyStr (voiceChannel (playerStore w !!! this)) = false ->
  Player.disconnect this w = (Ret None, w).
Proof. intros H. unfold Player.disconnect. unfold_monad. rewrite H. reflexivity. Qed.

(** A paused player with a queue is resumed; nothing else happens. *)
Lemma resume_if_paused this w :
  let p := playerStore w !!! this in
  exists w0,
    (if paused p then (Player.pause this false;; ret tt)%js else ret tt) w = (Ret tt, w0) /\
    transferred w0 = transferred w /\
    guild (playerStore w0 !!! this) = guild p /\
    (paused p = true -> queue p <> [] ->
       paused (playerStore w0 !!! this) = false /\ playing (playerStore w0 !!! this) = true).
Proof.
  intros p. destruct (paused p) eqn:Hp.
  - destruct (queue p) as [|t q] eqn:Hq.
    + exists w. unfold Player.pause. unfold_monad. fold p. rewrite Hq.
      repeat split; congruence.
    + assert (Hne : queue (playerStore w !!! this) <> []) by (fold p; congruence).
      unfold bind. rewrite (pause_unfold this false w Hne). fold p.
      eexists. split; [reflexivity |].
      match goal with
      | |- context [exec (Node.send ?n ?pl) ?w0] =>
          destruct (send_frame n pl w0) as (Hps & _ & _ & Htr & _); rewrite Hps, Htr
      end.
      cbn [playerStore transferred w_playerStore]. rewrite lookup_total_insert_eq.
      repeat split; reflexivity.
  - exists w. repeat split; congruence.
Qed.

(** With a voice channel, [disconnect] resumes if need be, asks the host to
    leave and forgets the channel. *)
Lemma disconnect_unfold this w :
  let p := playerStore w !!! this in
  Js.truthyStr (voiceChannel p) = true ->
  exists w0,
    Player.disconnect this w =
      (Ret (Some this),
       w_playerStore <[this := p_voiceChannel None (playerStore w0 !!! this)]>
         (w_transferred (fun l => l ++ [leaveRequest (guild p)]) w0)) /\
    transferred w0 = transferred w /\
    (paused p = true -> queue p <> [] ->
       paused (playerStore w0 !!! this) = false /\ playing (playerStore w0 !!! this) = true).
Proof.
  intros p Hv.
  destruct (resume_if_paused this w) as (w0 & E0 & Htr & _ & Hres). fold p in E0, Hres.
  exists w0. split; [| split; assumption].
  unfold Player.disconnect. unfold bind at 1. unfold getPlayer at 1, gets at 1.
  fold p. rewrite Hv. cbn [negb]. unfold bind at 1. rewrite E0.
  unfold_monad. reflexivity.
Qed.

(** X14: [disconnect] without a voice channel returns [null] and does
    nothing.  With one, it asks the host once to leave the channel of the
    guild and forgets the channel, after resuming a paused player that has a
    queue; a second [disconnect] then does nothing. *)
Theorem disconnect_once this w :
  let p := playerStore w !!! this in
  let w1 := exec (Player.disconnect this) w in
  let p1 := playerStore w1 !!! this in
  (Js.truthyStr (voiceChannel p) = false -> Player.disconnect this w = (Ret None, w)) /\
  (Js.truthyStr (voiceChannel p) = true ->
     result (Player.disconnect this) w = Ret (Some this) /\
     transferred w1 = transferred w ++ [leaveRequest (guild p)] /\
     voiceChannel p1 = None /\
     (paused p = true -> queue p <> [] -> paused p1 = false /\ playing p1 = true)) /\
  Player.disconnect this w1 = (Ret None, w1).
Proof.
  intros p w1 p1.
  split; [apply disconnect_none |].
  split.
  - intros Hv.
    destruct (disconnect_unfold this w Hv) as (w0 & E & Htr & Hres). fold p in E, Hres.
    subst p1 w1. unfold result, exec. rewrite E. cbn [fst snd].
    cbn [transferred playerStore w_playerStore w_transferred]. rewrite lookup_total_insert_eq.
    cbn [voiceChannel paused playing p_voiceChannel]. rewrite Htr.
    repeat split; try reflexivity; apply Hres; assumption.
  - apply disconnect_none.
    destruct (disconnect_keeps this w) as (r & w' & E & _ & _ & _ & Hv).
    subst w1. unfold exec. rewrite E. exact Hv.
Qed.

Lemma disconnect_once_witness :
  transferred (exec (Player.disconnect 0) Scenario.twoQueued)
  = transferred Scenario.twoQueued ++ [leaveRequest "guild-1"].
Proof.
  pose proof (disconnect_once 0 Scenario.twoQueued) as H. cbv zeta in H.
  destruct H as (_ & H & _). destruct H as (_ & H & _); [vm_compute; reflexivity | exact H].
Defined.

(** ** Starting the manager *)

Lemma filter_all_false {A : Type} (f : A -> bool) l :
  (forall x, f x = false) -> List.filter f l = [].
Proof.
  intros H. induction l as [|x l IH]; cbn [List.filter]; [reflexivity |].
  rewrite H. exact IH.
Qed.

Lemma buildNodes_spec l : forall w,
  let w' := exec (Manager.buildNodes l) w in
  Manager.buildNodes l w = (Ret tt, w') /\
  user (manager w') = user (manager w) /\
  players (manager w') = players (manager w) /\
  (forall o, o ∈ l -> is_Some (mapGet (nodeKey o) (nodes (manager w')))) /\
  (forall k, is_Some (mapGet k (nodes (manager w))) ->
             is_Some (mapGet k (nodes (manager w')))) /\
  (NoDup (map fst (nodes (manager w))) -> NoDup (map fst (nodes (manager w')))) /\
  ((forall r, connected (nodeStore w !!! r) = false) ->
   forall r, connected (nodeStore w' !!! r) = false) /\
  nextNode w' = (nextNode w + length l)%nat /\
  emitted w' = emitted w /\ transferred w' = transferred w.
Proof.
  induction l as [|o l IH]; intros w w'.
  - subst w'. cbn. rewrite Nat.add_0_r.
    repeat split; try reflexivity; try tauto. intros o Ho. apply elem_of_nil in Ho. contradiction.
  - destruct (buildNode_unfold o w)
      as (E & Hm & Hnn & Hc & _ & _ & Hother & _ & Hem & Htr & _).
    set (w1 := exec (Manager.buildNode o) w) in *.
    destruct (IH w1) as (E' & Hu & Hp & Hreg & Hmono & Hnd & Hconn & Hnext & Hem' & Htr').
    assert (Ecomp : exec (Manager.buildNodes (o :: l)) w = exec (Manager.buildNodes l) w1).
    { unfold exec. cbn [Manager.buildNodes]. unfold bind. rewrite E, E'. reflexivity. }
    subst w'. rewrite Ecomp.
    assert (Hkey : forall k, is_Some (mapGet k (nodes (manager w))) \/ k = nodeKey o ->
                             is_Some (mapGet k (nodes (manager w1)))).
    { intros k Hk. rewrite Hm. cbn [nodes m_nodes].
      destruct (decide (k = nodeKey o)) as [->|Hne].
      - rewrite mapGet_mapSet_eq. eauto.
      - rewrite mapGet_mapSet_ne by exact Hne. destruct Hk; [assumption | contradiction]. }
    split.
    { cbn [Manager.buildNodes]. unfold bind. rewrite E, E'. reflexivity. }
    split; [rewrite Hu, Hm; reflexivity |].
    split; [rewrite Hp, Hm; reflexivity |].
    split.
    { intros o' Ho'. apply elem_of_cons in Ho' as [->|Ho'].
      - apply Hmono, Hkey. right. reflexivity.
      - apply Hreg, Ho'. }
    split; [intros k Hk; apply Hmono, Hkey; left; exact Hk |].
    split.
    { intros Hn. apply Hnd. rewrite Hm. cbn [nodes m_nodes]. apply mapSet_NoDup, Hn. }
    split.
    { intros Hall. apply Hconn. intros r.
      destruct (decide (r = nextNode w)) as [->|Hne]; [exact Hc |].
      rewrite (Hother r Hne). apply Hall. }
    split; [rewrite Hnext, Hnn; cbn [length]; lia |].
    split; [rewrite Hem', Hem; reflexivity | rewrite Htr', Htr; reflexivity].
Qed.

(** The node [buildNode] makes carries the id of its options, and its socket
    is the next one. *)
Lemma buildNode_identity o w :
  let r := nextNode w in
  let w' := exec (Manager.buildNode o) w in
  n_id (nodeStore w' !!! r) = id o /\ nextWs w' = S (nextWs w).
Proof.
  intros r w'.
  set (n0 := nodeStore (exec (Node.new o) w) !!! r).
  set (w1 := w_manager (m_nodes (mapSet (nodeKey o) r)) (exec (Node.new o) w)).
  assert (Hn1 : nodeStore w1 !!! r = n0) by reflexivity.
  assert (Hn0 : ws n0 = None /\ n_id n0 = id o).
  { subst n0. unfold Node.new, exec. cbn [snd nodeStore w_nextNode w_nodeStore].
    rewrite lookup_total_insert_eq. repeat split. }
  destruct Hn0 as (Hws0 & Hid0).
  pose proof (node_connect_unfold r w1) as Ec.
  rewrite Hn1, Hws0 in Ec.
  set (sock := socketOf (user (manager w1)) n0) in Ec.
  assert (E : Manager.buildNode o w =
              (Ret r, w_nodeStore <[r := n_ws (Some (nextWs w)) n0]>
                        (w_nextWs (S (nextWs w)) (w_wsStore <[nextWs w := sock]> w1)))).
  { assert (Hb : Manager.buildNode o w =
                 (n <- Node.new o;;
                  modify (w_manager (m_nodes (mapSet (nodeKey o) n)));;
                  Node.connect n;; ret n) w).
    { unfold Manager.buildNode, nodeKey. destruct (Js.truthyStr (id o)); reflexivity. }
    rewrite Hb. unfold bind, modify, ret.
    change (Node.new o w) with (Ret r, exec (Node.new o) w). cbv beta iota.
    change (w_manager (m_nodes (mapSet (nodeKey o) r)) (exec (Node.new o) w)) with w1.
    rewrite Ec. reflexivity. }
  subst w'. unfold exec at 1 2. rewrite E. cbn [fst snd].
  cbn [nextWs nodeStore w_nodeStore w_nextWs w_wsStore].
  rewrite lookup_total_insert_eq. cbn [n_id n_ws].
  split; [exact Hid0 | reflexivity].
Qed.

(** What a run of [buildNode] over a list of options leaves behind: the
    [i]-th entry has the [i]-th new node, and a key is bound to the node of
    the last entry that has it. *)
Lemma buildNodes_registry l : forall w,
  let w' := exec (Manager.buildNodes l) w in
  (forall i o, l !! i = Some o ->
     n_host (nodeStore w' !!! (nextNode w + i)%nat) = host o /\
     n_id (nodeStore w' !!! (nextNode w + i)%nat) = id o /\
     connected (nodeStore w' !!! (nextNode w + i)%nat) = false /\
     ws (nodeStore w' !!! (nextNode w + i)%nat) = Some (nextWs w + i)%nat) /\
  (forall r, (r < nextNode w)%nat -> nodeStore w' !!! r = nodeStore w !!! r) /\
  (forall k, (forall o, o ∈ l -> nodeKey o <> k) ->
     mapGet k (nodes (manager w')) = mapGet k (nodes (manager w))) /\
  (forall i o, l !! i = Some o ->
     (forall j o', l !! j = Some o' -> (i < j)%nat -> nodeKey o' <> nodeKey o) ->
     mapGet (nodeKey o) (nodes (manager w')) = Some (nextNode w + i)%nat) /\
  (forall k r, mapGet k (nodes (manager w')) = Some r ->
     (mapGet k (nodes (manager w)) = Some r /\ forall o, o ∈ l -> nodeKey o <> k) \/
     exists i o, r = (nextNode w + i)%nat /\ l !! i = Some o /\ nodeKey o = k /\
       forall j o', l !! j = Some o' -> (i < j)%nat -> nodeKey o' <> k).
Proof.
  induction l as [|o l IH]; intros w w'.
  - subst w'. cbn. repeat split; try (intros; discriminate); try reflexivity.
    intros k r H. left. split; [exact H |]. intros o Ho. apply elem_of_nil in Ho. contradiction.
  - destruct (buildNode_unfold o w)
      as (E & Hm & Hnn & Hc & Hws & Hh & Hother & _).
    destruct (buildNode_identity o w) as (Hid & Hnws).
    destruct (buildNodes_spec l (exec (Manager.buildNode o) w)) as (E' & _).
    set (w1 := exec (Manager.buildNode o) w) in *.
    destruct (IH w1) as (Hnodes & Hold & Hkeep & Hlast & Hinv).
    assert (Ecomp : exec (Manager.buildNodes (o :: l)) w = exec (Manager.buildNodes l) w1).
    { unfold exec. cbn [Manager.buildNodes]. unfold bind. rewrite E, E'. reflexivity. }
    subst w'. rewrite Ecomp. clear Ecomp.
    set (w2 := exec (Manager.buildNodes l) w1) in *. clearbody w2.
    assert (Hnodes1 : nodes (manager w1) = mapSet (nodeKey o) (nextNode w) (nodes (manager w))).
    { rewrite Hm. reflexivity. }
    split.
    { intros [|i] o' Hi.
      - cbn in Hi. injection Hi as <-. rewrite Nat.add_0_r.
        rewrite (Hold (nextNode w)) by lia.
        repeat split; try assumption. rewrite Hws. f_equal. lia.
      - cbn in Hi. specialize (Hnodes i o' Hi). rewrite Hnn, Hnws in Hnodes.
        replace (nextNode w + S i)%nat with (S (nextNode w) + i)%nat by lia.
        replace (nextWs w + S i)%nat with (S (nextWs w) + i)%nat by lia.
        exact Hnodes. }
    split.
    { intros r Hr. rewrite Hold by lia. apply Hother. lia. }
    split.
    { intros k Hk. rewrite Hkeep.
      - rewrite Hnodes1. apply mapGet_mapSet_ne.
        intros ->. apply (Hk o); [left | reflexivity].
      - intros o' Ho'. apply Hk. right. exact Ho'. }
    split.
    { intros [|i] o' Hi Hlater.
      - cbn in Hi. injection Hi as <-. rewrite Nat.add_0_r. rewrite Hkeep.
        + rewrite Hnodes1. apply mapGet_mapSet_eq.
        + intros o' Ho'. apply list_elem_of_lookup in Ho' as [j Hj].
          apply (Hlater (S j) o'); [exact Hj | lia].
      - cbn in Hi. replace (nextNode w + S i)%nat with (nextNode w1 + i)%nat by lia.
        apply Hlast; [exact Hi |]. intros j o'' Hj Hij.
        apply (Hlater (S j) o''); [exact Hj | lia]. }
    intros k r Hk. destruct (Hinv k r Hk) as [[H1 Hno] | (i & o' & -> & Hi & Hkey & Hlater)].
    + rewrite Hnodes1 in H1. destruct (decide (k = nodeKey o)) as [->|Hne].
      * rewrite mapGet_mapSet_eq in H1. injection H1 as <-. right.
        exists 0%nat, o. split; [lia |]. split; [reflexivity |]. split; [reflexivity |].
        intros [|j] o' Hj Hlt; [lia |]. cbn in Hj. apply Hno.
        apply list_elem_of_lookup. exists j. exact Hj.
      * rewrite mapGet_mapSet_ne in H1 by exact Hne. left. split; [exact H1 |].
        intros o' Ho'. apply elem_of_cons in Ho' as [->|Ho'].
        -- intros E0. apply Hne. symmetry. exact E0.
        -- apply Hno, Ho'.
    + right. exists (S i), o'. split; [lia |]. split; [exact Hi |]. split; [exact Hkey |].
      intros [|j] o'' Hj Hlt; [lia |]. cbn in Hj. apply (Hlater j o'' Hj). lia.
Qed.

(** X15: [start] without a bot id, or with an empty one, throws and leaves
    everything as it was.  With a bot id on a new manager it records the id
    and builds one node for every configured entry, in the order of the
    entries: the node has the host and the id of its entry, a socket of its
    own and is not connected.  The node of an entry is found in the node map
    under the key of the entry (its id, or else its host) exactly when no later
    entry has the same key, and the map holds nothing else.  As no socket has
    opened yet, no node is selectable, and nothing has been emitted. *)
Theorem start_registers_every_node cfg botID :
  (forall w, Js.truthyStr botID = false ->
     Manager.start botID w
     = (Throw (Error "BotID is missing, provide it to start function"), w)) /\
  (Js.truthyStr botID = true ->
     let w' := exec (Manager.start botID) (initial cfg) in
     result (Manager.start botID) (initial cfg) = Ret tt /\
     user (manager w') = botID /\
     nextNode w' = length cfg /\
     (forall i o, cfg !! i = Some o ->
        n_host (nodeStore w' !!! i) = host o /\ n_id (nodeStore w' !!! i) = id o /\
        connected (nodeStore w' !!! i) = false /\ ws (nodeStore w' !!! i) = Some i /\
        (mapGet (nodeKey o) (nodes (manager w')) = Some i <->
         forall j o', cfg !! j = Some o' -> (i < j)%nat -> nodeKey o' <> nodeKey o)) /\
     (forall k r, mapGet k (nodes (manager w')) = Some r ->
        exists o, cfg !! r = Some o /\ nodeKey o = k) /\
     (forall o, o ∈ cfg -> is_Some (mapGet (nodeKey o) (nodes (manager w')))) /\
     NoDup (map fst (nodes (manager w'))) /\
     Manager.leastUsedNodes w' = [] /\
     emitted w' = []).
Proof.
  split.
  - intros w H. unfold Manager.start. rewrite H. reflexivity.
  - intros H w'.
    set (w0 := w_manager (m_user botID) (initial cfg)).
    destruct (buildNodes_spec cfg w0) as (E & Hu & _ & Hreg & _ & Hnd & Hconn & Hnext & Hem & _).
    destruct (buildNodes_registry cfg w0) as (Hnodes & _ & _ & Hlast & Hinv).
    assert (Es : Manager.start botID (initial cfg)
                 = (Ret tt, exec (Manager.buildNodes cfg) w0)).
    { unfold Manager.start. rewrite H. cbn [negb]. unfold bind, modify, gets.
      change (listOfNodes (manager (w_manager (m_user botID) (initial cfg)))) with cfg.
      fold w0. exact E. }
    assert (Hw' : w' = exec (Manager.buildNodes cfg) w0).
    { subst w'. unfold exec at 1. rewrite Es. reflexivity. }
    split; [unfold result; rewrite Es; reflexivity |].
    rewrite Hw'. clear Hw'. 
    change (nextNode w0) with 0%nat in *. change (nextWs w0) with 0%nat in *.
    change (nodes (manager w0)) with (@nil (string * NodeRef)) in *.
    split; [exact Hu |]. split; [exact Hnext |].
    split.
    { intros i o Hi. destruct (Hnodes i o Hi) as (A1 & A2 & A3 & A4).
      split; [exact A1 |]. split; [exact A2 |]. split; [exact A3 |]. split; [exact A4 |].
      split.
      - intros Hget. destruct (Hinv _ _ Hget) as [[Hnil _] | (i' & o' & Ei & Hi' & Hkey & Hlater)].
        + discriminate Hnil.
        + cbn in Ei. subst i'. rewrite Hi in Hi'. injection Hi' as <-. exact Hlater.
      - intros Hlater. apply (Hlast i o Hi Hlater). }
    split.
    { intros k r Hget. destruct (Hinv _ _ Hget) as [[Hnil _] | (i' & o' & Ei & Hi' & Hkey & _)].
      - discriminate Hnil.
      - cbn in Ei. subst i'. exists o'. split; assumption. }
    split; [exact Hreg |].
    split; [apply Hnd; constructor |].
    split; [| exact Hem].
    unfold Manager.leastUsedNodes. rewrite filter_all_false; [reflexivity |].
    intros r. apply Hconn. intros r'. reflexivity.
Qed.

Lemma start_registers_every_node_witness :
  mapGet "A"
    (nodes (manager (exec (Manager.start (Some Scenario.bot))
                       (initial [Scenario.optionsA; Scenario.optionsB; Scenario.optionsA]))))
  <> Some 0%nat.
Proof.
  pose proof (start_registers_every_node
                [Scenario.optionsA; Scenario.optionsB; Scenario.optionsA]
                (Some Scenario.bot)) as H.
  destruct H as (_ & H). cbv zeta in H.
  destruct H as (_ & _ & _ & H & _); [reflexivity |].
  destruct (H 0%nat Scenario.optionsA eq_refl) as (_ & _ & _ & _ & Hiff).
  intros Hget.
  apply (proj1 Hiff Hget 2%nat Scenario.optionsA eq_refl); [lia | reflexivity].
Defined.

(** ** Creating players *)

Lemma create_new_unfold data least rest n w :
  players (manager w) !! vc_guild data = None ->
  mapGet (vc_guild data) (nodes (manager w)) = None ->
  Manager.leastUsedNodes w = least :: rest ->
  mapGet (registeredKey (nodeStore w !!! least)) (nodes (manager w)) = Some n ->
  Manager.create data w =
    (Ret (Manager.spawnedPlayer (nextPlayer w)),
     w_manager (m_players <[vc_guild data := nextPlayer w]>)
       (exec (Player.new n data) (w_transferred (fun l => l ++ [joinRequest data]) w))).
Proof.
  intros Hp Hg Hl Hk. unfold Manager.create, Manager.spawnPlayer, registeredKey in *.
  unfold bind at 1. unfold gets at 1. rewrite Hp.
  unfold bind at 1. unfold transfer at 1, modify at 1.
  unfold bind at 1. unfold gets at 1.
  change (nodes (manager (w_transferred _ w))) with (nodes (manager w)).
  rewrite Hg.
  change (Manager.leastUsedNodes (w_transferred _ w)) with (Manager.leastUsedNodes w).
  rewrite Hl.
  change (nodeStore (w_transferred _ w)) with (nodeStore w).
  rewrite Hk. reflexivity.
Qed.

(** X16: without a connected node [create] throws, but only after it has
    asked the host to join the voice channel; no player is made. *)
Theorem create_without_nodes_throws data w :
  players (manager w) !! vc_guild data = None ->
  mapGet (vc_guild data) (nodes (manager w)) = None ->
  Manager.leastUsedNodes w = [] ->
  Manager.create data w =
    (Throw (Error "No nodes are connected"),
     w_transferred (fun l => l ++ [joinRequest data]) w).
Proof.
  intros Hp Hg Hl. unfold Manager.create, Manager.spawnPlayer.
  unfold bind at 1. unfold gets at 1. rewrite Hp.
  unfold bind at 1. unfold transfer at 1, modify at 1.
  unfold bind at 1. unfold gets at 1.
  change (nodes (manager (w_transferred _ w))) with (nodes (manager w)).
  rewrite Hg.
  change (Manager.leastUsedNodes (w_transferred _ w)) with (Manager.leastUsedNodes w).
  rewrite Hl. reflexivity.
Qed.

Lemma create_without_nodes_throws_witness :
  Manager.create Scenario.room Scenario.started =
    (Throw (Error "No nodes are connected"),
     w_transferred (fun l => l ++ [joinRequest Scenario.room]) Scenario.started).
Proof.
  apply create_without_nodes_throws; vm_compute; reflexivity.
Defined.

Lemma create_new_facts data least rest w :
  players (manager w) !! vc_guild data = None ->
  mapGet (vc_guild data) (nodes (manager w)) = None ->
  Manager.leastUsedNodes w = least :: rest ->
  mapGet (registeredKey (nodeStore w !!! least)) (nodes (manager w)) = Some least ->
  let w' := exec (Manager.create data) w in
  let p := nextPlayer w in
  let pl := playerStore w' !!! p in
  result (Manager.create data) w = Ret (Manager.spawnedPlayer p) /\
  node pl = least /\ guild pl = vc_guild data /\ voiceChannel pl = vc_voiceChannel data /\
  queue pl = [] /\ playing pl = false /\ paused pl = false /\ bands pl = None /\
  voiceUpdateState pl = None /\
  players (manager w') = <[vc_guild data := p]> (players (manager w)) /\
  transferred w' = transferred w ++ [joinRequest data] /\
  nodeStore w' = nodeStore w /\ wsStore w' = wsStore w.
Proof.
  intros Hp Hg Hl Hk w' p pl. subst pl w'. unfold result, exec.
  rewrite (create_new_unfold data least rest least w Hp Hg Hl Hk). cbn [fst snd].
  unfold Player.new, exec.
  cbn [snd manager players m_players w_manager w_nextPlayer w_playerStore w_transferred
       playerStore transferred nodeStore wsStore].
  rewrite lookup_total_insert_eq.
  repeat split; reflexivity.
Qed.





(** X18: a player is made at most once for a guild: when [create] returns a
    player, a second [create] for the same guild returns the same player and
    changes nothing, so the host is not asked to join again. *)
Theorem create_twice_same_player data p w :
  result (Manager.create data) w = Ret (Manager.spawnedPlayer p) ->
  let w' := exec (Manager.create data) w in
  Manager.create data w' = (Ret (Manager.spawnedPlayer p), w').
Proof.
  intros Hr w'.
  assert (Hreg : forall o w1,
            Manager.create data w = (o, w1) -> o = Ret (Manager.spawnedPlayer p) ->
            players (manager w1) !! vc_guild data = Some p).
  { intros o w1. unfold Manager.create, Manager.spawnPlayer.
    unfold bind at 1. unfold gets at 1.
    destruct (players (manager w) !! vc_guild data) as [p0|] eqn:Hp.
    { unfold ret. intros [= <- <-] [= ->]. exact Hp. }
    unfold bind at 1. unfold transfer at 1, modify at 1.
    unfold bind at 1. unfold gets at 1.
    change (nodes (manager (w_transferred _ w))) with (nodes (manager w)).
    destruct (mapGet (vc_guild data) (nodes (manager w)));
      [unfold ret; intros [= <- <-]; discriminate |].
    change (Manager.leastUsedNodes (w_transferred _ w)) with (Manager.leastUsedNodes w).
    destruct (Manager.leastUsedNodes w) as [|least rest];
      [unfold throw; intros [= <- <-]; discriminate |].
    change (nodeStore (w_transferred _ w)) with (nodeStore w).
    destruct (mapGet _ (nodes (manager w)));
      [| unfold throw; intros [= <- <-]; discriminate].
    unfold Player.new, bind, modify, ret. intros [= <- <-] [= <-].
    cbn [manager players m_players w_manager]. apply lookup_insert_eq. }
  assert (Hreg' : players (manager w') !! vc_guild data = Some p).
  { apply (Hreg (result (Manager.create data) w) w'); [| exact Hr].
    subst w'. unfold result, exec. apply surjective_pairing. }
  clearbody w'. unfold Manager.create, bind, gets. rewrite Hreg'. reflexivity.
Qed.

Lemma create_twice_same_player_witness :
  Manager.create Scenario.room (exec (Manager.create Scenario.room) Scenario.online)
  = (Ret (Manager.spawnedPlayer 0), exec (Manager.create Scenario.room) Scenario.online).
Proof.
  apply (create_twice_same_player Scenario.room 0%nat Scenario.online).
  vm_compute. reflexivity.
Defined.

(** X19: creating a player for a guild and destroying it again puts the map
    of players back as it was; the host has been asked to join and, when the
    request named a voice channel, to leave. *)
Theorem create_then_destroy_restores_players data least rest w :
  players (manager w) !! vc_guild data = None ->
  mapGet (vc_guild data) (nodes (manager w)) = None ->
  Manager.leastUsedNodes w = least :: rest ->
  mapGet (registeredKey (nodeStore w !!! least)) (nodes (manager w)) = Some least ->
  let w1 := exec (Manager.create data) w in
  let w2 := exec (Player.destroy (nextPlayer w)) w1 in
  result (Player.destroy (nextPlayer w)) w1 = Ret tt /\
  players (manager w2) = players (manager w) /\
  Manager.get (vc_guild data) w2 = (Ret None, w2) /\
  transferred w2 =
    transferred w ++ [joinRequest data]
    ++ (if Js.truthyStr (vc_voiceChannel data) then [leaveRequest (vc_guild data)] else []).
Proof.
  intros Hp Hg Hl Hk w1 w2.
  destruct (create_new_facts data least rest w Hp Hg Hl Hk)
    as (_ & _ & Hguild & Hvc & _ & _ & _ & _ & _ & Hpl & Htr & _).
  fold w1 in Hguild, Hvc, Hpl, Htr.
  destruct (destroy_removes (nextPlayer w) w1) as (w2' & E & Hm & _).
  assert (Hw2 : w2 = w2') by (subst w2; unfold exec; rewrite E; reflexivity).
  assert (Hplayers : players (manager w2) = players (manager w)).
  { rewrite Hw2, Hm, Hguild, Hpl, delete_insert_eq. apply delete_id, Hp. }
  split; [unfold result; rewrite E; reflexivity |].
  split; [exact Hplayers |].
  split; [unfold Manager.get, gets; rewrite Hplayers, Hp; reflexivity |].
  subst w2. unfold exec, Player.destroy.
  unfold bind at 1.
  destruct (Js.truthyStr (vc_voiceChannel data)) eqn:Hv.
  - pose proof (disconnect_unfold (nextPlayer w) w1) as Hd. cbv zeta in Hd.
    rewrite Hvc, Hguild in Hd. destruct (Hd Hv) as (w0 & Ed & Htr3 & _).
    rewrite Ed. unfold bind at 1. unfold getPlayer at 1, gets at 1.
    unfold bind at 1. send_returns_here.
    match goal with
    | |- context [exec (Node.send ?n ?pl) ?w0] =>
        destruct (send_frame n pl w0) as (_ & _ & _ & Htr4 & _)
    end.
    unfold_monad. cbn [snd transferred w_manager w_emitted].
    unfold exec in Htr4. rewrite Htr4. cbn [transferred w_playerStore w_transferred].
    rewrite Htr3, Htr, <- app_assoc. reflexivity.
  - rewrite disconnect_none by (rewrite Hvc; exact Hv).
    unfold bind at 1. unfold getPlayer at 1, gets at 1.
    unfold bind at 1. send_returns_here.
    match goal with
    | |- context [exec (Node.send ?n ?pl) ?w0] =>
        destruct (send_frame n pl w0) as (_ & _ & _ & Htr4 & _)
    end.
    unfold_monad. cbn [snd transferred w_manager w_emitted].
    unfold exec in Htr4. rewrite Htr4, Htr, app_nil_r. reflexivity.
Qed.

Lemma create_then_destroy_restores_players_witness :
  players (manager (exec (Player.destroy 0)
                      (exec (Manager.create Scenario.room) Scenario.online)))
  = players (manager Scenario.online).
Proof.
  pose proof (create_then_destroy_restores_players Scenario.room 0%nat [] Scenario.online) as H.
  cbv zeta in H.
  destruct H as (_ & H & _); [vm_compute; reflexivity .. | exact H].
Defined.

(** X20: [spawnPlayer] looks the guild up among the nodes, not among the
    players: for a guild whose id is the key of a registered node, [create]
    asks the host to join and then returns that node; no player is made or
    registered, whether or not a node is connected. *)
Theorem create_returns_node_for_node_key data n w :
  players (manager w) !! vc_guild data = None ->
  mapGet (vc_guild data) (nodes (manager w)) = Some n ->
  let w' := exec (Manager.create data) w in
  Manager.create data w
  = (Ret (Manager.spawnedNode n), w_transferred (fun l => l ++ [joinRequest data]) w) /\
  Manager.get (vc_guild data) w' = (Ret None, w') /\
  nextPlayer w' = nextPlayer w /\ playerStore w' = playerStore w.
Proof.
  intros Hp Hg w'.
  assert (E : Manager.create data w
              = (Ret (Manager.spawnedNode n),
                 w_transferred (fun l => l ++ [joinRequest data]) w)).
  { unfold Manager.create, Manager.spawnPlayer.
    unfold bind at 1. unfold gets at 1. rewrite Hp.
    unfold bind at 1. unfold transfer at 1, modify at 1.
    unfold bind at 1. unfold gets at 1.
    change (nodes (manager (w_transferred ?f w))) with (nodes (manager w)).
    rewrite Hg. reflexivity. }
  subst w'. unfold exec. rewrite E. cbn [snd].
  repeat split. unfold Manager.get, gets. cbn [manager w_transferred]. rewrite Hp. reflexivity.
Qed.

Lemma create_returns_node_for_node_key_witness :
  Manager.create
    {| vc_guild := "A"; vc_textChannel := None; vc_voiceChannel := Some "voice-1";
       selfMute := None; selfDeaf := None |} Scenario.online
  = (Ret (Manager.spawnedNode 0),
     w_transferred
       (fun l => l ++ [joinRequest {| vc_guild := "A"; vc_textChannel := None;
                                      vc_voiceChannel := Some "voice-1";
                                      selfMute := None; selfDeaf := None |}])
       Scenario.online).
Proof.
  refine (proj1 (create_returns_node_for_node_key
                   {| vc_guild := "A"; vc_textChannel := None;
                      vc_voiceChannel := Some "voice-1";
                      selfMute := None; selfDeaf := None |} 0%nat Scenario.online _ _));
    vm_compute; reflexivity.
Defined.

(** ** Voice correlation, continued *)

Lemma connectionProcess_with_state g server player st w :
  voiceServers (manager w) !! g = Some server ->
  players (manager w) !! g = Some player ->
  voiceStates (manager w) !! g = Some st ->
  Manager.connectionProcess g w
  = (Ret true, exec (Player.connect player (session_id st, server)) w).
Proof.
  intros Hs Hp Hst. unfold Manager.connectionProcess.
  unfold bind at 1. unfold gets at 1. rewrite Hs, Hp.
  unfold bind at 1. unfold getPlayer at 1, gets at 1. rewrite Hst.
  unfold bind, ret, exec. rewrite connect_unfold. reflexivity.
Qed.

Lemma connectionProcess_without_server g w :
  voiceServers (manager w) !! g = None ->
  Manager.connectionProcess g w = (Ret false, w).
Proof.
  intros Hs. unfold Manager.connectionProcess. unfold bind, gets. rewrite Hs. reflexivity.
Qed.

(** [connect] on a player leaves the manager and the logs alone. *)
Lemma player_connect_frame player data w :
  let w' := exec (Player.connect player data) w in
  manager w' = manager w /\
  playerStore w' = <[player := p_voiceUpdateState (Some data) (playerStore w !!! player)]>
                     (playerStore w) /\
  transferred w' = transferred w /\ emitted w' = emitted w.
Proof.
  intros w'.
  assert (E : w' = exec (Node.send (node (playerStore w !!! player))
                           (opVoiceUpdate (guild (playerStore w !!! player)) (fst data) (snd data)))
                     (w_playerStore
                        <[player := p_voiceUpdateState (Some data) (playerStore w !!! player)]> w)).
  { subst w'. unfold exec at 1. rewrite connect_unfold. reflexivity. }
  rewrite E.
  match goal with
  | |- context [exec (Node.send ?n ?pl) ?w0] =>
      destruct (send_frame n pl w0) as (Hps & Hm & He & Ht & _)
  end.
  rewrite Hps, Hm, He, Ht. repeat split; reflexivity.
Qed.

(** X21: a voice-state update of another user, or any voice-state update
    before [start] has recorded the bot's id, is ignored.  An update of the bot
    without a channel (the bot has left) forgets both halves of the guild and
    touches neither the halves of other guilds nor any player, and from then
    on the correlation of the guild returns [false]. *)
Theorem leaving_forgets_both_halves data w :
  let g := guild_id data in
  let w' := exec (Manager.voiceStateUpdate data) w in
  (user (manager w) <> Some (user_id data) ->
     Manager.voiceStateUpdate data w = (Ret None, w)) /\
  (user (manager w) = Some (user_id data) -> Js.truthyStr (channel_id data) = false ->
     result (Manager.voiceStateUpdate data) w = Ret None /\
     voiceServers (manager w') = delete g (voiceServers (manager w)) /\
     voiceStates (manager w') = delete g (voiceStates (manager w)) /\
     (forall g', g' <> g ->
        voiceServers (manager w') !! g' = voiceServers (manager w) !! g' /\
        voiceStates (manager w') !! g' = voiceStates (manager w) !! g') /\
     playerStore w' = playerStore w /\ players (manager w') = players (manager w) /\
     Manager.connectionProcess g w' = (Ret false, w')).
Proof.
  intros g w'. split.
  - intros Hu. unfold Manager.voiceStateUpdate. unfold bind, gets.
    rewrite bool_decide_eq_false_2 by congruence. reflexivity.
  - intros Hu Hc.
    assert (E : Manager.voiceStateUpdate data w =
                (Ret None,
                 w_manager (m_voiceStates (delete g))
                   (w_manager (m_voiceServers (delete g)) w))).
    { unfold Manager.voiceStateUpdate. unfold bind at 1. unfold gets at 1.
      rewrite bool_decide_eq_true_2 by congruence. rewrite Hc. reflexivity. }
    assert (Hw' : w' = w_manager (m_voiceStates (delete g))
                         (w_manager (m_voiceServers (delete g)) w)).
    { subst w'. unfold exec. rewrite E. reflexivity. }
    split; [unfold result; rewrite E; reflexivity |].
    rewrite Hw'.
    split; [reflexivity |]. split; [reflexivity |].
    split; [intros g' Hne; split; cbn; apply lookup_delete_ne; congruence |].
    split; [reflexivity |]. split; [reflexivity |].
    apply connectionProcess_without_server. cbn. apply lookup_delete_eq.
Qed.

Lemma leaving_forgets_both_halves_witness :
  Manager.connectionProcess "guild-1"
    (exec (Manager.voiceStateUpdate Scenario.leave)
       (exec (Manager.voiceStateUpdate (Scenario.join "s1");;
              Manager.voiceServersUpdate (Scenario.server "first")) Scenario.withPlayer))
  = (Ret false,
     exec (Manager.voiceStateUpdate Scenario.leave)
       (exec (Manager.voiceStateUpdate (Scenario.join "s1");;
              Manager.voiceServersUpdate (Scenario.server "first")) Scenario.withPlayer)).
Proof.
  destruct (leaving_forgets_both_halves Scenario.leave
              (exec (Manager.voiceStateUpdate (Scenario.join "s1");;
                     Manager.voiceServersUpdate (Scenario.server "first"))
                 Scenario.withPlayer)) as (_ & H).
  destruct H as (_ & _ & _ & _ & _ & _ & H).
  - vm_compute. reflexivity.
  - reflexivity.
  - exact H.
Defined.

(** X22: when the voice state of a guild is stored and the guild has a
    player, a voice-server update makes the link: it returns [true] and
    connects the player with the stored session id and the new payload.  Both
    halves stay stored afterwards, so the same update makes the link again. *)
Theorem server_update_makes_the_link server player st w :
  let g := vsrv_guild_id server in
  voiceStates (manager w) !! g = Some st ->
  players (manager w) !! g = Some player ->
  let w0 := w_manager (m_voiceServers <[g := server]>) w in
  let w' := exec (Manager.voiceServersUpdate server) w in
  Manager.voiceServersUpdate server w
  = (Ret true, exec (Player.connect player (session_id st, server)) w0) /\
  voiceUpdateState (playerStore w' !!! player) = Some (session_id st, server) /\
  voiceStates (manager w') !! g = Some st /\
  voiceServers (manager w') !! g = Some server /\
  result (Manager.voiceServersUpdate server) w' = Ret true.
Proof.
  intros g Hst Hp w0 w'.
  assert (Hgen : forall w1,
     voiceStates (manager w1) !! g = Some st -> players (manager w1) !! g = Some player ->
     Manager.voiceServersUpdate server w1
     = (Ret true,
        exec (Player.connect player (session_id st, server))
          (w_manager (m_voiceServers <[g := server]>) w1))).
  { intros w1 Hst1 Hp1. unfold Manager.voiceServersUpdate.
    unfold bind at 1. unfold modify at 1. fold g.
    apply connectionProcess_with_state; cbn; [apply lookup_insert_eq | exact Hp1 | exact Hst1]. }
  assert (E := Hgen w Hst Hp). fold w0 in E.
  destruct (player_connect_frame player (session_id st, server) w0) as (Hm & Hps & _).
  assert (Hw' : w' = exec (Player.connect player (session_id st, server)) w0).
  { subst w'. unfold exec at 1. rewrite E. reflexivity. }
  split; [exact E |].
  rewrite <- Hw' in Hm, Hps. clearbody w'.
  split; [rewrite Hps, lookup_total_insert_eq; reflexivity |].
  split; [rewrite Hm; exact Hst |].
  split; [rewrite Hm; cbn; apply lookup_insert_eq |].
  unfold result. rewrite Hgen; [reflexivity | |]; rewrite Hm; assumption.
Qed.

Lemma server_update_makes_the_link_witness :
  Manager.voiceServersUpdate (Scenario.server "first")
    (exec (Manager.voiceStateUpdate (Scenario.join "s1")) Scenario.withPlayer)
  = (Ret true,
     exec (Player.connect 0 ("s1", Scenario.server "first"))
       (w_manager (m_voiceServers <["guild-1" := Scenario.server "first"]>)
          (exec (Manager.voiceStateUpdate (Scenario.join "s1")) Scenario.withPlayer))).
Proof.
  refine (proj1 (server_update_makes_the_link (Scenario.server "first") 0%nat (Scenario.join "s1")
                   (exec (Manager.voiceStateUpdate (Scenario.join "s1")) Scenario.withPlayer)
                   _ _)); vm_compute; reflexivity.
Defined.

(** X23: when the voice-server half of a guild is stored and the guild has a
    player, a voice-state update of the bot that names a channel makes the
    link with the session id of the update, and returns [true]. *)
Theorem state_update_makes_the_link data server player w :
  let g := guild_id data in
  user (manager w) = Some (user_id data) ->
  Js.truthyStr (channel_id data) = true ->
  voiceServers (manager w) !! g = Some server ->
  players (manager w) !! g = Some player ->
  let w0 := w_manager (m_voiceStates <[g := data]>) w in
  let w' := exec (Manager.voiceStateUpdate data) w in
  Manager.voiceStateUpdate data w
  = (Ret (Some true), exec (Player.connect player (session_id data, server)) w0) /\
  voiceUpdateState (playerStore w' !!! player) = Some (session_id data, server) /\
  voiceStates (manager w') !! g = Some data /\
  voiceServers (manager w') !! g = Some server.
Proof.
  intros g Hu Hc Hs Hp w0 w'.
  assert (E : Manager.voiceStateUpdate data w
              = (Ret (Some true), exec (Player.connect player (session_id data, server)) w0)).
  { unfold Manager.voiceStateUpdate. unfold bind at 1. unfold gets at 1.
    rewrite bool_decide_eq_true_2 by congruence. cbn [negb]. rewrite Hc.
    unfold bind at 1. unfold modify at 1. fold g. fold w0.
    unfold bind at 1.
    rewrite (connectionProcess_with_state g server player data w0);
      [reflexivity | exact Hs | exact Hp | cbn; apply lookup_insert_eq]. }
  destruct (player_connect_frame player (session_id data, server) w0) as (Hm & Hps & _).
  assert (Hw' : w' = exec (Player.connect player (session_id data, server)) w0).
  { subst w'. unfold exec at 1. rewrite E. reflexivity. }
  split; [exact E |].
  rewrite <- Hw' in Hm, Hps. clearbody w'.
  split; [rewrite Hps, lookup_total_insert_eq; reflexivity |].
  split; [rewrite Hm; cbn; apply lookup_insert_eq | rewrite Hm; exact Hs].
Qed.

Lemma state_update_makes_the_link_witness :
  Manager.voiceStateUpdate (Scenario.join "s2")
    (exec (Manager.voiceServersUpdate (Scenario.server "second")) Scenario.leftChannel)
  = (Ret (Some true),
     exec (Player.connect 0 ("s2", Scenario.server "second"))
       (w_manager (m_voiceStates <["guild-1" := Scenario.join "s2"]>)
          (exec (Manager.voiceServersUpdate (Scenario.server "second")) Scenario.leftChannel))).
Proof.
  refine (proj1 (state_update_makes_the_link (Scenario.join "s2") (Scenario.server "second")
                   0%nat
                   (exec (Manager.voiceServersUpdate (Scenario.server "second"))
                      Scenario.leftChannel) _ _ _ _)); vm_compute; reflexivity.
Defined.

(** ** Inbound messages *)

Section MessageProperties.

Variable pow : number -> number -> number.
Variable floor : number -> number.

(** X24: a stats message replaces the snapshot of the node, leaving the
    flags, the socket and the backlog of the node alone.  With a [cpu] entry
    in the new snapshot the penalty is recomputed from it and the message is
    re-emitted as [raw].  Without one the handler throws: the snapshot has
    been replaced, but the penalty is the old one and nothing is emitted. *)
Theorem stats_message_replaces_snapshot this s w :
  let n := nodeStore w !!! this in
  let w' := exec (message pow floor this (statsPacket s)) w in
  let n' := nodeStore w' !!! this in
  stats n' = s /\
  connected n' = connected n /\ ws n' = ws n /\ packetQueue n' = packetQueue n /\
  (cpu s = None ->
     result (message pow floor this (statsPacket s)) w
     = Throw (TypeError "Cannot read properties of undefined (reading 'systemLoad')") /\
     penalties n' = penalties n /\ emitted w' = emitted w) /\
  (cpu s <> None ->
     result (message pow floor this (statsPacket s)) w = Ret tt /\
     emitted w' = emitted w ++ [raw this (statsPacket s)] /\
     w' = w_emitted (fun l => l ++ [raw this (statsPacket s)])
            (exec (Node.calcPenalties pow floor this)
               (w_nodeStore <[this := n_stats s n]> w))).
Proof.
  intros n w' n'. subst n' w'. unfold result, exec, message, Node.calcPenalties.
  unfold_monad. world_norm. cbn [stats n_stats]. fold n.
  destruct (cpu s) as [c|].
  - world_norm. cbn [stats connected ws packetQueue n_penalties n_stats].
    repeat split; try reflexivity; congruence.
  - world_norm. cbn [stats connected ws packetQueue penalties n_stats].
    repeat split; try reflexivity; congruence.
Qed.

End MessageProperties.

Section EventRouting.

Variable pow : number -> number -> number.
Variable floor : number -> number.

(** X25: an event for a guild that has no player is dropped: the handler
    only re-emits the packet as [raw].  An event for a guild with a player is
    handled by that player, whichever node it came from, and [raw] follows
    only if the player's handler returns. *)
Theorem event_goes_to_the_player_of_the_guild this data w :
  (players (manager w) !! lo_guildId data = None ->
     message pow floor this (eventPacket data) w
     = (Ret tt, w_emitted (fun l => l ++ [raw this (eventPacket data)]) w)) /\
  (forall player, players (manager w) !! lo_guildId data = Some player ->
     lo_guildId data <> "" ->
     message pow floor this (eventPacket data) w
     = match Player.lavalinkEvent player data w with
       | (Ret _, w1) => (Ret tt, w_emitted (fun l => l ++ [raw this (eventPacket data)]) w1)
       | (Throw e, w1) => (Throw e, w1)
       end).
Proof.
  split.
  - intros Hp. unfold message. unfold_monad. rewrite Hp. reflexivity.
  - intros player Hp Hg. unfold message. unfold_monad. rewrite Hp.
    assert (Ht : Js.truthyStr (Some (lo_guildId data)) = true).
    { unfold Js.truthyStr. destruct (lo_guildId data); [congruence | reflexivity]. }
    rewrite Ht.
    destruct (Player.lavalinkEvent player data w) as [[[]|e] w1]; reflexivity.
Qed.

End EventRouting.

Lemma stats_message_replaces_snapshot_witness :
  result (message (fun x _ => x) (fun x => x) 0
            (statsPacket
               {| st_players := 0%float; playingPlayers := 0%float; uptime := 0%float;
                  memory := memory zeroStats; cpu := None; frameStats := None |}))
    Scenario.online
  = Throw (TypeError "Cannot read properties of undefined (reading 'systemLoad')").
Proof.
  destruct (stats_message_replaces_snapshot (fun x _ => x) (fun x => x) 0
              {| st_players := 0%float; playingPlayers := 0%float; uptime := 0%float;
                 memory := memory zeroStats; cpu := None; frameStats := None |}
              Scenario.online) as (_ & _ & _ & _ & H & _).
  destruct (H eq_refl) as (H1 & _). exact H1.
Defined.

Lemma event_goes_to_the_player_of_the_guild_witness :
  message (fun x _ => x) (fun x => x) 0 (eventPacket Scenario.stoppedEvent) Scenario.online
  = (Ret tt,
     w_emitted (fun l => l ++ [raw 0 (eventPacket Scenario.stoppedEvent)]) Scenario.online).
Proof.
  refine (proj1 (event_goes_to_the_player_of_the_guild (fun x _ => x) (fun x => x) 0
                   Scenario.stoppedEvent Scenario.online) _).
  vm_compute. reflexivity.
Defined.

Section UnhandledPackets.

Variable pow : number -> number -> number.
Variable floor : number -> number.

(** X26: a message with the op "error" for a guild that has a player makes
    the handler throw, as the player has no listener for it: nothing changes
    and [raw] is not emitted.  A message with any other unknown op, or for a
    guild without a player, only causes the [raw] notification. *)
Theorem error_packet_is_unhandled this op g w :
  (forall player, players (manager w) !! g = Some player -> g <> "" -> op = "error" ->
     message pow floor this (otherPacket op (Some g)) w = (Throw UnhandledError, w)) /\
  (op <> "stats" -> op <> "event" -> op <> "playerUpdate" ->
   players (manager w) !! g = None \/ g = "" \/ op <> "error" ->
     message pow floor this (otherPacket op (Some g)) w
     = (Ret tt, w_emitted (fun l => l ++ [raw this (otherPacket op (Some g))]) w)) /\
  message pow floor this (otherPacket op None) w
  = (Ret tt, w_emitted (fun l => l ++ [raw this (otherPacket op None)]) w).
Proof.
  split; [| split].
  - intros player Hp Hg ->. unfold message. unfold_monad. rewrite Hp.
    assert (Ht : Js.truthyStr (Some g) = true).
    { unfold Js.truthyStr. destruct g; [congruence | reflexivity]. }
    rewrite Ht. reflexivity.
  - intros _ _ _ H. unfold message. unfold_monad.
    destruct (players (manager w) !! g) as [player|] eqn:Hp; [| reflexivity].
    destruct H as [H | [-> | H]]; [discriminate H | reflexivity |].
    destruct (Js.truthyStr (Some g)); [| reflexivity].
    apply String.eqb_neq in H. rewrite H. reflexivity.
  - reflexivity.
Qed.

End UnhandledPackets.

Lemma error_packet_is_unhandled_witness :
  message (fun x _ => x) (fun x => x) 0 (otherPacket "error" (Some "guild-1"))
    Scenario.withPlayer
  = (Throw UnhandledError, Scenario.withPlayer).
Proof.
  refine (proj1 (error_packet_is_unhandled (fun x _ => x) (fun x => x) 0 "error" "guild-1"
                   Scenario.withPlayer) 0%nat _ _ _).
  - vm_compute. reflexivity.
  - discriminate.
  - reflexivity.
Defined.
